(** * M3 JSON schema to Snowflake SQL: the conversion core of [src/App.js]

    A shallow embedding of the three functions of the React component
    [M3ToSnowflakeConverter] that carry the logic of the tool:

    - [mapM3TypeToSnowflake]   (App.js, lines 13-57)
    - [convertToSnowflake]     (App.js, lines 60-107)
    - [generateSilverFromBronze] (App.js, lines 110-146)

    together with the part of the JavaScript run-time they rest on: values as
    [JSON.parse] returns them, truthiness, property reads, [toString],
    the string methods used, [Object.entries] and [Array.prototype.sort].

    Beside them stand [downloadSQL], [loadExample] with its text, the two
    [onChange] handlers and the conditions under which the page shows its
    panels (App.js, lines 159-188 and 211-288), and the two earlier
    versions of the component kept in
    [src/unnamed/part_000]: the mapper of the first one ([First], lines
    11-73) and the mapper and converter of the one before App.js
    ([Previous], lines 320-459).

    Modelling conventions.
    - A JavaScript string is a [string]; every character stands for one ASCII
      code unit.  Case conversion and the white-space class are the ASCII ones.
    - A JavaScript number read by [JSON.parse] is a double; it is identified
      here by the shortest decimal that reads back as that double, which is
      what [Number.prototype.toString] prints ([number], below).
    - [JSON.parse] itself is a built-in: it is a parameter of the development.
    - Exceptions are explicit ([Throw]); the wording of the engine's
      [TypeError] messages is V8's and no theorem depends on it.
    - Where the outcome depends on the order in which the engine's sort calls
      the comparison function, the model answers [Unmodelled] and says
      nothing. *)

From Stdlib Require Import String Ascii List ZArith QArith Lia Bool.
From Stdlib Require Import DecimalString DecimalPos Permutation Sorted.
Import ListNotations.

Local Open Scope string_scope.
Local Open Scope Z_scope.

(** ** Strings *)

Module Str.

Definition length (s : string) : Z := Z.of_nat (String.length s).

(** [s.startsWith(sub)] *)
Fixpoint starts_with (sub s : string) {struct sub} : bool :=
  match sub with
  | EmptyString => true
  | String a sub' =>
      match s with
      | EmptyString => false
      | String b s' => Ascii.eqb b a && starts_with sub' s'
      end
  end.

(** [s.includes(sub)] *)
Fixpoint includes (sub s : string) : bool :=
  starts_with sub s
  || match s with
     | EmptyString => false
     | String _ rest => includes sub rest
     end.

(** [s.split(sep)] for a separator of one character. *)
Fixpoint split (sep : ascii) (s : string) : list string :=
  match s with
  | EmptyString => [EmptyString]
  | String c rest =>
      if Ascii.eqb c sep then EmptyString :: split sep rest
      else match split sep rest with
           | [] => [String c EmptyString]
           | piece :: pieces => String c piece :: pieces
           end
  end.

(** [s.replace(c, by)] with a string pattern of one character: only the
    first occurrence is replaced. *)
Fixpoint replace (c : ascii) (by_ : string) (s : string) : string :=
  match s with
  | EmptyString => EmptyString
  | String d rest =>
      if Ascii.eqb d c then by_ ++ rest else String d (replace c by_ rest)
  end.

Definition code (c : ascii) : N := N_of_ascii c.

Definition upper_char (c : ascii) : ascii :=
  if ((97 <=? code c) && (code c <=? 122))%N
  then ascii_of_N (code c - 32) else c.

Definition lower_char (c : ascii) : ascii :=
  if ((65 <=? code c) && (code c <=? 90))%N
  then ascii_of_N (code c + 32) else c.

Fixpoint map (f : ascii -> ascii) (s : string) : string :=
  match s with
  | EmptyString => EmptyString
  | String c rest => String (f c) (map f rest)
  end.

Definition toUpperCase : string -> string := map upper_char.
Definition toLowerCase : string -> string := map lower_char.

(** The class [\s] on ASCII: TAB, LF, VT, FF, CR and the space. *)
Definition is_space (c : ascii) : bool :=
  (((9 <=? code c) && (code c <=? 13)) || (code c =? 32))%N.

(** [s.replace(/\s+/g, by)]: every maximal run of white space becomes
    one copy of [by_].  [in_run] tells that the previous character was
    white space. *)
Fixpoint replace_spaces (by_ : string) (in_run : bool) (s : string) : string :=
  match s with
  | EmptyString => EmptyString
  | String c rest =>
      if is_space c
      then (if in_run then EmptyString else by_) ++ replace_spaces by_ true rest
      else String c (replace_spaces by_ false rest)
  end.

(** [pieces.join(sep)] on an array of strings. *)
Fixpoint join (sep : string) (pieces : list string) : string :=
  match pieces with
  | [] => EmptyString
  | [piece] => piece
  | piece :: rest => piece ++ sep ++ join sep rest
  end.

Fixpoint take (n : nat) (s : string) : string :=
  match n, s with
  | S n', String c rest => String c (take n' rest)
  | _, _ => EmptyString
  end.

Fixpoint drop (n : nat) (s : string) : string :=
  match n, s with
  | S n', String _ rest => drop n' rest
  | _, _ => s
  end.

Fixpoint repeat (c : ascii) (n : nat) : string :=
  match n with
  | O => EmptyString
  | S n' => String c (repeat c n')
  end.

Definition is_digit (c : ascii) : bool :=
  ((48 <=? code c) && (code c <=? 57))%N.

(** Number of decimal digits in a string. *)
Fixpoint count_digits (s : string) : Z :=
  match s with
  | EmptyString => 0
  | String c rest => (if is_digit c then 1 else 0) + count_digits rest
  end.

Fixpoint forallb (p : ascii -> bool) (s : string) : bool :=
  match s with
  | EmptyString => true
  | String c rest => p c && forallb p rest
  end.

End Str.

(** ** Numbers *)

(** A double as [JSON.parse] can return it.  [Finite neg s e] is the value
    [s * 10^e], negated when [neg]; in the canonical form [s] is not a
    multiple of ten, so that the digits of [s] are the significant digits
    that [toString] prints. *)
Inductive number : Type :=
| Zero (negative : bool)
| Finite (negative : bool) (s : positive) (e : Z)
| Infinite (negative : bool).

Module Num.

(** [z * 10^e] as a number, in canonical form. *)
Fixpoint strip_zeros (fuel : nat) (s : positive) (e : Z) : positive * Z :=
  match fuel with
  | O => (s, e)
  | S fuel' =>
      if Zpos s mod 10 =? 0
      then strip_zeros fuel' (Z.to_pos (Zpos s / 10)) (e + 1)
      else (s, e)
  end.

Definition of_decimal (z : Z) (e : Z) : number :=
  match z with
  | Z0 => Zero false
  | Zpos p => let (s, e') := strip_zeros (Pos.to_nat (Pos.size p)) p e in Finite false s e'
  | Zneg p => let (s, e') := strip_zeros (Pos.to_nat (Pos.size p)) p e in Finite true s e'
  end.

Definition of_Z (z : Z) : number := of_decimal z 0.

Definition digits (s : positive) : string :=
  NilEmpty.string_of_uint (Pos.to_uint s).

(** Decimal numeral of a non-negative integer. *)
Definition nat_string (z : Z) : string :=
  NilZero.string_of_uint (N.to_uint (Z.to_N z)).

Definition sign (negative : bool) : string :=
  if negative then "-" else EmptyString.

(** Number::toString of a positive finite value (ECMAScript 6.1.6.1.20),
    with [k] the number of digits of [s] and [n] such that the value is
    [0.d1...dk * 10^n]. *)
Definition positive_toString (s : positive) (e : Z) : string :=
  let ds := digits s in
  let k := Str.length ds in
  let n := e + k in
  if (k <=? n) && (n <=? 21) then
    ds ++ Str.repeat "0" (Z.to_nat (n - k))
  else if (0 <? n) && (n <=? 21) then
    Str.take (Z.to_nat n) ds ++ "." ++ Str.drop (Z.to_nat n) ds
  else if (-6 <? n) && (n <=? 0) then
    "0." ++ Str.repeat "0" (Z.to_nat (- n)) ++ ds
  else
    let exponent :=
      (if n - 1 <? 0 then "-" else "+") ++ nat_string (Z.abs (n - 1)) in
    if k =? 1 then ds ++ "e" ++ exponent
    else Str.take 1 ds ++ "." ++ Str.drop 1 ds ++ "e" ++ exponent.

(** [x.toString()] *)
Definition toString (x : number) : string :=
  match x with
  | Zero _ => "0"
  | Finite negative s e => sign negative ++ positive_toString s e
  | Infinite negative => sign negative ++ "Infinity"
  end.

(** ToBoolean: only the two zeros are falsy (NaN is no JSON value). *)
Definition truthy (x : number) : bool :=
  match x with
  | Zero _ => false
  | _ => true
  end.

Definition value (x : number) : Q :=
  match x with
  | Zero _ => 0%Q
  | Finite negative s e =>
      ((if negative then -1 else 1) * inject_Z (Zpos s) * Qpower 10 e)%Q
  | Infinite _ => 0%Q
  end.

Definition class (x : number) : Z :=
  match x with
  | Infinite true => -1
  | Infinite false => 1
  | _ => 0
  end.

(** The sign of [x - y] as [Array.prototype.sort] reads the result of a
    comparison function: [Lt] for a negative difference, [Gt] for a
    positive one and [Eq] for zero and for NaN (the difference of two
    equal infinities). *)
Definition sign_of_difference (x y : number) : comparison :=
  match class x ?= class y with
  | Eq => Qcompare (value x) (value y)
  | c => c
  end.

End Num.

(** ** Values, exceptions and results *)

(** A value as [JSON.parse] builds it.  The fields of an object are its own
    properties in creation order, no name twice. *)
#[warnings="-register-all"]
Inductive json : Type :=
| JNull
| JBool (b : bool)
| JNum (x : number)
| JStr (s : string)
| JArr (items : list json)
| JObj (fields : list (string * json)).

(** The result of reading a property or a variable: [None] is [undefined]. *)
Definition value : Type := option json.

Inductive exn : Type :=
| SyntaxError (message : string)
| TypeError (message : string).

Definition message (err : exn) : string :=
  match err with
  | SyntaxError m => m
  | TypeError m => m
  end.

(** What evaluating an expression gives: a value, an exception, or no
    answer from this model. *)
Inductive result (A : Type) : Type :=
| Ok (a : A)
| Throw (err : exn)
| Unmodelled.

Arguments Ok {A} a.
Arguments Throw {A} err.
Arguments Unmodelled {A}.

Definition bind {A B : Type} (r : result A) (k : A -> result B) : result B :=
  match r with
  | Ok a => k a
  | Throw err => Throw err
  | Unmodelled => Unmodelled
  end.

Declare Scope js_scope.
Delimit Scope js_scope with js.
Notation "x <- r ;; k" := (bind r (fun x => k))
  (at level 61, r at next level, right associativity) : js_scope.
Notation "' pat <- r ;; k" := (bind r (fun x => match x with pat => k end))
  (at level 61, pat pattern, r at next level, right associativity) : js_scope.
Local Open Scope js_scope.

(** [for] loops and [map] over a list, left to right; the first exception
    ends the loop. *)
Fixpoint for_each {A B : Type} (body : A -> result B) (l : list A) : result (list B) :=
  match l with
  | [] => Ok []
  | a :: rest =>
      b <- body a ;;
      bs <- for_each body rest ;;
      Ok (b :: bs)
  end.

(** [items.filter(keep)] *)
Fixpoint filter_each {A : Type} (keep : A -> result bool) (l : list A) : result (list A) :=
  match l with
  | [] => Ok []
  | a :: rest =>
      b <- keep a ;;
      kept <- filter_each keep rest ;;
      Ok (if b then a :: kept else kept)
  end.

(** The line feed of the template literals. *)
Definition nl : string := String (ascii_of_nat 10) EmptyString.

Module JS.

(** ToBoolean *)
Definition truthy (v : value) : bool :=
  match v with
  | None => false
  | Some JNull => false
  | Some (JBool b) => b
  | Some (JNum x) => Num.truthy x
  | Some (JStr s) => negb (String.eqb s EmptyString)
  | Some (JArr _) => true
  | Some (JObj _) => true
  end.

Fixpoint lookup (key : string) (fields : list (string * json)) : value :=
  match fields with
  | [] => None
  | (k, v) :: rest => if String.eqb k key then Some v else lookup key rest
  end.

Definition has_own (key : string) (fields : list (string * json)) : bool :=
  match lookup key fields with
  | Some _ => true
  | None => false
  end.

(** [o[key]] on a value that is neither [null] nor [undefined], for a
    [key] that no prototype defines and that is neither an index nor
    [length]: every name this program reads is of that kind.  Only an
    object can hold such a property. *)
Definition field (o : json) (key : string) : value :=
  match o with
  | JObj fields => lookup key fields
  | _ => None
  end.

(** [o[key]] *)
Definition get (o : json) (key : string) : result value :=
  match o with
  | JNull =>
      Throw (TypeError ("Cannot read properties of null (reading '" ++ key ++ "')"))
  | _ => Ok (field o key)
  end.

(** [v === s] for a string literal [s] *)
Definition is_string (v : value) (s : string) : bool :=
  match v with
  | Some (JStr t) => String.eqb t s
  | _ => false
  end.

(** ToString, as a template literal and [join] apply it.  An object
    prints through [Object.prototype.toString]; an own property named
    [toString] (never callable in parsed JSON) makes the conversion fail,
    since [valueOf] gives back the object. *)
Fixpoint ToString (v : json) : result string :=
  match v with
  | JNull => Ok "null"
  | JBool true => Ok "true"
  | JBool false => Ok "false"
  | JNum x => Ok (Num.toString x)
  | JStr s => Ok s
  | JArr items =>
      pieces <- (fix each (l : list json) : result (list string) :=
                   match l with
                   | [] => Ok []
                   | item :: rest =>
                       s <- match item with
                            | JNull => Ok EmptyString
                            | _ => ToString item
                            end ;;
                       ss <- each rest ;;
                       Ok (s :: ss)
                   end) items ;;
      Ok (Str.join "," pieces)
  | JObj fields =>
      if has_own "toString" fields
      then Throw (TypeError "Cannot convert object to primitive value")
      else Ok "[object Object]"
  end.

(** [items.join(sep)] *)
Definition Array_join (sep : string) (items : list json) : result string :=
  pieces <- for_each (fun item => match item with
                                  | JNull => Ok EmptyString
                                  | _ => ToString item
                                  end) items ;;
  Ok (Str.join sep pieces).

(** [v.toString()] for the variable named [name] *)
Definition toString (name : string) (v : json) : result string :=
  match v with
  | JNull =>
      Throw (TypeError "Cannot read properties of null (reading 'toString')")
  | JObj fields =>
      if has_own "toString" fields
      then Throw (TypeError (name ++ ".toString is not a function"))
      else Ok "[object Object]"
  | _ => ToString v
  end.

Fixpoint skip_spaces (s : string) : string :=
  match s with
  | String c rest => if Str.is_space c then skip_spaces rest else s
  | EmptyString => s
  end.

Definition digit_value (radix : Z) (c : ascii) : option Z :=
  let n := Z.of_N (Str.code c) in
  let d := if (48 <=? n) && (n <=? 57) then n - 48
           else if (97 <=? n) && (n <=? 122) then n - 87
           else if (65 <=? n) && (n <=? 90) then n - 55
           else radix in
  if d <? radix then Some d else None.

(** The value of the longest prefix of [s] made of digits of [radix],
    after the digits read so far ([acc]); [None] when there is none. *)
Fixpoint read_digits (radix : Z) (acc : option Z) (s : string) : option Z :=
  match s with
  | EmptyString => acc
  | String c rest =>
      match digit_value radix c with
      | Some d =>
          read_digits radix
            (Some (match acc with Some a => a * radix + d | None => d end)) rest
      | None => acc
      end
  end.

(** [parseInt(s)] with no radix argument; [None] is NaN.  The result is
    the exact integer: the program only takes [Math.min] of its absolute
    value plus a length with 38, which the rounding of a large value to a
    double cannot change. *)
Definition parseInt (s : string) : option Z :=
  let s := skip_spaces s in
  let '(negative, s) :=
    match s with
    | String c rest =>
        if Ascii.eqb c "-" then (true, rest)
        else if Ascii.eqb c "+" then (false, rest)
        else (false, s)
    | EmptyString => (false, s)
    end in
  let '(radix, s) :=
    if Str.starts_with "0x" s || Str.starts_with "0X" s
    then (16, Str.drop 2 s) else (10, s) in
  match read_digits radix None s with
  | Some n => Some (if negative then - n else n)
  | None => None
  end.

(** A number that may be NaN ([None]), printed by a template literal. *)
Definition show (n : option Z) : string :=
  match n with
  | Some z => Num.sign (z <? 0) ++ Num.nat_string (Z.abs z)
  | None => "NaN"
  end.

End JS.

(** ** Type mapping (App.js, lines 13-57) *)

(** [s.split('.')[1]?.length || 0] *)
Definition fraction_length (s : string) : Z :=
  match nth_error (Str.split "." s) 1 with
  | Some fraction => Str.length fraction
  | None => 0
  end.

(** [s.replace('.', '').replace('-', '').length] *)
Definition bare_length (s : string) : Z :=
  Str.length (Str.replace "-" EmptyString (Str.replace "." EmptyString s)).

(** The block for [type === 'number'] (lines 22-51). *)
Definition number_type (maximum multipleOf : value) : result string :=
  (* let hasDecimals = false; let scale = 0; *)
  '(hasDecimals, scale) <-
    match multipleOf with
    | Some m =>
        if JS.truthy multipleOf then
          s <- JS.toString "multipleOf" m ;;
          if Str.includes "." s then Ok (true, fraction_length s)
          else Ok (false, 0)
        else Ok (false, 0)
    | None => Ok (false, 0)
    end ;;
  '(hasDecimals, scale) <-
    match maximum with
    | Some m =>
        if negb hasDecimals && JS.truthy maximum then
          s <- JS.toString "maximum" m ;;
          if Str.includes "." s then Ok (true, fraction_length s)
          else Ok (hasDecimals, scale)
        else Ok (hasDecimals, scale)
    | None => Ok (hasDecimals, scale)
    end ;;
  if hasDecimals : bool then
    (* let precision = 38; *)
    precision <-
      match maximum with
      | Some m =>
          if JS.truthy maximum then
            s <- JS.toString "maximum" m ;;
            let maxStr := Str.replace "E" "e" s in
            if Str.includes "e" maxStr then
              let pieces := Str.split "e" maxStr in
              let mantissa := nth 0 pieces EmptyString in
              let exponent := nth 1 pieces EmptyString in
              Ok (option_map (fun exp => Z.abs exp + bare_length mantissa)
                             (JS.parseInt exponent))
            else Ok (Some (bare_length maxStr))
          else Ok (Some 38)
      | None => Ok (Some 38)
      end ;;
    (* precision = Math.min(precision, 38); *)
    let precision := option_map (fun p => Z.min p 38) precision in
    Ok ("NUMBER(" ++ JS.show precision ++ ", " ++ JS.show (Some scale) ++ ")")
  else Ok "NUMBER".

Definition mapM3TypeToSnowflake (property : json) : result string :=
  (* const { type, format, maximum, multipleOf } = property; *)
  _ <- match property with
       | JNull =>
           Throw (TypeError
             "Cannot destructure property 'type' of 'property' as it is null.")
       | _ => Ok tt
       end ;;
  let type := JS.field property "type" in
  let format := JS.field property "format" in
  let maximum := JS.field property "maximum" in
  let multipleOf := JS.field property "multipleOf" in
  let dateTimeFormat := JS.field property "x-dateTimeFormat" in
  if JS.is_string format "date-time" then Ok "DATETIME"
  else if JS.is_string dateTimeFormat "epoch-millis" then Ok "NUMBER"
  else if JS.is_string type "boolean" then Ok "BOOLEAN"
  else if JS.is_string type "integer" then Ok "INTEGER"
  else if JS.is_string type "number" then number_type maximum multipleOf
  else if JS.is_string type "string" then Ok "STRING"
  else if JS.is_string type "object" then Ok "STRING"
  else Ok "STRING".

(** ** [Object.entries] and [Array.prototype.sort] *)

Definition entry : Type := (string * json)%type.

Module Obj.

(** A property name that is an array index: the canonical numeral of an
    integer below 2^32 - 1. *)
Definition array_index (key : string) : option Z :=
  match key with
  | EmptyString => None
  | String c rest =>
      if Str.forallb Str.is_digit key
         && (negb (Ascii.eqb c "0") || String.eqb rest EmptyString)
      then match JS.read_digits 10 None key with
           | Some n => if n <? 4294967295 then Some n else None
           | None => None
           end
      else None
  end.

Fixpoint insert_index (i : Z) (e : entry) (l : list (Z * entry)) : list (Z * entry) :=
  match l with
  | [] => [(i, e)]
  | (j, f) :: rest =>
      if j <? i then (j, f) :: insert_index i e rest else (i, e) :: l
  end.

(** The own properties whose names are array indices, by ascending index. *)
Fixpoint indexed (fields : list entry) : list (Z * entry) :=
  match fields with
  | [] => []
  | (k, v) :: rest =>
      match array_index k with
      | Some i => insert_index i (k, v) (indexed rest)
      | None => indexed rest
      end
  end.

Definition named (fields : list entry) : list entry :=
  filter (fun e => match array_index (fst e) with
                   | Some _ => false
                   | None => true
                   end) fields.

(** OrdinaryOwnPropertyKeys: array indices in ascending order, then the
    other names in creation order. *)
Definition own_entries (fields : list entry) : list entry :=
  List.map snd (indexed fields) ++ named fields.

Fixpoint number_from (i : Z) (items : list json) : list entry :=
  match items with
  | [] => []
  | item :: rest => (Num.nat_string i, item) :: number_from (i + 1) rest
  end.

Fixpoint characters (s : string) : list json :=
  match s with
  | EmptyString => []
  | String c rest => JStr (String c EmptyString) :: characters rest
  end.

(** [Object.entries(o)] *)
Definition entries (o : json) : result (list entry) :=
  match o with
  | JNull => Throw (TypeError "Cannot convert undefined or null to object")
  | JBool _ => Ok []
  | JNum _ => Ok []
  | JStr s => Ok (number_from 0 (characters s))
  | JArr items => Ok (number_from 0 items)
  | JObj fields => Ok (own_entries fields)
  end.

End Obj.

(** [Array.prototype.sort] is stable (ECMAScript 2019) and, with a
    comparison function that orders the elements consistently, returns
    them in ascending order; the order of a stable sort is then unique, so
    the insertion sort below stands for whatever algorithm the engine runs.
    [before a b] is the sign of [comparefn(a, b)]. *)
Section ArraySort.

Context {A : Type}.
Variable before : A -> A -> comparison.

Fixpoint insert (x : A) (sorted : list A) : list A :=
  match sorted with
  | [] => [x]
  | y :: rest =>
      match before y x with
      | Lt => y :: insert x rest
      | _ => x :: sorted
      end
  end.

Fixpoint Array_sort (l : list A) : list A :=
  match l with
  | [] => []
  | x :: rest => insert x (Array_sort rest)
  end.

End ArraySort.

(** ** Column order (App.js, lines 73-75 and 119-121) *)

(** ToNumber on a string of one to fifteen decimal digits: the integer it
    denotes, which a double holds exactly.  The other strings (a sign, a
    fraction, an exponent, white space, a text that reads as NaN) are not
    modelled. *)
Definition digits_number (s : string) : option number :=
  if Str.forallb Str.is_digit s && (Str.length s <=? 15)
  then option_map Num.of_Z (JS.read_digits 10 None s)
  else None.

(** [d['x-position'] || 999] as the subtraction reads it (ToNumber).  A
    position that is a string other than those of [digits_number], an array
    or an object would go through the engine's string-to-number conversion
    and can be NaN, for which the order the sort leaves is the engine's
    choice: not modelled. *)
Definition position (d : json) : result number :=
  v <- JS.get d "x-position" ;;
  if JS.truthy v then
    match v with
    | Some (JNum x) => Ok x
    | Some (JBool true) => Ok (Finite false 1 0)
    | Some (JStr s) =>
        match digits_number s with
        | Some x => Ok x
        | None => Unmodelled
        end
    | _ => Unmodelled
    end
  else Ok (Finite false 999 0).

Definition is_unmodelled {A : Type} (r : result A) : bool :=
  match r with
  | Unmodelled => true
  | _ => false
  end.

(** The comparison function is defined on every pair of entries, or it
    throws the one exception it can throw. *)
Definition check_positions (entries : list entry) : result unit :=
  let positions := List.map (fun e : entry => position (snd e)) entries in
  if existsb is_unmodelled positions then Unmodelled
  else _ <- for_each (fun p : result number => p) positions ;; Ok tt.

Definition sort_key (e : entry) : number :=
  match position (snd e) with
  | Ok x => x
  | _ => Finite false 999 0
  end.

(** [(a, b) => (a[1]['x-position'] || 999) - (b[1]['x-position'] || 999)] *)
Definition by_position (a b : entry) : comparison :=
  Num.sign_of_difference (sort_key a) (sort_key b).

(** [entries.sort(by_position)].  With fewer than two elements the
    comparison function is not called.  With two or more, every element is
    compared at least once, so a [null] descriptor makes the sort throw. *)
Definition sort_by_position (entries : list entry) : result (list entry) :=
  match entries with
  | [] => Ok entries
  | [_] => Ok entries
  | _ => _ <- check_positions entries ;; Ok (Array_sort by_position entries)
  end.

(** [Object.entries(properties).sort(...)]: the same expression in both
    generators. *)
Definition sortedProps (properties : json) : result (list entry) :=
  entries <- Obj.entries properties ;;
  sort_by_position entries.

(** ** DDL generation (App.js, lines 64-100) *)

(** [v || d] *)
Definition or_else (v : value) (d : json) : json :=
  match v with
  | Some j => if JS.truthy v then j else d
  | None => d
  end.

(** [tableName || schema.title?.toUpperCase().replace(/\s+/g, '_') || 'UNKNOWN_TABLE'] *)
Definition table_name (tableName : string) (schema : json) : result string :=
  if negb (String.eqb tableName EmptyString) then Ok tableName
  else
    title <- JS.get schema "title" ;;
    derived <- match title with
               | None => Ok EmptyString
               | Some JNull => Ok EmptyString
               | Some (JStr s) => Ok (Str.replace_spaces "_" false (Str.toUpperCase s))
               | Some _ =>
                   Throw (TypeError "schema.title?.toUpperCase is not a function")
               end ;;
    if negb (String.eqb derived EmptyString) then Ok derived
    else Ok "UNKNOWN_TABLE".

(** [required.includes(propName)] *)
Definition required_includes (required : json) (propName : string) : result bool :=
  match required with
  | JArr items =>
      Ok (existsb (fun item => match item with
                               | JStr s => String.eqb s propName
                               | _ => false
                               end) items)
  | JStr s => Ok (Str.includes propName s)
  | _ => Throw (TypeError "required.includes is not a function")
  end.

(** The body of the loop over [sortedProps] (lines 77-83). *)
Definition column_line (required : json) (prop : entry) : result string :=
  let '(propName, propDef) := prop in
  snowflakeType <- mapM3TypeToSnowflake propDef ;;
  isRequired <- required_includes required propName ;;
  let notNull := if isRequired : bool then " NOT NULL" else EmptyString in
  description <- JS.get propDef "description" ;;
  comment <- match description with
             | Some d =>
                 if JS.truthy description then
                   text <- JS.ToString d ;;
                   Ok (" COMMENT '" ++ text ++ "'")
                 else Ok EmptyString
             | None => Ok EmptyString
             end ;;
  Ok ("    " ++ propName ++ " " ++ snowflakeType ++ notNull ++ comment).

Definition allow_list : list string :=
  ["CONO"; "SUNO"; "variationNumber"; "timestamp"; "deleted"].

(** [r => [...].includes(r) || r.toLowerCase().includes('id')] *)
Definition is_pk_candidate (r : json) : result bool :=
  match r with
  | JStr s =>
      Ok (existsb (String.eqb s) allow_list
          || Str.includes "id" (Str.toLowerCase s))
  | JNull =>
      Throw (TypeError "Cannot read properties of null (reading 'toLowerCase')")
  | _ => Throw (TypeError "r.toLowerCase is not a function")
  end.

(** [required.filter(...)] *)
Definition pk_candidates (required : json) : result (list json) :=
  match required with
  | JArr items => filter_each is_pk_candidate items
  | _ => Throw (TypeError "required.filter is not a function")
  end.

(** The statements between [JSON.parse] and [setSqlOutput]: the [sql] text
    for a parsed [schema] and the table name typed by the user. *)
Definition generateDdl (tableName : string) (schema : json) : result string :=
  table <- table_name tableName schema ;;
  properties <- JS.get schema "properties" ;;
  let properties := or_else properties (JObj []) in
  required <- JS.get schema "required" ;;
  let required := or_else required (JArr []) in
  description <- JS.get schema "description" ;;
  let sql := "-- Table: " ++ table ++ nl in
  shown <- match description with
           | Some d => if JS.truthy description then JS.ToString d
                       else Ok "No description"
           | None => Ok "No description"
           end ;;
  let sql := sql ++ "-- Description: " ++ shown ++ nl in
  let sql := sql ++ "CREATE OR ALTER TABLE " ++ table ++ " (" ++ nl in
  sortedProps <- sortedProps properties ;;
  columns <- for_each (column_line required) sortedProps ;;
  let sql := sql ++ Str.join ("," ++ nl) columns in
  let sql := sql ++ nl ++ ")" in
  sql <- match description with
         | Some d =>
             if JS.truthy description then
               text <- JS.ToString d ;;
               Ok (sql ++ (nl ++ "CHANGE_TRACKING = TRUE")
                       ++ (nl ++ "COMMENT = '" ++ text ++ "'"))
             else Ok sql
         | None => Ok sql
         end ;;
  pkCandidates <- pk_candidates required ;;
  match pkCandidates with
  | [] => Ok sql
  | _ :: _ =>
      names <- JS.Array_join ", " pkCandidates ;;
      Ok (sql ++ (nl ++ nl ++ "-- Primary key:" ++ nl)
              ++ ("-- ALTER TABLE " ++ table ++ " ADD PRIMARY KEY (" ++ names ++ ");" ++ nl))
  end.

(** ** Silver query (App.js, lines 117-140) *)

Definition excludeCols : list string :=
  ["ACCOUNTINGENTITY"; "VARIATIONNUMBER"; "TIMESTAMP"; "DELETED"; "ARCHIVED"; "ROW_NUM"].

(** The callback of [sortedProps.map] (lines 127-131). *)
Definition select_line (prop : entry) : result string :=
  let '(name, def) := prop in
  type <- mapM3TypeToSnowflake def ;;
  if String.eqb type "STRING" then Ok ("TRIM(" ++ name ++ ") AS " ++ name)
  else Ok name.

Definition row_number_line : string :=
  "ROW_NUMBER() OVER (PARTITION BY CONO, SUNO ORDER BY VARIATIONNUMBER DESC) AS ROW_NUM".

Definition silver_text (table : string) (bronzeSelectLines : list string) : string :=
  ("CREATE OR REPLACE DYNAMIC TABLE " ++ table ++ nl
   ++ "TARGET_LAG= DOWNSTREAM" ++ nl
   ++ "WAREHOUSE={{env}}_ANALYTICS_WH" ++ nl
   ++ "REFRESH_MODE = INCREMENTAL" ++ nl
   ++ "INITIALIZE=ON_CREATE" ++ nl
   ++ "AS" ++ nl
   ++ "WITH BRONZE AS (" ++ nl
   ++ "    SELECT " ++ Str.join ("," ++ nl ++ "           ") bronzeSelectLines ++ nl
   ++ "    FROM {{env}}_BRONZE." ++ table ++ " b" ++ nl
   ++ ")" ++ nl ++ nl)
  ++ ("SELECT *" ++ nl
      ++ "       EXCLUDE (" ++ Str.join ", " excludeCols ++ ")" ++ nl
      ++ "FROM BRONZE" ++ nl
      ++ "WHERE ROW_NUM = 1 AND DELETED = FALSE;" ++ nl).

(** The statements between [JSON.parse] and [setSilverSql]. *)
Definition generateSilver (tableName : string) (schema : json) : result string :=
  properties <- JS.get schema "properties" ;;
  let properties := or_else properties (JObj []) in
  sortedProps <- sortedProps properties ;;
  table <- table_name tableName schema ;;
  bronzeSelectLines <- for_each select_line sortedProps ;;
  let bronzeSelectLines := (bronzeSelectLines ++ [row_number_line])%list in
  Ok (silver_text table bronzeSelectLines).

(** ** The component's state and its two handlers *)

Record State : Type := mkState {
  jsonInput : string;
  sqlOutput : string;
  tableName : string;
  error : string;
  silverSql : string
}.

(** A handler runs on the state and leaves it changed, whether it ends
    normally or by an exception. *)
Definition action (A : Type) : Type := State -> result A * State.

Definition lift {A : Type} (r : result A) : action A := fun st => (r, st).

Definition and_then {A B : Type} (m : action A) (k : A -> action B) : action B :=
  fun st =>
    match m st with
    | (Ok a, st') => k a st'
    | (Throw err, st') => (Throw err, st')
    | (Unmodelled, st') => (Unmodelled, st')
    end.

(** [try { body } catch (err) { handler }] *)
Definition try_catch {A : Type} (body : action A) (handler : exn -> action A) : action A :=
  fun st =>
    match body st with
    | (Throw err, st') => handler err st'
    | outcome => outcome
    end.

Declare Scope action_scope.
Delimit Scope action_scope with action.
Notation "x <-- m ;; k" := (and_then m (fun x => k))
  (at level 61, m at next level, right associativity) : action_scope.
Notation "m ;;; k" := (and_then m (fun _ => k))
  (at level 61, right associativity) : action_scope.

Definition setSqlOutput (s : string) : action unit :=
  fun st => (Ok tt, mkState (jsonInput st) s (tableName st) (error st) (silverSql st)).

Definition setError (s : string) : action unit :=
  fun st => (Ok tt, mkState (jsonInput st) (sqlOutput st) (tableName st) s (silverSql st)).

Definition setSilverSql (s : string) : action unit :=
  fun st => (Ok tt, mkState (jsonInput st) (sqlOutput st) (tableName st) (error st) s).

Section Handlers.

(** The built-in [JSON.parse]: a value, or a [SyntaxError] with the
    parser's message. *)
Variable JSON_parse : string -> result json.

Local Open Scope action_scope.

Definition convertToSnowflake : action unit :=
  fun st =>
    try_catch
      (setError EmptyString ;;;
       schema <-- lift (JSON_parse (jsonInput st)) ;;
       sql <-- lift (generateDdl (tableName st) schema) ;;
       setSqlOutput sql)
      (fun err =>
         setError ("Error parsing JSON: " ++ message err) ;;;
         setSqlOutput EmptyString)
      st.

Definition generateSilverFromBronze : action unit :=
  fun st =>
    if String.eqb (jsonInput st) EmptyString
    then setSilverSql "-- No JSON input available yet" st
    else
      try_catch
        (schema <-- lift (JSON_parse (jsonInput st)) ;;
         silver <-- lift (generateSilver (tableName st) schema) ;;
         setSilverSql silver)
        (fun err =>
           setSilverSql ("-- Error generating silver query: " ++ message err))
        st.

End Handlers.


(** * Specification vocabulary *)

(** ** The data model: well-formed descriptors and schemas *)

Definition optional (p : json -> bool) (v : value) : bool :=
  match v with
  | Some j => p j
  | None => true
  end.

Definition is_str (j : json) : bool :=
  match j with
  | JStr _ => true
  | _ => false
  end.

Definition is_num (j : json) : bool :=
  match j with
  | JNum _ => true
  | _ => false
  end.

(** What the code takes for no position: [null], [false], the number zero
    and the empty string. *)
Definition is_falsy (j : json) : bool := negb (JS.truthy (Some j)).

(** A PropertyDescriptor: an object whose fields, where present, have the
    types of the data model ([maximum] may be a number or a string).  The
    [x-position] is a number, or any value that counts as none. *)
Definition well_formed_descriptor (d : json) : bool :=
  match d with
  | JObj _ =>
      optional is_str (JS.field d "type")
      && optional is_str (JS.field d "format")
      && optional (fun j => is_num j || is_str j) (JS.field d "maximum")
      && optional is_num (JS.field d "multipleOf")
      && optional (fun j => is_num j || is_falsy j) (JS.field d "x-position")
      && optional is_str (JS.field d "x-dateTimeFormat")
      && optional is_str (JS.field d "description")
  | _ => false
  end.

Definition is_properties (j : json) : bool :=
  match j with
  | JObj props => forallb (fun p : entry => well_formed_descriptor (snd p)) props
  | _ => false
  end.

Definition is_names (j : json) : bool :=
  match j with
  | JArr items => forallb is_str items
  | _ => false
  end.

(** A SchemaDocument. *)
Definition well_formed_schema (s : json) : bool :=
  match s with
  | JObj _ =>
      optional is_str (JS.field s "title")
      && optional is_str (JS.field s "description")
      && optional is_properties (JS.field s "properties")
      && optional is_names (JS.field s "required")
  | _ => false
  end.

(** ** Reading a well-formed schema *)

Definition text (v : value) : string :=
  match v with
  | Some (JStr s) => s
  | _ => EmptyString
  end.

Definition schema_properties (s : json) : list entry :=
  match JS.field s "properties" with
  | Some (JObj props) => props
  | _ => []
  end.

Definition schema_required (s : json) : list string :=
  match JS.field s "required" with
  | Some (JArr items) => List.map (fun item => text (Some item)) items
  | _ => []
  end.

Definition schema_description (s : json) : string := text (JS.field s "description").

(** The table name: the user's, else the title in upper case with
    underscores, else [UNKNOWN_TABLE]. *)
Definition resolved_table (tableName : string) (s : json) : string :=
  if negb (String.eqb tableName EmptyString) then tableName
  else
    let derived := Str.replace_spaces "_" false (Str.toUpperCase (text (JS.field s "title"))) in
    if negb (String.eqb derived EmptyString) then derived else "UNKNOWN_TABLE".

(** The columns in the order of the generated artifacts. *)
Definition columns (s : json) : list entry :=
  Array_sort by_position (Obj.own_entries (schema_properties s)).

Definition sql_type (d : json) : string :=
  match mapM3TypeToSnowflake d with
  | Ok t => t
  | _ => EmptyString
  end.

(** ** The text of the artifacts, from an ordered list of columns *)

Definition column_text (required : list string) (p : entry) : string :=
  "    " ++ fst p ++ " " ++ sql_type (snd p)
  ++ (if existsb (fun name => String.eqb name (fst p)) required
      then " NOT NULL" else EmptyString)
  ++ (let d := text (JS.field (snd p) "description") in
      if String.eqb d EmptyString then EmptyString else " COMMENT '" ++ d ++ "'").

(** Everything up to the closing parenthesis and the table options. *)
Definition ddl_statement (tableName : string) (s : json) (cols : list entry) : string :=
  let table := resolved_table tableName s in
  let description := schema_description s in
  ((("-- Table: " ++ table ++ nl)
    ++ "-- Description: "
    ++ (if String.eqb description EmptyString then "No description" else description)
    ++ nl)
   ++ "CREATE OR ALTER TABLE " ++ table ++ " (" ++ nl)
  ++ Str.join ("," ++ nl) (List.map (column_text (schema_required s)) cols)
  ++ (nl ++ ")")
  ++ (if String.eqb description EmptyString then EmptyString
      else (nl ++ "CHANGE_TRACKING = TRUE") ++ (nl ++ "COMMENT = '" ++ description ++ "'")).

(** The rule that makes a required name a primary-key candidate. *)
Definition is_i (c : ascii) : bool := Ascii.eqb c "i" || Ascii.eqb c "I".
Definition is_d (c : ascii) : bool := Ascii.eqb c "d" || Ascii.eqb c "D".

(** The name holds an i followed by a d, each in either case. *)
Fixpoint mentions_id (name : string) : bool :=
  match name with
  | String a rest =>
      match rest with
      | String b _ => (is_i a && is_d b) || mentions_id rest
      | EmptyString => false
      end
  | EmptyString => false
  end.

Definition pk_rule (name : string) : bool :=
  existsb (String.eqb name) ["CONO"; "SUNO"; "variationNumber"; "timestamp"; "deleted"]
  || mentions_id name.

(** A line of SQL comment. *)
Definition sql_comment (line : string) : string := "-- " ++ line ++ nl.

Definition primary_key_comment (table : string) (candidates : list string) : string :=
  match candidates with
  | [] => EmptyString
  | _ :: _ =>
      nl ++ nl
      ++ sql_comment "Primary key:"
      ++ sql_comment ("ALTER TABLE " ++ table ++ " ADD PRIMARY KEY ("
                      ++ Str.join ", " candidates ++ ");")
  end.

Definition ddl_text (tableName : string) (s : json) (cols : list entry) : string :=
  ddl_statement tableName s cols
  ++ primary_key_comment (resolved_table tableName s) (filter pk_rule (schema_required s)).

Definition line_feed : ascii := ascii_of_nat 10.

(** The lines of a text. *)
Fixpoint lines (text : string) : list string :=
  match text with
  | EmptyString => [EmptyString]
  | String c rest =>
      if Ascii.eqb c line_feed then EmptyString :: lines rest
      else match lines rest with
           | line :: others => String c line :: others
           | [] => [String c EmptyString]
           end
  end.



Definition select_text (p : entry) : string :=
  if String.eqb (sql_type (snd p)) "STRING"
  then "TRIM(" ++ fst p ++ ") AS " ++ fst p
  else fst p.

(** The Silver statement: the dynamic table with its fixed settings, the
    common table expression BRONZE that selects the columns and the row
    number over the Bronze table, and the final selection. *)
Definition silver_query (tableName : string) (s : json) (cols : list entry) : string :=
  let table := resolved_table tableName s in
  "CREATE OR REPLACE DYNAMIC TABLE " ++ table ++ nl
  ++ "TARGET_LAG= DOWNSTREAM" ++ nl
  ++ "WAREHOUSE={{env}}_ANALYTICS_WH" ++ nl
  ++ "REFRESH_MODE = INCREMENTAL" ++ nl
  ++ "INITIALIZE=ON_CREATE" ++ nl
  ++ "AS" ++ nl
  ++ "WITH BRONZE AS (" ++ nl
  ++ "    SELECT "
  ++ Str.join ("," ++ nl ++ "           ")
       (List.map select_text cols
        ++ ["ROW_NUMBER() OVER (PARTITION BY CONO, SUNO ORDER BY VARIATIONNUMBER DESC) AS ROW_NUM"])
  ++ nl
  ++ "    FROM {{env}}_BRONZE." ++ table ++ " b" ++ nl
  ++ ")" ++ nl
  ++ nl
  ++ "SELECT *" ++ nl
  ++ "       EXCLUDE (ACCOUNTINGENTITY, VARIATIONNUMBER, TIMESTAMP, DELETED, ARCHIVED, ROW_NUM)"
  ++ nl
  ++ "FROM BRONZE" ++ nl
  ++ "WHERE ROW_NUM = 1 AND DELETED = FALSE;" ++ nl.

(** ** Order *)

Definition is_Eq (c : comparison) : bool :=
  match c with
  | Eq => true
  | _ => false
  end.

(** [l] is in ascending order for the comparison function [before]. *)
Definition ascending {A : Type} (before : A -> A -> comparison) (l : list A) : Prop :=
  StronglySorted (fun a b => before a b <> Gt) l.

(** [l'] is [l] sorted by [before], elements that compare equal keeping
    their order of [l]. *)
Definition stable_sort {A : Type} (before : A -> A -> comparison) (l l' : list A) : Prop :=
  Permutation l l'
  /\ ascending before l'
  /\ forall a, filter (fun b => is_Eq (before a b)) l' = filter (fun b => is_Eq (before a b)) l.

(** No two elements of [l] compare equal. *)
Definition distinct {A : Type} (before : A -> A -> comparison) (l : list A) : Prop :=
  ForallOrdPairs (fun a b => before a b <> Eq) l.

Definition precedes {A : Type} (a b : A) (l : list A) : Prop :=
  exists l1 l2 l3, l = (l1 ++ a :: l2 ++ b :: l3)%list.

(** The position a descriptor sorts by: its [x-position] when that is a
    non-zero number, 999 otherwise. *)
Definition effective_position (d : json) : number :=
  match JS.field d "x-position" with
  | Some (JNum x) => if Num.truthy x then x else Finite false 999 0
  | _ => Finite false 999 0
  end.


Definition by_effective_position (a b : entry) : comparison :=
  Num.sign_of_difference (effective_position (snd a)) (effective_position (snd b)).

(** The position as the data model words it: the [x-position], and 999
    when there is none. *)
Definition stated_position (d : json) : number :=
  match JS.field d "x-position" with
  | Some (JNum x) => x
  | _ => Finite false 999 0
  end.

Definition by_stated_position (a b : entry) : comparison :=
  Num.sign_of_difference (stated_position (snd a)) (stated_position (snd b)).

(** The column order as the data model words it, for both artifacts. *)
Definition column_order_as_stated (s : json) : Prop :=
  exists cols,
    stable_sort by_stated_position (schema_properties s) cols
    /\ generateDdl EmptyString s = Ok (ddl_text EmptyString s cols)
    /\ generateSilver EmptyString s = Ok (silver_query EmptyString s cols).

(** ** Decimal resolution, in the words of the specification *)

(** The text after the first occurrence of [c]. *)
Fixpoint text_after (c : ascii) (s : string) : option string :=
  match s with
  | EmptyString => None
  | String d rest => if Ascii.eqb d c then Some rest else text_after c rest
  end.

(** The number of digits a text starts with. *)
Fixpoint leading_digits (s : string) : Z :=
  match s with
  | EmptyString => 0
  | String d rest => if Str.is_digit d then 1 + leading_digits rest else 0
  end.

(** The value of the decimal digits of a text, signs left aside. *)
Fixpoint decimal_value (acc : Z) (s : string) : Z :=
  match s with
  | EmptyString => acc
  | String d rest =>
      decimal_value
        (if Str.is_digit d then acc * 10 + (Z.of_N (Str.code d) - 48) else acc) rest
  end.

(** [c] occurs in [s]. *)
Fixpoint occurs (c : ascii) (s : string) : bool :=
  match s with
  | EmptyString => false
  | String d rest => Ascii.eqb d c || occurs c rest
  end.

(** A text made of digits. *)
Definition digit_string (s : string) : Prop := Str.forallb Str.is_digit s = true.

(** A number that is neither infinity. *)
Definition finite (x : option number) : bool :=
  match x with
  | Some (Infinite _) => false
  | _ => true
  end.

Definition number_type_text (precision scale : Z) : string :=
  "NUMBER(" ++ JS.show (Some precision) ++ ", " ++ JS.show (Some scale) ++ ")".

(** *** Bounds given as numbers or as numeric strings *)

(** A bound as the source data gives it. *)
Inductive bound : Type :=
| Number (x : number)
| Numeral (s : string).

Definition bound_json (b : bound) : json :=
  match b with
  | Number x => JNum x
  | Numeral s => JStr s
  end.

(** The decimal string of a bound: what [toString] prints for a number,
    the string itself otherwise. *)
Definition decimal_string (b : bound) : string :=
  match b with
  | Number x => Num.toString x
  | Numeral s => s
  end.

(** A bound that is there for the code: a number other than zero, a
    string other than the empty one. *)
Definition counts (b : bound) : bool :=
  match b with
  | Number x => Num.truthy x
  | Numeral s => negb (String.eqb s EmptyString)
  end.

Definition is_exponent_mark (c : ascii) : bool := Ascii.eqb c "e" || Ascii.eqb c "E".

(** The text after the first exponent mark, in either case. *)
Fixpoint exponent_of (t : string) : option string :=
  match t with
  | EmptyString => None
  | String c rest => if is_exponent_mark c then Some rest else exponent_of rest
  end.

(** The text before it. *)
Fixpoint mantissa_of (t : string) : string :=
  match t with
  | EmptyString => EmptyString
  | String c rest =>
      if is_exponent_mark c then EmptyString else String c (mantissa_of rest)
  end.

(** The decimal string has a fractional part. *)
Definition fraction_in (t : string) : bool := occurs "." t.

(** The decimal string is in plain notation: it has no exponent. *)
Definition plain (t : string) : bool :=
  match exponent_of t with
  | Some _ => false
  | None => true
  end.

(** The count of digits after the decimal point. *)
Definition fraction_digits (t : string) : Z :=
  match text_after "." t with
  | Some fraction => leading_digits fraction
  | None => 0
  end.

(** The digit count of a decimal string; in scientific notation, the
    magnitude of the exponent plus the digit count of the mantissa. *)
Definition digits_in (t : string) : Z :=
  match exponent_of t with
  | Some exponent => decimal_value 0 exponent + Str.count_digits (mantissa_of t)
  | None => Str.count_digits t
  end.

(** The decimal string that supplies the fraction: that of [multipleOf],
    failing that the one of [maximum]. *)
Definition fraction_supplier (multipleOf : option number) (maximum : option bound)
    : option string :=
  let of_maximum :=
    match maximum with
    | Some M => if fraction_in (decimal_string M) then Some (decimal_string M) else None
    | None => None
    end in
  match multipleOf with
  | Some m => if fraction_in (Num.toString m) then Some (Num.toString m) else of_maximum
  | None => of_maximum
  end.

(** The precision: the digit count of [maximum] when it is there, 38
    otherwise, and 38 at most. *)
Definition bound_precision (maximum : option bound) : Z :=
  Z.min (match maximum with
         | Some M => if counts M then digits_in (decimal_string M) else 38
         | None => 38
         end) 38.

(** The precision as the specification words it: the digit count of
    [maximum] when it is present. *)
Definition stated_precision (maximum : option bound) : Z :=
  Z.min (match maximum with
         | Some M => digits_in (decimal_string M)
         | None => 38
         end) 38.

Definition stated_number_type (multipleOf : option number) (maximum : option bound)
    : string :=
  match fraction_supplier multipleOf maximum with
  | Some t => number_type_text (stated_precision maximum) (fraction_digits t)
  | None => "NUMBER"
  end.

(** A descriptor of type number with the given bounds. *)
Definition number_descriptor (multipleOf maximum : option number) : json :=
  JObj
    ([("type", JStr "number")]
     ++ match multipleOf with
        | Some m => [("multipleOf", JNum m)]
        | None => []
        end
     ++ match maximum with
        | Some M => [("maximum", JNum M)]
        | None => []
        end)%list.

(** The parts of a decimal string: sign, integer digits, fraction digits
    and exponent (its sign and digits). *)
Definition numeral (negative : bool) (int : string) (frac : option string)
    (exp : option (bool * string)) : string :=
  Num.sign negative ++ int
  ++ match frac with
     | Some f => "." ++ f
     | None => EmptyString
     end
  ++ match exp with
     | Some (minus, ds) => "e" ++ (if minus : bool then "-" else "+") ++ ds
     | None => EmptyString
     end.

(** The shape of a numeric string: a minus sign or none, digits, a point
    and digits or none, and an exponent or none, made of a mark in either
    case, a sign or none, and digits. *)
Definition numeric_text (negative : bool) (int : string) (frac : option string)
    (exp : option (ascii * string * string)) : string :=
  Num.sign negative ++ int
  ++ match frac with
     | Some f => "." ++ f
     | None => EmptyString
     end
  ++ match exp with
     | Some (mark, sign, ds) => String mark (sign ++ ds)
     | None => EmptyString
     end.

Definition numeric_string (s : string) : Prop :=
  exists negative int frac exp,
    s = numeric_text negative int frac exp
    /\ digit_string int
    /\ (forall f, frac = Some f -> digit_string f)
    /\ (forall mark sign ds,
          exp = Some (mark, sign, ds) ->
          is_exponent_mark mark = true
          /\ In sign [EmptyString; "+"; "-"]
          /\ digit_string ds /\ ds <> EmptyString).

(** A bound of the data model: a finite number, or a numeric string. *)
Definition numeric (b : bound) : Prop :=
  match b with
  | Number x => finite (Some x) = true
  | Numeral s => numeric_string s
  end.

(** ** Positions beyond the data model *)

(** [x-position || 999] as a number, beyond the data model: a non-zero
    number is itself, [true] is 1, a string of one to fifteen digits is the
    integer it denotes, and what counts as none (absent, null, false, zero,
    the empty string) is 999. *)
Definition position_key (d : json) : number :=
  match JS.field d "x-position" with
  | Some (JNum x) => if Num.truthy x then x else Finite false 999 0
  | Some (JBool true) => Finite false 1 0
  | Some (JStr (String c rest)) =>
      Num.of_Z (decimal_value 0 (String c rest))
  | _ => Finite false 999 0
  end.

Definition by_position_key (a b : entry) : comparison :=
  Num.sign_of_difference (position_key (snd a)) (position_key (snd b)).

(** The descriptors [position_key] speaks of: any value but [null], whose
    [x-position], if it is a string, has at most fifteen characters, all
    digits, and is no array and no object. *)
Definition keyed (d : json) : bool :=
  match d with
  | JNull => false
  | _ =>
      match JS.field d "x-position" with
      | Some (JStr s) => Str.forallb Str.is_digit s && (Str.length s <=? 15)
      | Some (JArr _) => false
      | Some (JObj _) => false
      | _ => true
      end
  end.

(** ** Example documents *)

Definition integer (z : Z) : json := JNum (Num.of_Z z).

(** The schema of [loadExample] (App.js, lines 171-184), as [JSON.parse]
    reads it: the largest [maximum] is the double nearest to 2^63 - 1. *)
Definition supplier_schema : json :=
  JObj
    [("$schema", JStr "http://json-schema.org/draft-06/schema#");
     ("title", JStr "Supplier");
     ("description", JStr "Supplier master data");
     ("type", JStr "object");
     ("properties",
      JObj
        [("CONO", JObj [("title", JStr "company"); ("description", JStr "company");
                        ("type", JStr "integer"); ("maximum", integer 999);
                        ("x-position", integer 1)]);
         ("SUNO", JObj [("title", JStr "supplier"); ("description", JStr "supplier");
                        ("type", JStr "string"); ("maxLength", integer 10);
                        ("x-position", integer 2)]);
         ("SUNM", JObj [("title", JStr "supplier name");
                        ("description", JStr "supplier name");
                        ("type", JStr "string"); ("maxLength", integer 36);
                        ("x-position", integer 3)]);
         ("variationNumber",
          JObj [("description", JStr "record modification sequence");
                ("type", JStr "integer");
                ("maximum", integer 9223372036854776000);
                ("x-position", integer 4)]);
         ("timestamp",
          JObj [("description", JStr "record modification time");
                ("type", JStr "string"); ("format", JStr "date-time");
                ("x-position", integer 5)]);
         ("deleted",
          JObj [("description", JStr "is record deleted");
                ("type", JStr "boolean"); ("x-position", integer 6)])]);
     ("required",
      JArr [JStr "CONO"; JStr "SUNO"; JStr "variationNumber"; JStr "timestamp";
            JStr "deleted"])].

(** What [convertToSnowflake] writes for it: the statement, which ends
    with the table comment, and the commented suggestion. *)
Definition supplier_statement : string :=
"-- Table: SUPPLIER
-- Description: Supplier master data
CREATE OR ALTER TABLE SUPPLIER (
    CONO INTEGER NOT NULL COMMENT 'company',
    SUNO STRING NOT NULL COMMENT 'supplier',
    SUNM STRING COMMENT 'supplier name',
    variationNumber INTEGER NOT NULL COMMENT 'record modification sequence',
    timestamp DATETIME NOT NULL COMMENT 'record modification time',
    deleted BOOLEAN NOT NULL COMMENT 'is record deleted'
)
CHANGE_TRACKING = TRUE
COMMENT = 'Supplier master data'".

Definition supplier_suggestion : string :=
"

-- Primary key:
-- ALTER TABLE SUPPLIER ADD PRIMARY KEY (CONO, SUNO, variationNumber, timestamp, deleted);
".

Definition column (name : string) (fields : list (string * json)) : entry :=
  (name, JObj fields).

Definition schema_of (props : list entry) : json := JObj [("properties", JObj props)].

(** Two columns, the first one at position 0. *)
Definition zero_first : list entry :=
  [column "SUNO" [("type", JStr "string"); ("x-position", integer 0)];
   column "CONO" [("type", JStr "integer"); ("x-position", integer 1)]].

(** Two columns with no position, in the two orders. *)
Definition unpositioned : list entry :=
  [column "SUNO" [("type", JStr "string")];
   column "CONO" [("type", JStr "integer")]].

Definition unpositioned_swapped : list entry :=
  [column "CONO" [("type", JStr "integer")];
   column "SUNO" [("type", JStr "string")]].

(** A column at position 1000 and one at position 0. *)
Definition late_column : entry :=
  column "NOTE" [("type", JStr "string"); ("x-position", integer 1000)].

Definition zero_column : entry :=
  column "CONO" [("type", JStr "integer"); ("x-position", integer 0)].

(** Columns whose position is one of the values that count as none (null,
    false, the empty string, zero), between a column at 5 and one at 1000. *)
Definition falsy_positions : list entry :=
  [column "LATE" [("type", JStr "string"); ("x-position", integer 1000)];
   column "NONE" [("type", JStr "string"); ("x-position", JNull)];
   column "OFF" [("type", JStr "string"); ("x-position", JBool false)];
   column "BLANK" [("type", JStr "string"); ("x-position", JStr EmptyString)];
   column "ZERO" [("type", JStr "string"); ("x-position", integer 0)];
   column "FIVE" [("type", JStr "string"); ("x-position", integer 5)]].

(** Columns positioned by strings of digits and by a number. *)
Definition string_positions : list entry :=
  [column "a" [("x-position", JStr "2")];
   column "b" [("x-position", integer 1)];
   column "c" [("x-position", JStr "10")]].

(** The supplier schema with its properties written in the opposite order. *)
Definition supplier_reversed : json :=
  JObj
    [("title", JStr "Supplier");
     ("description", JStr "Supplier master data");
     ("required",
      JArr [JStr "CONO"; JStr "SUNO"; JStr "variationNumber"; JStr "timestamp";
            JStr "deleted"]);
     ("properties", JObj (rev (schema_properties supplier_schema)))].




(** [JSON.parse] on the three texts of the examples: an empty object, the
    literal [null], and an object that is not closed (the message is the
    one of V8). *)
Definition example_parse (input : string) : result json :=
  if String.eqb input "{}" then Ok (JObj [])
  else if String.eqb input "null" then Ok JNull
  else Throw (SyntaxError "Unexpected end of JSON input").

Definition example_state (input : string) : State :=
  mkState input "-- a statement generated earlier" EmptyString EmptyString EmptyString.

(** ** The other handlers and the conditions of the page (App.js, lines 159-188 and 211-288) *)

Definition setTableName (s : string) : action unit :=
  fun st => (Ok tt, mkState (jsonInput st) (sqlOutput st) s (error st) (silverSql st)).

Definition setJsonInput (s : string) : action unit :=
  fun st => (Ok tt, mkState s (sqlOutput st) (tableName st) (error st) (silverSql st)).

(** The text of [loadExample] (App.js, lines 171-185). *)
Definition double_quote : string := String (ascii_of_nat 34) EmptyString.

Definition quoted (s : string) : string := double_quote ++ s ++ double_quote.

Definition member (key value : string) : string := quoted key ++ ": " ++ value.

Definition object_line (members : list string) : string :=
  "{ " ++ Str.join ", " members ++ " }".

Definition loadExample_text : string :=
  Str.join nl
    ["{";
     "  " ++ member "$schema" (quoted "http://json-schema.org/draft-06/schema#") ++ ",";
     "  " ++ member "title" (quoted "Supplier") ++ ",";
     "  " ++ member "description" (quoted "Supplier master data") ++ ",";
     "  " ++ member "type" (quoted "object") ++ ",";
     "  " ++ quoted "properties" ++ ": {";
     "    " ++ member "CONO"
                 (object_line [member "title" (quoted "company");
                               member "description" (quoted "company");
                               member "type" (quoted "integer");
                               member "maximum" "999";
                               member "x-position" "1"]) ++ ",";
     "    " ++ member "SUNO"
                 (object_line [member "title" (quoted "supplier");
                               member "description" (quoted "supplier");
                               member "type" (quoted "string");
                               member "maxLength" "10";
                               member "x-position" "2"]) ++ ",";
     "    " ++ member "SUNM"
                 (object_line [member "title" (quoted "supplier name");
                               member "description" (quoted "supplier name");
                               member "type" (quoted "string");
                               member "maxLength" "36";
                               member "x-position" "3"]) ++ ",";
     "    " ++ member "variationNumber"
                 (object_line [member "description" (quoted "record modification sequence");
                               member "type" (quoted "integer");
                               member "maximum" "9223372036854775807";
                               member "x-position" "4"]) ++ ",";
     "    " ++ member "timestamp"
                 (object_line [member "description" (quoted "record modification time");
                               member "type" (quoted "string");
                               member "format" (quoted "date-time");
                               member "x-position" "5"]) ++ ",";
     "    " ++ member "deleted"
                 (object_line [member "description" (quoted "is record deleted");
                               member "type" (quoted "boolean");
                               member "x-position" "6"]);
     "  },";
     "  " ++ member "required"
               ("[" ++ Str.join ", "
                         (List.map quoted
                            ["CONO"; "SUNO"; "variationNumber"; "timestamp"; "deleted"])
                ++ "]");
     "}"].

(** [loadExample] (App.js, lines 170-188) *)
Definition loadExample : action unit :=
  (setJsonInput loadExample_text ;;; setTableName EmptyString)%action.

(** [JSON.parse] on the text of [loadExample], and on the texts of
    [example_parse]. *)
Definition loadExample_parse (input : string) : result json :=
  if String.eqb input loadExample_text then Ok supplier_schema
  else example_parse input.

(** The Silver query of that example. *)
Definition supplier_silver : string :=
"CREATE OR REPLACE DYNAMIC TABLE SUPPLIER
TARGET_LAG= DOWNSTREAM
WAREHOUSE={{env}}_ANALYTICS_WH
REFRESH_MODE = INCREMENTAL
INITIALIZE=ON_CREATE
AS
WITH BRONZE AS (
    SELECT CONO,
           TRIM(SUNO) AS SUNO,
           TRIM(SUNM) AS SUNM,
           variationNumber,
           timestamp,
           deleted,
           ROW_NUMBER() OVER (PARTITION BY CONO, SUNO ORDER BY VARIATIONNUMBER DESC) AS ROW_NUM
    FROM {{env}}_BRONZE.SUPPLIER b
)

SELECT *
       EXCLUDE (ACCOUNTINGENTITY, VARIATIONNUMBER, TIMESTAMP, DELETED, ARCHIVED, ROW_NUM)
FROM BRONZE
WHERE ROW_NUM = 1 AND DELETED = FALSE;
".

(** [onChange={(e) => setTableName(e.target.value.toUpperCase())}] *)
Definition onTableNameChange (typed : string) : action unit :=
  setTableName (Str.toUpperCase typed).

(** [onChange={(e) => setJsonInput(e.target.value)}] *)
Definition onJsonInputChange (typed : string) : action unit := setJsonInput typed.

(** The file that [downloadSQL] hands to the browser. *)
Record Download : Type := mkDownload {
  content : string;
  content_type : string;
  download : string
}.

Definition downloadSQL (st : State) : Download :=
  mkDownload (sqlOutput st) "text/plain"
    ((if negb (String.eqb (tableName st) EmptyString) then tableName st else "schema")
     ++ ".sql").

(** [{error && ...}]: the error box is on the page. *)
Definition shows_error (st : State) : bool := negb (String.eqb (error st) EmptyString).

(** [{sqlOutput && ...}]: the Download, Copy and Generate Silver buttons
    are on the page. *)
Definition offers_download (st : State) : bool :=
  negb (String.eqb (sqlOutput st) EmptyString).

(** [{silverSql && ...}]: the Silver panel is on the page. *)
Definition shows_silver (st : State) : bool :=
  negb (String.eqb (silverSql st) EmptyString).

Definition is_lower (c : ascii) : bool :=
  ((97 <=? Str.code c) && (Str.code c <=? 122))%N.

(** A character that a table name derived from a title can hold: neither
    white space nor a lower-case letter. *)
Definition table_character (c : ascii) : bool :=
  negb (Str.is_space c) && negb (is_lower c).

(** * The version before App.js (src/unnamed/part_000, lines 320-456) *)

Module Previous.

(** [const decimalPart = s.split('.')[1]; scale = decimalPart ? decimalPart.length : 0;] *)
Definition decimal_length (s : string) : Z :=
  match nth_error (Str.split "." s) 1 with
  | Some decimalPart =>
      if negb (String.eqb decimalPart EmptyString) then Str.length decimalPart else 0
  | None => 0
  end.

(** The block for [type === 'number'] (lines 344-384). *)
Definition number_type (maximum multipleOf : value) : result string :=
  '(hasDecimals, scale) <-
    match multipleOf with
    | Some m =>
        if JS.truthy multipleOf then
          s <- JS.toString "multipleOf" m ;;
          if Str.includes "." s then Ok (true, decimal_length s)
          else Ok (false, 0)
        else Ok (false, 0)
    | None => Ok (false, 0)
    end ;;
  '(hasDecimals, scale) <-
    match maximum with
    | Some m =>
        if negb hasDecimals && JS.truthy maximum then
          s <- JS.toString "maximum" m ;;
          if Str.includes "." s then Ok (true, decimal_length s)
          else Ok (hasDecimals, scale)
        else Ok (hasDecimals, scale)
    | None => Ok (hasDecimals, scale)
    end ;;
  if hasDecimals : bool then
    precision <-
      match maximum with
      | Some m =>
          if JS.truthy maximum then
            s <- JS.toString "maximum" m ;;
            let maxStr := Str.replace "E" "e" s in
            if Str.includes "e" maxStr then
              let pieces := Str.split "e" maxStr in
              let mantissa := nth 0 pieces EmptyString in
              let exponent := nth 1 pieces EmptyString in
              Ok (option_map (fun exp => Z.abs exp + bare_length mantissa)
                             (JS.parseInt exponent))
            else Ok (Some (bare_length maxStr))
          else Ok (Some 38)
      | None => Ok (Some 38)
      end ;;
    let precision := option_map (fun p => Z.min p 38) precision in
    Ok ("NUMBER(" ++ JS.show precision ++ ", " ++ JS.show (Some scale) ++ ")")
  else Ok "NUMBER".

(** [mapM3TypeToSnowflake(property, propName)] (lines 320-399); [propName]
    and [maxLength] are not used. *)
Definition mapM3TypeToSnowflake (property : json) (propName : string) : result string :=
  _ <- match property with
       | JNull =>
           Throw (TypeError
             "Cannot destructure property 'type' of 'property' as it is null.")
       | _ => Ok tt
       end ;;
  let type := JS.field property "type" in
  let format := JS.field property "format" in
  let maximum := JS.field property "maximum" in
  let multipleOf := JS.field property "multipleOf" in
  let dateTimeFormat := JS.field property "x-dateTimeFormat" in
  if JS.is_string format "date-time" then Ok "DATETIME"
  else if JS.is_string dateTimeFormat "epoch-millis" then Ok "NUMBER"
  else if JS.is_string type "boolean" then Ok "BOOLEAN"
  else if JS.is_string type "integer" then Ok "INTEGER"
  else if JS.is_string type "number" then number_type maximum multipleOf
  else if JS.is_string type "string" then Ok "STRING"
  else if JS.is_string type "object" then Ok "STRING"
  else Ok "STRING".

(** The body of the loop over [sortedProps] (lines 425-432). *)
Definition column_line (required : json) (prop : entry) : result string :=
  let '(propName, propDef) := prop in
  snowflakeType <- mapM3TypeToSnowflake propDef propName ;;
  isRequired <- required_includes required propName ;;
  let notNull := if isRequired : bool then " NOT NULL" else EmptyString in
  description <- JS.get propDef "description" ;;
  comment <- match description with
             | Some d =>
                 if JS.truthy description then
                   text <- JS.ToString d ;;
                   Ok (" COMMENT '" ++ text ++ "'")
                 else Ok EmptyString
             | None => Ok EmptyString
             end ;;
  Ok ("    " ++ propName ++ " " ++ snowflakeType ++ notNull ++ comment).

(** The statements between [JSON.parse] and [setSqlOutput] (lines
    407-454).  The table name, the sort and the filter of the required
    names are the expressions of App.js. *)
Definition generateDdl (tableName : string) (schema : json) : result string :=
  table <- table_name tableName schema ;;
  properties <- JS.get schema "properties" ;;
  let properties := or_else properties (JObj []) in
  required <- JS.get schema "required" ;;
  let required := or_else required (JArr []) in
  description <- JS.get schema "description" ;;
  let sql := "-- Table: " ++ table ++ nl in
  shown <- match description with
           | Some d => if JS.truthy description then JS.ToString d
                       else Ok "No description"
           | None => Ok "No description"
           end ;;
  let sql := sql ++ "-- Description: " ++ shown ++ nl in
  let sql := sql ++ "CREATE OR REPLACE TABLE " ++ table ++ " (" ++ nl in
  sortedProps <- sortedProps properties ;;
  columns <- for_each (column_line required) sortedProps ;;
  let sql := sql ++ Str.join ("," ++ nl) columns in
  let sql := sql ++ nl ++ ")" in
  sql <- match description with
         | Some d =>
             if JS.truthy description then
               text <- JS.ToString d ;;
               Ok (sql ++ (nl ++ "COMMENT = '" ++ text ++ "'"))
             else Ok sql
         | None => Ok sql
         end ;;
  let sql := sql ++ ";" ++ nl in
  pkCandidates <- pk_candidates required ;;
  match pkCandidates with
  | [] => Ok sql
  | _ :: _ =>
      names <- JS.Array_join ", " pkCandidates ;;
      Ok (sql ++ (nl ++ "-- Suggested primary key (review and adjust as needed):" ++ nl)
              ++ ("-- ALTER TABLE " ++ table ++ " ADD PRIMARY KEY (" ++ names ++ ");" ++ nl))
  end.

(** [convertToSnowflake] (lines 401-459) *)
Definition convertToSnowflake (JSON_parse : string -> result json) : action unit :=
  fun st =>
    try_catch
      (setError EmptyString ;;;
       schema <-- lift (JSON_parse (jsonInput st)) ;;
       sql <-- lift (generateDdl (tableName st) schema) ;;
       setSqlOutput sql)%action
      (fun err =>
         setError ("Error parsing JSON: " ++ message err) ;;;
         setSqlOutput EmptyString)%action
      st.

(** The text of that version, from an ordered list of columns. *)
Definition ddl_statement (tableName : string) (s : json) (cols : list entry) : string :=
  let table := resolved_table tableName s in
  let description := schema_description s in
  ((("-- Table: " ++ table ++ nl)
    ++ "-- Description: "
    ++ (if String.eqb description EmptyString then "No description" else description)
    ++ nl)
   ++ "CREATE OR REPLACE TABLE " ++ table ++ " (" ++ nl)
  ++ Str.join ("," ++ nl) (List.map (column_text (schema_required s)) cols)
  ++ (nl ++ ")")
  ++ (if String.eqb description EmptyString then EmptyString
      else nl ++ "COMMENT = '" ++ description ++ "'")
  ++ (";" ++ nl).

Definition primary_key_comment (table : string) (candidates : list string) : string :=
  match candidates with
  | [] => EmptyString
  | _ :: _ =>
      nl
      ++ sql_comment "Suggested primary key (review and adjust as needed):"
      ++ sql_comment ("ALTER TABLE " ++ table ++ " ADD PRIMARY KEY ("
                      ++ Str.join ", " candidates ++ ");")
  end.

Definition ddl_text (tableName : string) (s : json) (cols : list entry) : string :=
  ddl_statement tableName s cols
  ++ primary_key_comment (resolved_table tableName s) (filter pk_rule (schema_required s)).

End Previous.

(** What that version writes for the schema of [loadExample]. *)
Definition previous_supplier_ddl : string :=
"-- Table: SUPPLIER
-- Description: Supplier master data
CREATE OR REPLACE TABLE SUPPLIER (
    CONO INTEGER NOT NULL COMMENT 'company',
    SUNO STRING NOT NULL COMMENT 'supplier',
    SUNM STRING COMMENT 'supplier name',
    variationNumber INTEGER NOT NULL COMMENT 'record modification sequence',
    timestamp DATETIME NOT NULL COMMENT 'record modification time',
    deleted BOOLEAN NOT NULL COMMENT 'is record deleted'
)
COMMENT = 'Supplier master data';

-- Suggested primary key (review and adjust as needed):
-- ALTER TABLE SUPPLIER ADD PRIMARY KEY (CONO, SUNO, variationNumber, timestamp, deleted);
".

(** How an evaluation ends, without the value. *)
Definition outcome {A : Type} (r : result A) : result unit :=
  match r with
  | Ok _ => Ok tt
  | Throw err => Throw err
  | Unmodelled => Unmodelled
  end.

(** * The first version (src/unnamed/part_000, lines 11-73) *)

Module First.

(** [v?.toLowerCase() || ''], for the expression printed as [shown] *)
Definition lower_or_empty (shown : string) (v : value) : result string :=
  match v with
  | None => Ok EmptyString
  | Some JNull => Ok EmptyString
  | Some (JStr s) => Ok (Str.toLowerCase s)
  | Some _ => Throw (TypeError (shown ++ "?.toLowerCase is not a function"))
  end.

(** [maximum <= 99999999]: both branches of the test return the same type,
    so that only the conversion of an object or an array to a primitive,
    which can throw, is left of it. *)
Definition compared (maximum : json) : result unit :=
  match maximum with
  | JArr _ => _ <- JS.ToString maximum ;; Ok tt
  | JObj _ => _ <- JS.ToString maximum ;; Ok tt
  | _ => Ok tt
  end.

(** [mapM3TypeToSnowflake(property, propName)]; [propName], [minimum] and
    [maxLength] are not used. *)
Definition mapM3TypeToSnowflake (property : json) (propName : string) : result string :=
  (* const { type, format, maximum, minimum, maxLength, title } = property; *)
  _ <- match property with
       | JNull =>
           Throw (TypeError
             "Cannot destructure property 'type' of 'property' as it is null.")
       | _ => Ok tt
       end ;;
  let type := JS.field property "type" in
  let format := JS.field property "format" in
  let maximum := JS.field property "maximum" in
  let title := JS.field property "title" in
  description <- lower_or_empty "property.description" (JS.field property "description") ;;
  titleLower <- lower_or_empty "title" title ;;
  if JS.is_string format "date-time"
     || Str.includes "datetime" titleLower || Str.includes "datetime" description
  then Ok "DATETIME"
  else if Str.includes "date" titleLower || Str.includes "date" description then
    match maximum with
    | Some m =>
        if JS.is_string type "integer" && JS.truthy maximum
        then _ <- compared m ;; Ok "DATE"
        else Ok "DATE"
    | None => Ok "DATE"
    end
  else if Str.includes "time" titleLower || Str.includes "time" description then
    if JS.is_string (JS.field property "x-dateTimeFormat") "epoch-millis" then Ok "NUMBER"
    else if JS.is_string type "integer" then Ok "TIME"
    else Ok "STRING"
  else if JS.is_string (JS.field property "x-dateTimeFormat") "epoch-millis" then Ok "NUMBER"
  else if JS.is_string type "boolean" then Ok "BOOLEAN"
  else if JS.is_string type "integer" then Ok "NUMBER"
  else if JS.is_string type "number" then Ok "NUMBER"
  else if JS.is_string type "string" then Ok "STRING"
  else if JS.is_string type "object" then Ok "STRING"
  else Ok "STRING".

End First.

(** A descriptor of the first version's kind, for the examples. *)
Definition order_date : json :=
  JObj [("title", JStr "Order date"); ("type", JStr "integer");
        ("maximum", integer 99999999)].

(** * Properties of the run-time model *)

(** ** Sorting with a consistent comparison function *)

Lemma Permutation_filter {A : Type} (p : A -> bool) (l l' : list A) :
  Permutation l l' -> Permutation (filter p l) (filter p l').
Proof.
  induction 1 as [| x l l' _ IH | x y l | l l' l'' _ IH1 _ IH2]; simpl.
  - constructor.
  - destruct (p x); [constructor |]; exact IH.
  - destruct (p x), (p y); try apply Permutation_refl.
    apply perm_swap.
  - eapply Permutation_trans; eassumption.
Qed.

Lemma filter_none {A : Type} (p : A -> bool) (l : list A) :
  (forall x, In x l -> p x = false) -> filter p l = [].
Proof.
  induction l as [| x l IH]; intros H; [reflexivity |].
  simpl. rewrite (H x (or_introl eq_refl)). apply IH.
  intros y Hy. apply H. right. exact Hy.
Qed.

Lemma StronglySorted_tail {A : Type} (R : A -> A -> Prop) (l1 l2 : list A) :
  StronglySorted R (l1 ++ l2) -> StronglySorted R l2.
Proof.
  induction l1 as [| x l1 IH]; simpl; intros H; [exact H |].
  inversion H; subst. apply IH. assumption.
Qed.

Section SortTheory.

Context {A : Type}.
Variable before : A -> A -> comparison.
Hypothesis before_antisym : forall a b, before b a = CompOpp (before a b).
Hypothesis before_trans :
  forall a b c, before a b <> Gt -> before b c <> Gt -> before a c <> Gt.

Lemma before_refl (a : A) : before a a = Eq.
Proof.
  generalize (before_antisym a a). destruct (before a a); simpl; congruence.
Qed.

Lemma not_Lt_flip (a b : A) : before a b <> Lt -> before b a <> Gt.
Proof.
  rewrite (before_antisym a b). destruct (before a b); simpl; congruence.
Qed.

Lemma Eq_flip (a b : A) : before a b = Eq -> before b a = Eq.
Proof.
  intros H. rewrite (before_antisym a b), H. reflexivity.
Qed.

Lemma both_ways_Eq (a b : A) : before a b <> Gt -> before b a <> Gt -> before a b = Eq.
Proof.
  rewrite (before_antisym a b). destruct (before a b); simpl; congruence.
Qed.

(** Elements equal to a third one are equal to each other. *)
Lemma Eq_Eq (a x y : A) : before a x = Eq -> before a y = Eq -> before x y = Eq.
Proof.
  intros Hx Hy. apply both_ways_Eq.
  - apply before_trans with a; [rewrite (Eq_flip _ _ Hx) | rewrite Hy]; discriminate.
  - apply before_trans with a; [rewrite (Eq_flip _ _ Hy) | rewrite Hx]; discriminate.
Qed.

Lemma insert_permutation (x : A) (l : list A) :
  Permutation (x :: l) (insert before x l).
Proof.
  induction l as [| y l IH]; simpl.
  - apply Permutation_refl.
  - destruct (before y x); try apply Permutation_refl.
    eapply Permutation_trans; [apply perm_swap |].
    apply perm_skip, IH.
Qed.

Lemma Array_sort_permutation (l : list A) : Permutation l (Array_sort before l).
Proof.
  induction l as [| x l IH]; simpl.
  - constructor.
  - eapply Permutation_trans; [apply perm_skip, IH | apply insert_permutation].
Qed.

Lemma insert_ascending (x : A) (l : list A) :
  ascending before l -> ascending before (insert before x l).
Proof.
  unfold ascending. induction 1 as [| y l Hl IH Hy]; simpl.
  - repeat constructor.
  - destruct (before y x) eqn:E.
    + constructor; [constructor; assumption |].
      constructor.
      * rewrite (before_antisym y x), E. discriminate.
      * apply Forall_forall. intros z Hz. rewrite Forall_forall in Hy.
        apply before_trans with y; [| auto].
        rewrite (before_antisym y x), E. discriminate.
    + constructor; [exact IH |].
      eapply Permutation_Forall; [apply insert_permutation |].
      constructor; [rewrite E; discriminate | exact Hy].
    + constructor; [constructor; assumption |].
      constructor.
      * rewrite (before_antisym y x), E. discriminate.
      * apply Forall_forall. intros z Hz. rewrite Forall_forall in Hy.
        apply before_trans with y; [| auto].
        rewrite (before_antisym y x), E. discriminate.
Qed.

Lemma Array_sort_ascending (l : list A) : ascending before (Array_sort before l).
Proof.
  induction l as [| x l IH]; simpl.
  - constructor.
  - apply insert_ascending, IH.
Qed.

(** Insertion never moves an element past one that compares equal. *)
Lemma filter_insert (a x : A) (l : list A) :
  filter (fun b => is_Eq (before a b)) (insert before x l)
  = filter (fun b => is_Eq (before a b)) (x :: l).
Proof.
  induction l as [| y l IH]; [reflexivity |].
  simpl insert. destruct (before y x) eqn:E; try reflexivity.
  simpl in *. rewrite IH.
  destruct (before a x) eqn:Ex, (before a y) eqn:Ey; simpl; try reflexivity.
  rewrite (Eq_Eq a y x Ey Ex) in E. discriminate.
Qed.

Lemma Array_sort_stable (a : A) (l : list A) :
  filter (fun b => is_Eq (before a b)) (Array_sort before l)
  = filter (fun b => is_Eq (before a b)) l.
Proof.
  induction l as [| x l IH]; [reflexivity |].
  simpl Array_sort. rewrite filter_insert. simpl. rewrite IH. reflexivity.
Qed.

Lemma Array_sort_stable_sort (l : list A) : stable_sort before l (Array_sort before l).
Proof.
  split; [apply Array_sort_permutation |].
  split; [apply Array_sort_ascending |].
  intros a. apply Array_sort_stable.
Qed.

(** Sorting a list that is in order changes nothing. *)
Lemma Array_sort_fixed (l : list A) : ascending before l -> Array_sort before l = l.
Proof.
  unfold ascending. induction 1 as [| x l Hl IH Hx]; [reflexivity |].
  simpl. rewrite IH. destruct l as [| y l]; [reflexivity |].
  simpl. inversion Hx as [| ? ? Hxy _]; subst.
  rewrite (before_antisym x y). destruct (before x y); simpl; congruence.
Qed.

Lemma Array_sort_idempotent (l : list A) :
  Array_sort before (Array_sort before l) = Array_sort before l.
Proof. apply Array_sort_fixed, Array_sort_ascending. Qed.

(** The stable sort of a list is unique: two ascending lists that hold
    the same elements in each class, in the same order, are equal. *)
Lemma ascending_unique (l1 l2 : list A) :
  ascending before l1 -> ascending before l2 ->
  (forall a, filter (fun b => is_Eq (before a b)) l1
             = filter (fun b => is_Eq (before a b)) l2) ->
  l1 = l2.
Proof.
  unfold ascending. intros H1. revert l2.
  induction H1 as [| x r1 Hr1 IH Hx]; intros l2 H2 Hf.
  - destruct l2 as [| y r2]; [reflexivity |].
    specialize (Hf y). simpl in Hf. rewrite before_refl in Hf. discriminate.
  - destruct H2 as [| y r2 Hr2 Hy].
    + specialize (Hf x). simpl in Hf. rewrite before_refl in Hf. discriminate.
    + assert (Hxy : before x y = Eq).
      { destruct (is_Eq (before x y)) eqn:E.
        - destruct (before x y); try discriminate. reflexivity.
        - exfalso.
          assert (Hin2 : In x (y :: r2)).
          { eapply (proj1 (filter_In (fun b => is_Eq (before x b)) x (y :: r2))).
            rewrite <- Hf. simpl. rewrite before_refl. left. reflexivity. }
          assert (Hin1 : In y (x :: r1)).
          { eapply (proj1 (filter_In (fun b => is_Eq (before y b)) y (x :: r1))).
            rewrite Hf. simpl. rewrite before_refl. left. reflexivity. }
          destruct Hin2 as [-> | Hin2]; [rewrite before_refl in E; discriminate |].
          destruct Hin1 as [-> | Hin1]; [rewrite before_refl in E; discriminate |].
          rewrite Forall_forall in Hx, Hy.
          rewrite (both_ways_Eq x y (Hx _ Hin1) (Hy _ Hin2)) in E. discriminate. }
      assert (x = y).
      { generalize (Hf x). simpl. rewrite before_refl, Hxy. simpl. congruence. }
      subst y. f_equal. apply IH; [exact Hr2 |].
      intros a. generalize (Hf a). simpl.
      destruct (is_Eq (before a x)); congruence.
Qed.

Lemma stable_sort_unique (l l' : list A) :
  stable_sort before l l' -> l' = Array_sort before l.
Proof.
  intros (_ & Hasc & Hst). apply ascending_unique.
  - exact Hasc.
  - apply Array_sort_ascending.
  - intros a. rewrite Hst, Array_sort_stable. reflexivity.
Qed.

(** When no two elements compare equal, the order of the input does not
    matter. *)
Lemma distinct_filter (a : A) (l : list A) :
  distinct before l ->
  (length (filter (fun b => is_Eq (before a b)) l) <= 1)%nat.
Proof.
  unfold distinct. induction 1 as [| x l Hx Hl IH]; simpl; [lia |].
  destruct (before a x) eqn:Ex; simpl; try exact IH.
  replace (filter (fun b => is_Eq (before a b)) l) with (@nil A); [simpl; lia |].
  symmetry. apply filter_none.
  intros y Hy. rewrite Forall_forall in Hx.
  destruct (before a y) eqn:Ey; try reflexivity.
  elim (Hx y Hy). apply (Eq_Eq a x y Ex Ey).
Qed.

Lemma Array_sort_permuted (l1 l2 : list A) :
  Permutation l1 l2 -> distinct before l1 ->
  Array_sort before l1 = Array_sort before l2.
Proof.
  intros Hp Hd. apply ascending_unique; try apply Array_sort_ascending.
  intros a. rewrite !Array_sort_stable.
  pose proof (distinct_filter a l1 Hd) as Hlen.
  pose proof (Permutation_filter (fun b => is_Eq (before a b)) l1 l2 Hp) as Hpf.
  destruct (filter (fun b => is_Eq (before a b)) l1) as [| x [| y r]].
  - apply Permutation_nil in Hpf. congruence.
  - apply Permutation_length_1_inv in Hpf. congruence.
  - simpl in Hlen. lia.
Qed.

(** In an ascending list, a strictly smaller element comes first. *)
Lemma ascending_precedes (a b : A) (l : list A) :
  ascending before l -> In a l -> In b l -> before a b = Lt -> precedes a b l.
Proof.
  unfold ascending. intros Hasc Ha Hb Hlt.
  apply in_split in Ha. destruct Ha as (l1 & r & ->).
  apply in_app_or in Hb. destruct Hb as [Hb | [-> | Hb]].
  - exfalso. apply in_split in Hb. destruct Hb as (l1a & l1b & ->).
    rewrite <- app_assoc in Hasc. simpl in Hasc.
    apply StronglySorted_tail in Hasc.
    inversion Hasc as [| ? ? _ Hall]; subst.
    rewrite Forall_forall in Hall.
    assert (Hba : before b a <> Gt) by (apply Hall, in_or_app; right; left; reflexivity).
    rewrite (before_antisym a b), Hlt in Hba. simpl in Hba. congruence.
  - rewrite before_refl in Hlt. discriminate.
  - apply in_split in Hb. destruct Hb as (l2 & l3 & ->).
    exists l1, l2, l3. reflexivity.
Qed.

End SortTheory.


(** ** The order of positions *)

Lemma sign_of_difference_antisym (x y : number) :
  Num.sign_of_difference y x = CompOpp (Num.sign_of_difference x y).
Proof.
  unfold Num.sign_of_difference.
  rewrite (Z.compare_antisym (Num.class x) (Num.class y)).
  destruct (Num.class x ?= Num.class y); simpl; try reflexivity.
  symmetry. apply Qcompare_antisym.
Qed.

Lemma sign_of_difference_le (x y : number) :
  Num.sign_of_difference x y <> Gt <->
  Num.class x < Num.class y
  \/ (Num.class x = Num.class y /\ (Num.value x <= Num.value y)%Q).
Proof.
  unfold Num.sign_of_difference.
  destruct (Z.compare_spec (Num.class x) (Num.class y)) as [E | E | E].
  - rewrite <- Qle_alt. split; [intros H; right; split; assumption |].
    intros [H | [_ H]]; [lia | exact H].
  - split; [intros _; left; exact E | discriminate].
  - split; [congruence | intros [H | [H _]]; lia].
Qed.

Lemma sign_of_difference_trans (x y z : number) :
  Num.sign_of_difference x y <> Gt -> Num.sign_of_difference y z <> Gt ->
  Num.sign_of_difference x z <> Gt.
Proof.
  rewrite !sign_of_difference_le.
  intros [H1 | [H1 L1]] [H2 | [H2 L2]]; try (left; lia).
  right. split; [lia |]. eapply Qle_trans; eassumption.
Qed.

Lemma by_position_antisym (a b : entry) : by_position b a = CompOpp (by_position a b).
Proof. apply sign_of_difference_antisym. Qed.

Lemma by_position_trans (a b c : entry) :
  by_position a b <> Gt -> by_position b c <> Gt -> by_position a c <> Gt.
Proof. apply sign_of_difference_trans. Qed.


(** ** The type mapper on well-formed descriptors *)

Lemma toString_printable (name : string) (j : json) :
  is_num j || is_str j = true -> exists s, JS.toString name j = Ok s.
Proof.
  destruct j; simpl; try discriminate; intros _; eexists; reflexivity.
Qed.

Lemma number_type_total (maximum multipleOf : value) :
  optional (fun j => is_num j || is_str j) maximum = true ->
  optional is_num multipleOf = true ->
  exists t, number_type maximum multipleOf = Ok t.
Proof.
  intros Hmax Hmul. unfold number_type.
  assert (Hfirst : exists r,
    match multipleOf with
    | Some m =>
        if JS.truthy multipleOf then
          s <- JS.toString "multipleOf" m ;;
          if Str.includes "." s then Ok (true, fraction_length s)
          else Ok (false, 0)
        else Ok (false, 0)
    | None => Ok (false, 0)
    end = Ok r).
  { destruct multipleOf as [m |]; [| eexists; reflexivity].
    destruct (JS.truthy (Some m)); [| eexists; reflexivity].
    destruct (toString_printable "multipleOf" m) as [s ->].
    - simpl in Hmul. rewrite Hmul. reflexivity.
    - simpl. destruct (Str.includes "." s); eexists; reflexivity. }
  destruct Hfirst as [[hasDecimals scale] ->]. cbn [bind].
  destruct maximum as [m |].
  - destruct (toString_printable "maximum" m Hmax) as [s Hs]. rewrite Hs.
    destruct hasDecimals, (JS.truthy (Some m)); cbn [bind negb andb];
      repeat match goal with
             | |- context [if ?c then _ else _] => destruct c; cbn [bind]
             end; eexists; reflexivity.
  - cbn [bind]. destruct hasDecimals; eexists; reflexivity.
Qed.

Lemma well_formed_descriptor_fields (d : json) :
  well_formed_descriptor d = true ->
  (exists fields, d = JObj fields)
  /\ optional is_str (JS.field d "type") = true
  /\ optional is_str (JS.field d "format") = true
  /\ optional (fun j => is_num j || is_str j) (JS.field d "maximum") = true
  /\ optional is_num (JS.field d "multipleOf") = true
  /\ optional (fun j => is_num j || is_falsy j) (JS.field d "x-position") = true
  /\ optional is_str (JS.field d "x-dateTimeFormat") = true
  /\ optional is_str (JS.field d "description") = true.
Proof.
  unfold well_formed_descriptor. destruct d; try discriminate.
  rewrite !andb_true_iff. intros ((((((H1 & H2) & H3) & H4) & H5) & H6) & H7).
  repeat split; try assumption. eexists; reflexivity.
Qed.

Lemma mapM3TypeToSnowflake_well_formed (d : json) :
  well_formed_descriptor d = true -> mapM3TypeToSnowflake d = Ok (sql_type d).
Proof.
  intros Hwf. cut (exists t, mapM3TypeToSnowflake d = Ok t).
  { intros [t Ht]. unfold sql_type. rewrite Ht. reflexivity. }
  destruct (well_formed_descriptor_fields d Hwf)
    as ([fields ->] & _ & _ & Hmax & Hmul & _).
  unfold mapM3TypeToSnowflake. cbn [bind].
  repeat match goal with
         | |- exists t, (if ?c then _ else _) = Ok t => destruct c
         end; try (eexists; reflexivity).
  apply number_type_total; assumption.
Qed.

(** C4: a descriptor whose [format] is ["date-time"] maps to [DATETIME]
    whatever its [type] and other fields are, this rule being tried first;
    next comes the rule for [x-dateTimeFormat] equal to ["epoch-millis"],
    which gives [NUMBER] before any rule on [type] is tried. *)
Theorem date_time_rules_come_first (d : json) :
  (JS.field d "format" = Some (JStr "date-time") ->
   mapM3TypeToSnowflake d = Ok "DATETIME")
  /\ (JS.is_string (JS.field d "format") "date-time" = false ->
      JS.field d "x-dateTimeFormat" = Some (JStr "epoch-millis") ->
      mapM3TypeToSnowflake d = Ok "NUMBER").
Proof.
  split.
  - intros Hformat. destruct d; try discriminate.
    unfold mapM3TypeToSnowflake. cbn [bind]. rewrite Hformat. reflexivity.
  - intros Hformat Hepoch. destruct d; try discriminate.
    unfold mapM3TypeToSnowflake. cbn [bind]. rewrite Hformat, Hepoch. reflexivity.
Qed.

(** C6: on every well-formed descriptor the type mapper returns a type
    name (it does not throw), and when none of the rules for the format,
    the epoch hint and the types boolean, integer, number, string and
    object applies, that name is the default [STRING]. *)
Theorem mapM3TypeToSnowflake_total (d : json) :
  well_formed_descriptor d = true ->
  (exists t, mapM3TypeToSnowflake d = Ok t)
  /\ (JS.is_string (JS.field d "format") "date-time" = false ->
      JS.is_string (JS.field d "x-dateTimeFormat") "epoch-millis" = false ->
      (forall t, In t ["boolean"; "integer"; "number"; "string"; "object"] ->
                 JS.is_string (JS.field d "type") t = false) ->
      mapM3TypeToSnowflake d = Ok "STRING").
Proof.
  intros Hwf. split.
  - exists (sql_type d). apply mapM3TypeToSnowflake_well_formed, Hwf.
  - intros Hformat Hepoch Htype.
    destruct (well_formed_descriptor_fields d Hwf) as ([fields ->] & _).
    unfold mapM3TypeToSnowflake. cbn [bind].
    rewrite Hformat, Hepoch.
    rewrite !Htype by (simpl; tauto). reflexivity.
Qed.


(** ** The generators on well-formed schemas *)

Lemma append_assoc (a b c : string) : (a ++ b) ++ c = a ++ b ++ c.
Proof. induction a as [| ch a IH]; simpl; [| rewrite IH]; reflexivity. Qed.

Lemma append_empty (a : string) : a ++ EmptyString = a.
Proof. induction a as [| ch a IH]; simpl; [| rewrite IH]; reflexivity. Qed.

Lemma for_each_map {A B : Type} (f : A -> result B) (g : A -> B) (l : list A) :
  (forall a, In a l -> f a = Ok (g a)) -> for_each f l = Ok (List.map g l).
Proof.
  induction l as [| a l IH]; intros H; [reflexivity |].
  simpl. rewrite (H a (or_introl eq_refl)). cbn [bind].
  rewrite IH; [reflexivity |]. intros b Hb. apply H. right. exact Hb.
Qed.

Lemma insert_index_permutation (i : Z) (e : entry) (l : list (Z * entry)) :
  Permutation (e :: List.map snd l) (List.map snd (Obj.insert_index i e l)).
Proof.
  induction l as [| [j f] l IH]; simpl; [apply Permutation_refl |].
  destruct (j <? i); simpl; [| apply Permutation_refl].
  eapply Permutation_trans; [apply perm_swap | apply perm_skip, IH].
Qed.

Lemma own_entries_permutation (fields : list entry) :
  Permutation fields (Obj.own_entries fields).
Proof.
  unfold Obj.own_entries. induction fields as [| [k v] fields IH]; simpl.
  - constructor.
  - unfold Obj.named. simpl. destruct (Obj.array_index k) as [i |]; simpl.
    + eapply Permutation_trans; [apply perm_skip, IH |].
      apply (Permutation_app_tail _ (insert_index_permutation i (k, v) _)).
    + eapply Permutation_trans; [apply perm_skip, IH |].
      apply Permutation_middle.
Qed.

(** Names that are no array indices stay in creation order. *)
Lemma own_entries_named (fields : list entry) :
  (forall p, In p fields -> Obj.array_index (fst p) = None) ->
  Obj.own_entries fields = fields.
Proof.
  unfold Obj.own_entries, Obj.named. intros H.
  assert (Hindexed : Obj.indexed fields = []).
  { induction fields as [| [k v] fields IH]; [reflexivity |].
    pose proof (H (k, v) (or_introl eq_refl)) as Hk. simpl in Hk.
    cbn [Obj.indexed]. rewrite Hk. apply IH.
    intros p Hp. apply H. right. exact Hp. }
  rewrite Hindexed. cbn [List.map app].
  induction fields as [| [k v] fields IH]; [reflexivity |].
  pose proof (H (k, v) (or_introl eq_refl)) as Hk. simpl in Hk.
  cbn [filter fst]. rewrite Hk. cbv iota. apply (f_equal (cons (k, v))). apply IH.
  - intros p Hp. apply H. right. exact Hp.
  - cbn [Obj.indexed] in Hindexed. rewrite Hk in Hindexed. exact Hindexed.
Qed.

Lemma position_well_formed (d : json) :
  well_formed_descriptor d = true -> position d = Ok (effective_position d).
Proof.
  intros Hwf.
  destruct (well_formed_descriptor_fields d Hwf)
    as ([fields ->] & _ & _ & _ & _ & Hpos & _).
  unfold position, effective_position. cbn [JS.get bind].
  destruct (JS.field (JObj fields) "x-position") as [[| b | x | t | |] |];
    try discriminate; try reflexivity.
  - destruct b; [discriminate | reflexivity].
  - simpl. destruct (Num.truthy x); reflexivity.
  - destruct t; [reflexivity | discriminate].
Qed.

Lemma sort_key_well_formed (p : entry) :
  well_formed_descriptor (snd p) = true -> sort_key p = effective_position (snd p).
Proof.
  intros Hwf. unfold sort_key. rewrite (position_well_formed _ Hwf). reflexivity.
Qed.

Lemma check_positions_well_formed (entries : list entry) :
  (forall p, In p entries -> well_formed_descriptor (snd p) = true) ->
  check_positions entries = Ok tt.
Proof.
  intros H. unfold check_positions.
  rewrite (map_ext_in _ (fun p : entry => Ok (effective_position (snd p))))
    by (intros p Hp; apply position_well_formed, H, Hp).
  replace (existsb _ _) with false.
  - rewrite <- (map_map (fun p : entry => effective_position (snd p)) Ok).
    rewrite (for_each_map _ (fun r => match r with Ok x => x | _ => Zero false end)).
    + reflexivity.
    + intros r Hr. apply in_map_iff in Hr. destruct Hr as (x & <- & _). reflexivity.
  - symmetry. apply not_true_is_false. intros Hex.
    apply existsb_exists in Hex. destruct Hex as (r & Hr & Hun).
    apply in_map_iff in Hr. destruct Hr as (p & <- & _). discriminate.
Qed.

Lemma sortedProps_well_formed (props : list entry) :
  forallb (fun p : entry => well_formed_descriptor (snd p)) props = true ->
  sortedProps (JObj props) = Ok (Array_sort by_position (Obj.own_entries props)).
Proof.
  intros Hwf. unfold sortedProps. cbn [Obj.entries bind]. unfold sort_by_position.
  rewrite forallb_forall in Hwf.
  rewrite check_positions_well_formed.
  - destruct (Obj.own_entries props) as [| a [| b l]]; reflexivity.
  - intros p Hp. apply Hwf.
    eapply Permutation_in; [apply Permutation_sym, own_entries_permutation | exact Hp].
Qed.


Lemma well_formed_schema_fields (s : json) :
  well_formed_schema s = true ->
  (exists fields, s = JObj fields)
  /\ optional is_str (JS.field s "title") = true
  /\ optional is_str (JS.field s "description") = true
  /\ optional is_properties (JS.field s "properties") = true
  /\ optional is_names (JS.field s "required") = true.
Proof.
  unfold well_formed_schema. destruct s; try discriminate.
  rewrite !andb_true_iff. intros (((H1 & H2) & H3) & H4).
  repeat split; try assumption. eexists; reflexivity.
Qed.

Lemma table_name_well_formed (tableName : string) (s : json) :
  well_formed_schema s = true ->
  table_name tableName s = Ok (resolved_table tableName s).
Proof.
  intros Hwf.
  destruct (well_formed_schema_fields s Hwf) as ([fields ->] & Htitle & _).
  unfold table_name, resolved_table.
  destruct (negb (tableName =? ""))%string; [reflexivity |].
  cbn [JS.get bind].
  destruct (JS.field (JObj fields) "title") as [[] |]; try discriminate; cbn [bind text].
  - destruct (negb (_ =? ""))%string; reflexivity.
  - reflexivity.
Qed.

Lemma names_are_strings (items : list json) :
  forallb is_str items = true ->
  items = List.map JStr (List.map (fun item => text (Some item)) items).
Proof.
  induction items as [| item items IH]; simpl; [reflexivity |].
  rewrite andb_true_iff. intros [Hitem Hitems].
  destruct item; try discriminate. simpl. f_equal. apply IH, Hitems.
Qed.

(** The two defaults: [schema.properties || {}] and [schema.required || []]. *)
Lemma properties_or_else (s : json) :
  well_formed_schema s = true ->
  or_else (JS.field s "properties") (JObj []) = JObj (schema_properties s)
  /\ forallb (fun p : entry => well_formed_descriptor (snd p)) (schema_properties s) = true.
Proof.
  intros Hwf.
  destruct (well_formed_schema_fields s Hwf) as (_ & _ & _ & Hprops & _).
  unfold schema_properties, or_else.
  destruct (JS.field s "properties") as [[] |]; try discriminate; split;
    try reflexivity.
  exact Hprops.
Qed.

Lemma required_or_else (s : json) :
  well_formed_schema s = true ->
  or_else (JS.field s "required") (JArr []) = JArr (List.map JStr (schema_required s)).
Proof.
  intros Hwf.
  destruct (well_formed_schema_fields s Hwf) as (_ & _ & _ & _ & Hreq).
  unfold schema_required, or_else.
  destruct (JS.field s "required") as [[] |]; try discriminate; try reflexivity.
  simpl. f_equal. apply names_are_strings, Hreq.
Qed.

Lemma required_includes_names (names : list string) (propName : string) :
  required_includes (JArr (List.map JStr names)) propName
  = Ok (existsb (fun name => String.eqb name propName) names).
Proof.
  unfold required_includes. f_equal.
  induction names as [| name names IH]; simpl; [| rewrite IH]; reflexivity.
Qed.

Lemma column_line_well_formed (names : list string) (p : entry) :
  well_formed_descriptor (snd p) = true ->
  column_line (JArr (List.map JStr names)) p = Ok (column_text names p).
Proof.
  destruct p as [propName propDef]. cbn [snd]. intros Hwf.
  unfold column_line, column_text. cbn [fst snd].
  rewrite (mapM3TypeToSnowflake_well_formed _ Hwf). cbn [bind].
  rewrite required_includes_names. cbn [bind].
  destruct (well_formed_descriptor_fields _ Hwf)
    as ([fields ->] & _ & _ & _ & _ & _ & _ & Hdesc).
  cbn [JS.get bind].
  destruct (JS.field (JObj fields) "description") as [[] |];
    try discriminate; cbn [text bind JS.truthy].
  - destruct (s =? "")%string; reflexivity.
  - reflexivity.
Qed.

Lemma lower_char_i (c : ascii) : Ascii.eqb (Str.lower_char c) "i" = is_i c.
Proof. destruct c as [[] [] [] [] [] [] [] []]; reflexivity. Qed.

Lemma lower_char_d (c : ascii) : Ascii.eqb (Str.lower_char c) "d" = is_d c.
Proof. destruct c as [[] [] [] [] [] [] [] []]; reflexivity. Qed.

(** [r.toLowerCase().includes('id')] finds the two letters in any case. *)
Lemma includes_id_any_case (name : string) :
  Str.includes "id" (Str.toLowerCase name) = mentions_id name.
Proof.
  induction name as [| a rest IH]; [reflexivity |].
  change (Str.toLowerCase (String a rest))
    with (String (Str.lower_char a) (Str.toLowerCase rest)).
  cbn [Str.includes]. rewrite IH.
  destruct rest as [| b rest']; [cbn; rewrite andb_false_r; reflexivity |].
  change (Str.toLowerCase (String b rest'))
    with (String (Str.lower_char b) (Str.toLowerCase rest')).
  cbn [Str.starts_with mentions_id].
  rewrite lower_char_i, lower_char_d, andb_true_r. reflexivity.
Qed.

Lemma pk_candidates_names (names : list string) :
  pk_candidates (JArr (List.map JStr names))
  = Ok (List.map JStr (filter pk_rule names)).
Proof.
  unfold pk_candidates.
  induction names as [| name names IH]; [reflexivity |].
  cbn [List.map filter_each is_pk_candidate bind filter].
  rewrite IH. cbn [bind].
  rewrite includes_id_any_case.
  change (existsb (String.eqb name) allow_list || mentions_id name) with (pk_rule name).
  destruct (pk_rule name); reflexivity.
Qed.

Lemma Array_join_names (sep : string) (names : list string) :
  JS.Array_join sep (List.map JStr names) = Ok (Str.join sep names).
Proof.
  unfold JS.Array_join.
  rewrite (for_each_map _ (fun item => text (Some item))).
  - cbn [bind]. rewrite map_map. simpl. rewrite map_id. reflexivity.
  - intros item Hitem. apply in_map_iff in Hitem.
    destruct Hitem as (name & <- & _). reflexivity.
Qed.

Lemma columns_well_formed (s : json) (p : entry) :
  well_formed_schema s = true -> In p (columns s) ->
  In p (schema_properties s) /\ well_formed_descriptor (snd p) = true.
Proof.
  intros Hwf Hp.
  destruct (properties_or_else s Hwf) as [_ Hprops].
  rewrite forallb_forall in Hprops.
  assert (Hin : In p (schema_properties s)).
  { eapply Permutation_in; [| exact Hp]. apply Permutation_sym.
    eapply Permutation_trans;
      [apply own_entries_permutation | apply Array_sort_permutation]. }
  split; [exact Hin | apply Hprops, Hin].
Qed.

(** The DDL generator on a well-formed schema: the statement over the
    sorted columns, then the primary-key comment. *)
Lemma generateDdl_well_formed (tableName : string) (s : json) :
  well_formed_schema s = true ->
  generateDdl tableName s = Ok (ddl_text tableName s (columns s)).
Proof.
  intros Hwf. unfold generateDdl.
  rewrite (table_name_well_formed _ _ Hwf). cbn [bind].
  destruct (properties_or_else s Hwf) as [Hprops Hdescs].
  pose proof (required_or_else s Hwf) as Hreq.
  destruct (well_formed_schema_fields s Hwf) as ([fields Hs] & _ & Hdesc & _).
  assert (Hget : forall key, JS.get s key = Ok (JS.field s key))
    by (intros key; rewrite Hs; reflexivity).
  rewrite !Hget. cbn [bind]. rewrite Hprops, Hreq.
  rewrite (sortedProps_well_formed _ Hdescs). cbn [bind]. fold (columns s).
  rewrite (for_each_map _ (column_text (schema_required s)))
    by (intros p Hp; apply column_line_well_formed,
          (columns_well_formed s p Hwf Hp)).
  rewrite pk_candidates_names.
  unfold ddl_text, ddl_statement, schema_description, primary_key_comment, sql_comment.
  destruct (JS.field s "description") as [[] |]; try discriminate;
    cbn [text bind JS.truthy JS.ToString].
  - destruct (s0 =? "")%string; cbn [negb bind];
      destruct (filter pk_rule (schema_required s)) as [| c cs] eqn:Ec;
      cbn [List.map bind]; rewrite <- ?(map_cons JStr), ?Array_join_names;
      cbn [bind]; rewrite ?append_assoc, ?append_empty; reflexivity.
  - destruct (filter pk_rule (schema_required s)) as [| c cs] eqn:Ec;
      cbn [List.map bind]; rewrite <- ?(map_cons JStr), ?Array_join_names;
      cbn [bind]; rewrite ?append_assoc, ?append_empty; reflexivity.
Qed.

Lemma select_line_well_formed (p : entry) :
  well_formed_descriptor (snd p) = true -> select_line p = Ok (select_text p).
Proof.
  destruct p as [name def]. cbn [snd]. intros Hwf.
  unfold select_line, select_text. cbn [fst snd].
  rewrite (mapM3TypeToSnowflake_well_formed _ Hwf). cbn [bind].
  destruct (sql_type def =? "STRING")%string; reflexivity.
Qed.

Lemma generateSilver_well_formed (tableName : string) (s : json) :
  well_formed_schema s = true ->
  generateSilver tableName s = Ok (silver_query tableName s (columns s)).
Proof.
  intros Hwf. unfold generateSilver.
  destruct (properties_or_else s Hwf) as [Hprops Hdescs].
  destruct (well_formed_schema_fields s Hwf) as ([fields Hs] & _).
  assert (Hget : forall key, JS.get s key = Ok (JS.field s key))
    by (intros key; rewrite Hs; reflexivity).
  rewrite !Hget. cbn [bind]. rewrite Hprops.
  rewrite (sortedProps_well_formed _ Hdescs). cbn [bind]. fold (columns s).
  rewrite (table_name_well_formed _ _ Hwf). cbn [bind].
  rewrite (for_each_map _ select_text)
    by (intros p Hp; apply select_line_well_formed,
          (columns_well_formed s p Hwf Hp)).
  cbn [bind]. unfold silver_query, silver_text, row_number_line. cbv zeta.
  change (Str.join ", " excludeCols)
    with "ACCOUNTINGENTITY, VARIATIONNUMBER, TIMESTAMP, DELETED, ARCHIVED, ROW_NUM".
  rewrite !append_assoc. reflexivity.
Qed.


(** ** Column order *)

Lemma insert_ext {A : Type} (f g : A -> A -> comparison) (x : A) (l : list A) :
  (forall y, In y l -> f y x = g y x) -> insert f x l = insert g x l.
Proof.
  induction l as [| y l IH]; intros H; [reflexivity |].
  simpl. rewrite (H y (or_introl eq_refl)), IH; [reflexivity |].
  intros z Hz. apply H. right. exact Hz.
Qed.

Lemma Array_sort_ext {A : Type} (f g : A -> A -> comparison) (l : list A) :
  (forall a b, In a l -> In b l -> f a b = g a b) ->
  Array_sort f l = Array_sort g l.
Proof.
  induction l as [| x l IH]; intros H; [reflexivity |].
  simpl. rewrite <- IH by (intros a b Ha Hb; apply H; right; assumption).
  apply insert_ext. intros y Hy. apply H; [right | left; reflexivity].
  eapply Permutation_in; [apply Permutation_sym, Array_sort_permutation | exact Hy].
Qed.

Lemma by_effective_position_antisym (a b : entry) :
  by_effective_position b a = CompOpp (by_effective_position a b).
Proof. apply sign_of_difference_antisym. Qed.

Lemma by_effective_position_trans (a b c : entry) :
  by_effective_position a b <> Gt -> by_effective_position b c <> Gt ->
  by_effective_position a c <> Gt.
Proof. apply sign_of_difference_trans. Qed.

Lemma sort_by_position_well_formed (l : list entry) :
  (forall p, In p l -> well_formed_descriptor (snd p) = true) ->
  sort_by_position l = Ok (Array_sort by_effective_position l).
Proof.
  intros Hwf. unfold sort_by_position. rewrite (check_positions_well_formed l Hwf).
  rewrite (Array_sort_ext by_effective_position by_position).
  - destruct l as [| a [| b l]]; reflexivity.
  - intros a b Ha Hb. unfold by_position, by_effective_position.
    rewrite !sort_key_well_formed by (apply Hwf; assumption). reflexivity.
Qed.

Lemma columns_by_effective_position (s : json) :
  well_formed_schema s = true ->
  columns s = Array_sort by_effective_position (Obj.own_entries (schema_properties s)).
Proof.
  intros Hwf. unfold columns. symmetry. apply Array_sort_ext.
  intros a b Ha Hb. unfold by_position, by_effective_position.
  destruct (properties_or_else s Hwf) as [_ Hprops].
  rewrite forallb_forall in Hprops.
  rewrite !sort_key_well_formed; [reflexivity | |];
    apply Hprops; (eapply Permutation_in;
      [apply Permutation_sym, own_entries_permutation | eassumption]).
Qed.

Lemma effective_position_default (d : json) :
  JS.truthy (JS.field d "x-position") = false ->
  effective_position d = Finite false 999 0.
Proof.
  unfold effective_position.
  destruct (JS.field d "x-position") as [[] |]; try reflexivity.
  simpl. intros ->. reflexivity.
Qed.


Lemma ForallOrdPairs_permutation {A : Type} (R : A -> A -> Prop) (l l' : list A) :
  (forall a b, R a b -> R b a) ->
  Permutation l l' -> ForallOrdPairs R l -> ForallOrdPairs R l'.
Proof.
  intros Hsym. induction 1 as [| x l l' Hp IH | x y l | l l' l'' _ IH1 _ IH2];
    intros H.
  - exact H.
  - inversion H as [| ? ? Hx Hl]; subst. constructor; [| apply IH, Hl].
    eapply Permutation_Forall; eassumption.
  - inversion H as [| ? ? Hy Hxl]; subst.
    inversion Hxl as [| ? ? Hx Hl]; subst.
    inversion Hy as [| ? ? Hyx Hyl]; subst.
    constructor; [constructor; [apply Hsym, Hyx | exact Hx] |].
    constructor; assumption.
  - apply IH2, IH1, H.
Qed.

Lemma distinct_own_entries (props : list entry) :
  distinct by_effective_position props ->
  distinct by_effective_position (Obj.own_entries props).
Proof.
  apply ForallOrdPairs_permutation; [| apply own_entries_permutation].
  intros a b H. rewrite (by_effective_position_antisym a b).
  destruct (by_effective_position a b); simpl; congruence.
Qed.

(** C2, as amended: for a well-formed schema both artifacts list the
    columns in one order, which is the stable sort of the properties, as
    [Object.entries] enumerates them, by effective position (the
    [x-position] when it is a non-zero number, 999 otherwise).  Properties
    whose names are no array indices are enumerated in creation order, and
    a property without [x-position] comes after every property whose
    effective position is below 999. *)
Theorem column_order_by_effective_position (tableName : string) (s : json) :
  well_formed_schema s = true ->
  generateDdl tableName s = Ok (ddl_text tableName s (columns s))
  /\ generateSilver tableName s = Ok (silver_query tableName s (columns s))
  /\ stable_sort by_effective_position
       (Obj.own_entries (schema_properties s)) (columns s)
  /\ ((forall p, In p (schema_properties s) -> Obj.array_index (fst p) = None) ->
      Obj.own_entries (schema_properties s) = schema_properties s)
  /\ (forall p q,
        In p (schema_properties s) -> In q (schema_properties s) ->
        JS.field (snd p) "x-position" = None ->
        Num.sign_of_difference (effective_position (snd q)) (Finite false 999 0) = Lt ->
        precedes q p (columns s)).
Proof.
  intros Hwf.
  split; [apply generateDdl_well_formed, Hwf |].
  split; [apply generateSilver_well_formed, Hwf |].
  pose proof (columns_by_effective_position s Hwf) as Hcols.
  pose proof (Array_sort_stable_sort by_effective_position
                by_effective_position_antisym by_effective_position_trans
                (Obj.own_entries (schema_properties s))) as Hsort.
  rewrite <- Hcols in Hsort.
  split; [exact Hsort |].
  split; [apply own_entries_named |].
  intros p q Hp Hq Hnone Hlt.
  destruct Hsort as (Hperm & Hasc & _).
  assert (Hin : forall r, In r (schema_properties s) -> In r (columns s)).
  { intros r Hr. eapply Permutation_in; [exact Hperm |].
    eapply Permutation_in; [apply own_entries_permutation | exact Hr]. }
  apply (ascending_precedes by_effective_position by_effective_position_antisym);
    auto.
  unfold by_effective_position.
  rewrite (effective_position_default (snd p)) by (rewrite Hnone; reflexivity).
  exact Hlt.
Qed.

(** C2 as the data model words it fails where a property has position 0:
    sorted by [x-position], SUNO (0) would come before CONO (1); the
    generators put CONO first. *)
Lemma column_order_as_stated_fails : ~ column_order_as_stated (schema_of zero_first).
Proof.
  intros (cols & (Hperm & Hasc & _) & Hddl & _).
  apply Permutation_length_2_inv in Hperm. destruct Hperm as [-> | ->].
  - vm_compute in Hddl. discriminate.
  - inversion Hasc as [| ? ? _ Hall]; subst.
    inversion Hall as [| ? ? Hle _]; subst.
    apply Hle. vm_compute. reflexivity.
Qed.

(** C10, as amended: a property whose [x-position] is falsy (absent,
    null, false, zero or the empty string) sorts at position 999 in both
    artifacts: after every property whose effective position is below 999
    and before every property whose position is above 999. *)
Theorem falsy_position_sorts_as_999 (tableName : string) (s : json) (p : entry) :
  well_formed_schema s = true ->
  In p (schema_properties s) ->
  JS.truthy (JS.field (snd p) "x-position") = false ->
  position (snd p) = Ok (Finite false 999 0)
  /\ generateDdl tableName s = Ok (ddl_text tableName s (columns s))
  /\ generateSilver tableName s = Ok (silver_query tableName s (columns s))
  /\ columns s
     = Array_sort by_effective_position (Obj.own_entries (schema_properties s))
  /\ (forall q,
        In q (schema_properties s) ->
        Num.sign_of_difference (effective_position (snd q)) (Finite false 999 0) = Lt ->
        precedes q p (columns s))
  /\ (forall q,
        In q (schema_properties s) ->
        Num.sign_of_difference (effective_position (snd q)) (Finite false 999 0) = Gt ->
        precedes p q (columns s)).
Proof.
  intros Hwf Hp Hfalsy.
  destruct (properties_or_else s Hwf) as [_ Hprops].
  rewrite forallb_forall in Hprops.
  pose proof (effective_position_default (snd p) Hfalsy) as Hdefault.
  split; [rewrite (position_well_formed _ (Hprops p Hp)), Hdefault; reflexivity |].
  split; [apply generateDdl_well_formed, Hwf |].
  split; [apply generateSilver_well_formed, Hwf |].
  pose proof (columns_by_effective_position s Hwf) as Hcols.
  split; [exact Hcols |].
  pose proof (Array_sort_stable_sort by_effective_position
                by_effective_position_antisym by_effective_position_trans
                (Obj.own_entries (schema_properties s))) as Hsort.
  rewrite <- Hcols in Hsort. destruct Hsort as (Hperm & Hasc & _).
  assert (Hin : forall r, In r (schema_properties s) -> In r (columns s)).
  { intros r Hr. eapply Permutation_in; [exact Hperm |].
    eapply Permutation_in; [apply own_entries_permutation | exact Hr]. }
  split; intros q Hq Hcmp;
    apply (ascending_precedes by_effective_position by_effective_position_antisym);
    auto; unfold by_effective_position; rewrite Hdefault.
  - exact Hcmp.
  - rewrite sign_of_difference_antisym, Hcmp. reflexivity.
Qed.

(** C10 as stated fails for positions above 999: NOTE has the positive
    position 1000 and CONO the position 0, yet CONO comes first. *)
Lemma zero_position_precedes_position_1000 :
  columns (schema_of [late_column; zero_column]) = [zero_column; late_column]
  /\ ~ precedes late_column zero_column (columns (schema_of [late_column; zero_column])).
Proof.
  split; [vm_compute; reflexivity |].
  replace (columns (schema_of [late_column; zero_column]))
    with [zero_column; late_column] by (vm_compute; reflexivity).
  intros (l1 & l2 & l3 & H).
  destruct l1 as [| a [| b l1]]; simpl in H.
  - cbv in H. congruence.
  - destruct l2; discriminate.
  - destruct l1; discriminate.
Qed.


Lemma column_order_by_effective_position_witness :
  well_formed_schema supplier_schema = true
  /\ stable_sort by_effective_position
       (Obj.own_entries (schema_properties supplier_schema)) (columns supplier_schema).
Proof.
  split; [vm_compute; reflexivity |].
  apply (column_order_by_effective_position EmptyString supplier_schema).
  vm_compute; reflexivity.
Defined.

Lemma falsy_position_sorts_as_999_witness :
  columns (schema_of falsy_positions)
  = [column "FIVE" [("type", JStr "string"); ("x-position", integer 5)];
     column "NONE" [("type", JStr "string"); ("x-position", JNull)];
     column "OFF" [("type", JStr "string"); ("x-position", JBool false)];
     column "BLANK" [("type", JStr "string"); ("x-position", JStr EmptyString)];
     column "ZERO" [("type", JStr "string"); ("x-position", integer 0)];
     column "LATE" [("type", JStr "string"); ("x-position", integer 1000)]]
  /\ position (JObj [("type", JStr "string"); ("x-position", JBool false)])
     = Ok (Finite false 999 0)
  /\ precedes (column "FIVE" [("type", JStr "string"); ("x-position", integer 5)])
              (column "OFF" [("type", JStr "string"); ("x-position", JBool false)])
              (columns (schema_of falsy_positions))
  /\ precedes (column "OFF" [("type", JStr "string"); ("x-position", JBool false)])
              (column "LATE" [("type", JStr "string"); ("x-position", integer 1000)])
              (columns (schema_of falsy_positions)).
Proof.
  split; [reflexivity |].
  pose proof (falsy_position_sorts_as_999 EmptyString (schema_of falsy_positions)
                (column "OFF" [("type", JStr "string"); ("x-position", JBool false)])
                eq_refl ltac:(simpl; tauto) eq_refl)
    as (Hposition & _ & _ & _ & Hbelow & Habove).
  split; [exact Hposition |]. split.
  - apply Hbelow; [simpl; tauto | reflexivity].
  - apply Habove; [simpl; tauto | reflexivity].
Defined.

(** The comparison function answers for every entry exactly when every
    position is modelled and none throws. *)
Lemma check_positions_Ok (entries : list entry) :
  check_positions entries = Ok tt
  <-> forall p, In p entries -> exists x, position (snd p) = Ok x.
Proof.
  unfold check_positions.
  induction entries as [| a entries IH]; cbn [List.map existsb for_each].
  - split; [intros _ p [] | reflexivity].
  - destruct (position (snd a)) as [x | err |] eqn:Ha; cbn [is_unmodelled orb bind].
    + destruct (existsb is_unmodelled
                  (List.map (fun e : entry => position (snd e)) entries)).
      * split; [discriminate |]. intros H.
        assert (Hrest : Unmodelled = Ok tt)
          by (apply IH; intros p Hp; apply H; right; exact Hp).
        discriminate Hrest.
      * destruct (for_each (fun p : result number => p)
                    (List.map (fun e : entry => position (snd e)) entries))
          as [xs | err |] eqn:Hrest; cbn [bind] in *.
        -- split; [| reflexivity]. intros _ p [<- | Hp]; [eexists; exact Ha |].
           apply (proj1 IH eq_refl p Hp).
        -- split; [discriminate |]. intros H.
           assert (Habsurd : Throw err = Ok tt)
             by (apply IH; intros p Hp; apply H; right; exact Hp).
           discriminate Habsurd.
        -- split; [discriminate |]. intros H.
           assert (Habsurd : Unmodelled = Ok tt)
             by (apply IH; intros p Hp; apply H; right; exact Hp).
           discriminate Habsurd.
    + split.
      * destruct (existsb is_unmodelled
                    (List.map (fun e : entry => position (snd e)) entries));
          discriminate.
      * intros H. destruct (H a (or_introl eq_refl)) as (x & Hx). congruence.
    + split; [discriminate |].
      intros H. destruct (H a (or_introl eq_refl)) as (x & Hx). congruence.
Qed.

(** Sorting what the sort returned changes nothing, whatever the
    descriptors are. *)
Lemma sort_by_position_Ok (entries sorted : list entry) :
  sort_by_position entries = Ok sorted ->
  sorted = Array_sort by_position entries
  /\ (check_positions entries = Ok tt \/ (length entries <= 1)%nat).
Proof.
  unfold sort_by_position. intros H.
  destruct entries as [| a [| b rest]];
    try (injection H as <-; split; [reflexivity | right; simpl; lia]).
  destruct (check_positions (a :: b :: rest)) as [[] | |]; try discriminate H.
  cbn [bind] in H. split; [congruence | left; reflexivity].
Qed.

(** Sorting what the sort returned changes nothing, whatever the
    descriptors are. *)
Lemma sort_by_position_idempotent (entries sorted : list entry) :
  sort_by_position entries = Ok sorted -> sort_by_position sorted = Ok sorted.
Proof.
  intros H. destruct (sort_by_position_Ok entries sorted H) as [Hsorted Hcheck].
  pose proof (Array_sort_permutation by_position entries) as Hperm.
  rewrite <- Hsorted in Hperm.
  assert (Hfixed : Array_sort by_position sorted = sorted).
  { rewrite Hsorted.
    apply (Array_sort_idempotent by_position by_position_antisym by_position_trans). }
  pose proof (Permutation_length Hperm) as Hlength.
  unfold sort_by_position.
  destruct sorted as [| x [| y others]]; try reflexivity.
  destruct Hcheck as [Hcheck | Hshort]; [| simpl in Hlength; lia].
  assert (Hcheck' : check_positions (x :: y :: others) = Ok tt).
  { apply check_positions_Ok. intros p Hp.
    apply (proj1 (check_positions_Ok entries) Hcheck).
    eapply Permutation_in; [apply Permutation_sym, Hperm | exact Hp]. }
  rewrite Hcheck'. cbn [bind]. rewrite Hfixed. reflexivity.
Qed.

(** C3, as amended: sorting is idempotent without condition: sorting the
    sequence that the sort returned leaves it as it is, ties included, and
    so for the columns of every well-formed schema.  When no two properties
    have the same effective position, two well-formed schemas that differ
    only in the order in which their properties are written give the same
    DDL. *)
Theorem ddl_independent_of_insertion_order (tableName : string) (s1 s2 : json) :
  (forall entries sorted,
     sort_by_position entries = Ok sorted -> sort_by_position sorted = Ok sorted)
  /\ (well_formed_schema s1 = true ->
      sort_by_position (Obj.own_entries (schema_properties s1)) = Ok (columns s1)
      /\ sort_by_position (columns s1) = Ok (columns s1)
      /\ (well_formed_schema s2 = true ->
          JS.field s1 "title" = JS.field s2 "title" ->
          JS.field s1 "description" = JS.field s2 "description" ->
          JS.field s1 "required" = JS.field s2 "required" ->
          Permutation (schema_properties s1) (schema_properties s2) ->
          distinct by_effective_position (schema_properties s1) ->
          generateDdl tableName s1 = generateDdl tableName s2)).
Proof.
  split; [exact sort_by_position_idempotent |].
  intros Hwf1.
  assert (Hsort : sort_by_position (Obj.own_entries (schema_properties s1))
                  = Ok (columns s1)).
  { rewrite sort_by_position_well_formed.
    - rewrite (columns_by_effective_position s1 Hwf1). reflexivity.
    - intros p Hp. destruct (properties_or_else s1 Hwf1) as [_ Hprops].
      rewrite forallb_forall in Hprops. apply Hprops.
      eapply Permutation_in; [apply Permutation_sym, own_entries_permutation | exact Hp]. }
  split; [exact Hsort |].
  split; [exact (sort_by_position_idempotent _ _ Hsort) |].
  intros Hwf2 Htitle Hdesc Hreq Hperm Hdistinct.
  assert (Hcols : columns s1 = columns s2).
  { rewrite !columns_by_effective_position by assumption.
    apply (Array_sort_permuted by_effective_position
             by_effective_position_antisym by_effective_position_trans).
    - eapply Permutation_trans;
        [apply Permutation_sym, own_entries_permutation |].
      eapply Permutation_trans; [exact Hperm | apply own_entries_permutation].
    - apply distinct_own_entries, Hdistinct. }
  rewrite !generateDdl_well_formed by assumption.
  unfold ddl_text, ddl_statement, resolved_table, schema_description, schema_required.
  rewrite Htitle, Hdesc, Hreq, Hcols. reflexivity.
Qed.

Lemma ddl_independent_of_insertion_order_witness :
  generateDdl EmptyString supplier_schema = generateDdl EmptyString supplier_reversed
  /\ sort_by_position (columns (schema_of unpositioned))
     = Ok (columns (schema_of unpositioned))
  /\ columns (schema_of unpositioned) = unpositioned.
Proof.
  split; [| split; [| reflexivity]].
  - apply (proj2 (proj2 (proj2 (ddl_independent_of_insertion_order
                                  EmptyString supplier_schema supplier_reversed)
                                eq_refl)));
      try reflexivity.
    + apply Permutation_rev.
    + unfold distinct. repeat constructor; intro H; vm_compute in H; discriminate H.
  - apply (proj1 (proj2 (proj2 (ddl_independent_of_insertion_order
                                  EmptyString (schema_of unpositioned) JNull)
                                eq_refl))).
Defined.

(** C3 as stated fails when two properties share a position: the two
    orders of two columns without [x-position] give two different texts. *)
Lemma insertion_order_shows_between_equal_positions :
  Permutation unpositioned unpositioned_swapped
  /\ generateDdl EmptyString (schema_of unpositioned)
     <> generateDdl EmptyString (schema_of unpositioned_swapped).
Proof.
  split; [apply perm_swap |].
  vm_compute. discriminate.
Qed.


(** ** The two handlers *)

(** C8: when [JSON.parse] rejects the input, [convertToSnowflake] ends
    normally with the error message set to "Error parsing JSON: " followed
    by the parser's message, and with the DDL output empty, whatever it held
    before. *)
Theorem unparseable_input_clears_ddl
    (JSON_parse : string -> result json) (st : State) (err : exn) :
  JSON_parse (jsonInput st) = Throw err ->
  convertToSnowflake JSON_parse st
  = (Ok tt,
     mkState (jsonInput st) EmptyString (tableName st)
             ("Error parsing JSON: " ++ message err) (silverSql st)).
Proof.
  intros Hparse. unfold convertToSnowflake, try_catch, and_then, lift, setError.
  cbn [jsonInput tableName]. rewrite Hparse. reflexivity.
Qed.

Lemma unparseable_input_clears_ddl_witness :
  convertToSnowflake example_parse (example_state "{")
  = (Ok tt,
     mkState "{" EmptyString EmptyString
             "Error parsing JSON: Unexpected end of JSON input" EmptyString).
Proof.
  apply (unparseable_input_clears_ddl example_parse (example_state "{")
           (SyntaxError "Unexpected end of JSON input")).
  vm_compute; reflexivity.
Defined.

(** C9: [generateSilverFromBronze] never ends by an exception, and it
    ends normally wherever this model has an answer for [JSON.parse] and
    for the sort.  With no input it writes a placeholder; when [JSON.parse]
    rejects the input it writes the parser's message behind
    "-- Error generating silver query: "; for a well-formed schema it writes
    the query whose select list has, per column in the order of the stable
    sort by position, [TRIM(name) AS name] when the column maps to [STRING]
    and the bare name otherwise, and then the row number. *)
Theorem generateSilverFromBronze_never_throws
    (JSON_parse : string -> result json) (st : State) :
  (forall err, fst (generateSilverFromBronze JSON_parse st) <> Throw err)
  /\ (fst (generateSilverFromBronze JSON_parse st) = Ok tt
      \/ JSON_parse (jsonInput st) = Unmodelled
      \/ exists s, JSON_parse (jsonInput st) = Ok s
                   /\ generateSilver (tableName st) s = Unmodelled)
  /\ (jsonInput st = EmptyString ->
      generateSilverFromBronze JSON_parse st
      = (Ok tt,
         mkState (jsonInput st) (sqlOutput st) (tableName st) (error st)
                 "-- No JSON input available yet"))
  /\ (forall err,
        jsonInput st <> EmptyString ->
        JSON_parse (jsonInput st) = Throw err ->
        generateSilverFromBronze JSON_parse st
        = (Ok tt,
           mkState (jsonInput st) (sqlOutput st) (tableName st) (error st)
                   ("-- Error generating silver query: " ++ message err)))
  /\ (forall s,
        jsonInput st <> EmptyString ->
        JSON_parse (jsonInput st) = Ok s ->
        well_formed_schema s = true ->
        generateSilverFromBronze JSON_parse st
        = (Ok tt,
           mkState (jsonInput st) (sqlOutput st) (tableName st) (error st)
             ("CREATE OR REPLACE DYNAMIC TABLE " ++ resolved_table (tableName st) s ++ nl
              ++ "TARGET_LAG= DOWNSTREAM" ++ nl
              ++ "WAREHOUSE={{env}}_ANALYTICS_WH" ++ nl
              ++ "REFRESH_MODE = INCREMENTAL" ++ nl
              ++ "INITIALIZE=ON_CREATE" ++ nl
              ++ "AS" ++ nl
              ++ "WITH BRONZE AS (" ++ nl
              ++ "    SELECT "
              ++ Str.join ("," ++ nl ++ "           ")
                   (List.map
                      (fun p : entry =>
                         if String.eqb (sql_type (snd p)) "STRING"
                         then "TRIM(" ++ fst p ++ ") AS " ++ fst p
                         else fst p)
                      (columns s)
                    ++ ["ROW_NUMBER() OVER (PARTITION BY CONO, SUNO ORDER BY VARIATIONNUMBER DESC) AS ROW_NUM"])
              ++ nl
              ++ "    FROM {{env}}_BRONZE." ++ resolved_table (tableName st) s ++ " b" ++ nl
              ++ ")" ++ nl
              ++ nl
              ++ "SELECT *" ++ nl
              ++ "       EXCLUDE (ACCOUNTINGENTITY, VARIATIONNUMBER, TIMESTAMP, DELETED, ARCHIVED, ROW_NUM)"
              ++ nl
              ++ "FROM BRONZE" ++ nl
              ++ "WHERE ROW_NUM = 1 AND DELETED = FALSE;" ++ nl))
        /\ stable_sort by_effective_position
             (Obj.own_entries (schema_properties s)) (columns s)).
Proof.
  unfold generateSilverFromBronze, try_catch, and_then, lift, setSilverSql.
  split; [| split; [| split; [| split]]].
  - intros err.
    destruct (jsonInput st =? "")%string; [discriminate |].
    destruct (JSON_parse (jsonInput st)) as [s | e |]; cbn [fst]; try discriminate.
    destruct (generateSilver (tableName st) s); discriminate.
  - destruct (jsonInput st =? "")%string; [left; reflexivity |].
    destruct (JSON_parse (jsonInput st)) as [s | e |];
      [| left; reflexivity | right; left; reflexivity].
    destruct (generateSilver (tableName st) s) eqn:Hsilver;
      [left; reflexivity | left; reflexivity |].
    right. right. exists s. split; [reflexivity | exact Hsilver].
  - intros ->. reflexivity.
  - intros err Hinput Hparse.
    apply String.eqb_neq in Hinput. rewrite Hinput, Hparse. reflexivity.
  - intros s Hinput Hparse Hwf. split.
    + apply String.eqb_neq in Hinput. rewrite Hinput, Hparse.
      rewrite (generateSilver_well_formed _ _ Hwf). reflexivity.
    + rewrite (columns_by_effective_position s Hwf).
      apply (Array_sort_stable_sort by_effective_position
               by_effective_position_antisym by_effective_position_trans).
Qed.

Lemma generateSilverFromBronze_never_throws_witness :
  silverSql (snd (generateSilverFromBronze loadExample_parse
                    (snd (loadExample (example_state "{")))))
  = supplier_silver
  /\ generateSilverFromBronze example_parse (example_state "{")
     = (Ok tt,
        mkState "{" "-- a statement generated earlier" EmptyString EmptyString
                "-- Error generating silver query: Unexpected end of JSON input").
Proof.
  split.
  - rewrite (proj1 (proj2 (proj2 (proj2 (proj2
      (generateSilverFromBronze_never_throws loadExample_parse
         (snd (loadExample (example_state "{")))))))
        supplier_schema ltac:(discriminate) eq_refl eq_refl)).
    reflexivity.
  - apply (proj1 (proj2 (proj2 (proj2
      (generateSilverFromBronze_never_throws example_parse (example_state "{")))))
        (SyntaxError "Unexpected end of JSON input")).
    + discriminate.
    + reflexivity.
Defined.

(** What the handlers do with a parsed document: the text of the generator
    goes to the output; an exception of the generator is reported like a
    parse error. *)
Lemma convertToSnowflake_parsed
    (JSON_parse : string -> result json) (st : State) (schema : json) (sql : string) :
  JSON_parse (jsonInput st) = Ok schema ->
  generateDdl (tableName st) schema = Ok sql ->
  convertToSnowflake JSON_parse st
  = (Ok tt, mkState (jsonInput st) sql (tableName st) EmptyString (silverSql st)).
Proof.
  intros Hparse Hddl. unfold convertToSnowflake, try_catch, and_then, lift, setError.
  cbn [jsonInput tableName]. rewrite Hparse, Hddl. reflexivity.
Qed.

Lemma convertToSnowflake_failed
    (JSON_parse : string -> result json) (st : State) (schema : json) (err : exn) :
  JSON_parse (jsonInput st) = Ok schema ->
  generateDdl (tableName st) schema = Throw err ->
  convertToSnowflake JSON_parse st
  = (Ok tt,
     mkState (jsonInput st) EmptyString (tableName st)
             ("Error parsing JSON: " ++ message err) (silverSql st)).
Proof.
  intros Hparse Hddl. unfold convertToSnowflake, try_catch, and_then, lift, setError.
  cbn [jsonInput tableName]. rewrite Hparse, Hddl. reflexivity.
Qed.

(** The literal [null] parses, and is reported as if it did not. *)
Lemma null_is_reported_as_parse_error :
  exists reported,
    convertToSnowflake example_parse (example_state "null")
    = (Ok tt,
       mkState "null" EmptyString EmptyString
               ("Error parsing JSON: " ++ reported) EmptyString).
Proof. eexists. vm_compute. reflexivity. Qed.

(** ** The statement terminator *)

(** The generated statement always ends with the closing parenthesis or
    with the quote that closes the table comment. *)
Lemma ddl_statement_end (tableName : string) (s : json) (cols : list entry) :
  exists body,
    ddl_statement tableName s cols = body ++ ")"
    \/ ddl_statement tableName s cols = body ++ "'".
Proof.
  unfold ddl_statement.
  destruct (schema_description s =? "")%string.
  - eexists. left. rewrite append_empty, <- !append_assoc. reflexivity.
  - eexists. right. rewrite <- !append_assoc. reflexivity.
Qed.

(** C1 at the schema of [loadExample]: the text that [convertToSnowflake]
    writes is the CREATE statement, which ends with the table comment, and
    then the commented suggestion; no semicolon terminates the statement. *)
Theorem supplier_ddl_has_no_terminator :
  generateDdl EmptyString supplier_schema = Ok (supplier_statement ++ supplier_suggestion)
  /\ ddl_statement EmptyString supplier_schema (columns supplier_schema)
     = supplier_statement.
Proof.
  repeat split; vm_compute; reflexivity.
Qed.


(** ** Decimal strings *)

Lemma includes_char (c : ascii) (s : string) :
  Str.includes (String c EmptyString) s = occurs c s.
Proof.
  induction s as [| d s IH]; [reflexivity |].
  cbn [Str.includes Str.starts_with occurs]. rewrite IH, andb_true_r. reflexivity.
Qed.

Lemma occurs_append (c : ascii) (a b : string) :
  occurs c (a ++ b) = occurs c a || occurs c b.
Proof.
  induction a as [| d a IH]; simpl; [reflexivity |].
  rewrite IH, orb_assoc. reflexivity.
Qed.

Lemma length_append (a b : string) : Str.length (a ++ b) = Str.length a + Str.length b.
Proof.
  unfold Str.length. induction a as [| d a IH]; simpl String.length; [reflexivity |].
  rewrite !Nat2Z.inj_succ. lia.
Qed.

Lemma split_append (c : ascii) (a b : string) :
  occurs c a = false -> Str.split c (a ++ String c b) = a :: Str.split c b.
Proof.
  induction a as [| d a IH]; simpl.
  - intros _. rewrite Ascii.eqb_refl. reflexivity.
  - rewrite orb_false_iff. intros [Hd Ha]. rewrite Hd, (IH Ha). reflexivity.
Qed.

Lemma split_none (c : ascii) (a : string) :
  occurs c a = false -> Str.split c a = [a].
Proof.
  induction a as [| d a IH]; simpl; [reflexivity |].
  rewrite orb_false_iff. intros [Hd Ha]. rewrite Hd, (IH Ha). reflexivity.
Qed.

Lemma replace_append (c : ascii) (r a b : string) :
  occurs c a = false -> Str.replace c r (a ++ b) = a ++ Str.replace c r b.
Proof.
  induction a as [| d a IH]; simpl; [reflexivity |].
  rewrite orb_false_iff. intros [Hd Ha]. rewrite Hd, (IH Ha). reflexivity.
Qed.

Lemma replace_none (c : ascii) (r a : string) :
  occurs c a = false -> Str.replace c r a = a.
Proof.
  induction a as [| d a IH]; simpl; [reflexivity |].
  rewrite orb_false_iff. intros [Hd Ha]. rewrite Hd, (IH Ha). reflexivity.
Qed.

Lemma text_after_append (c : ascii) (a b : string) :
  occurs c a = false -> text_after c (a ++ String c b) = Some b.
Proof.
  induction a as [| d a IH]; simpl.
  - intros _. rewrite Ascii.eqb_refl. reflexivity.
  - rewrite orb_false_iff. intros [Hd Ha]. rewrite Hd. apply IH, Ha.
Qed.

Lemma text_after_none (c : ascii) (a : string) :
  occurs c a = false -> text_after c a = None.
Proof.
  induction a as [| d a IH]; simpl; [reflexivity |].
  rewrite orb_false_iff. intros [Hd Ha]. rewrite Hd. apply IH, Ha.
Qed.

Lemma count_digits_append (a b : string) :
  Str.count_digits (a ++ b) = Str.count_digits a + Str.count_digits b.
Proof.
  induction a as [| d a IH]; simpl; [reflexivity |]. rewrite IH. lia.
Qed.

Lemma digit_not (c d : ascii) :
  Str.is_digit c = false -> Str.is_digit d = true -> Ascii.eqb d c = false.
Proof.
  intros Hc Hd. apply Ascii.eqb_neq. intros ->. congruence.
Qed.

Lemma digit_string_occurs (c : ascii) (s : string) :
  Str.is_digit c = false -> digit_string s -> occurs c s = false.
Proof.
  unfold digit_string. intros Hc. induction s as [| d s IH]; simpl; [reflexivity |].
  rewrite andb_true_iff. intros [Hd Hs].
  rewrite (digit_not c d Hc Hd), (IH Hs). reflexivity.
Qed.

Lemma digit_string_count (s : string) :
  digit_string s -> Str.count_digits s = Str.length s.
Proof.
  unfold digit_string, Str.length. induction s as [| d s IH]; simpl Str.forallb;
    [reflexivity |].
  rewrite andb_true_iff. intros [Hd Hs]. simpl Str.count_digits.
  rewrite Hd, (IH Hs). simpl String.length. rewrite Nat2Z.inj_succ. lia.
Qed.

Lemma digit_string_leading (s rest : string) :
  digit_string s -> leading_digits (s ++ rest) = Str.length s + leading_digits rest.
Proof.
  unfold digit_string, Str.length. induction s as [| d s IH]; simpl Str.forallb;
    [reflexivity |].
  rewrite andb_true_iff. intros [Hd Hs].
  cbn [append leading_digits String.length]. rewrite Hd, (IH Hs), Nat2Z.inj_succ. lia.
Qed.

Lemma digit_string_append (a b : string) :
  digit_string a -> digit_string b -> digit_string (a ++ b).
Proof.
  unfold digit_string. induction a as [| d a IH]; simpl; [auto |].
  rewrite !andb_true_iff. intros [Hd Ha] Hb. split; [exact Hd | apply IH; assumption].
Qed.

Lemma digit_string_take (n : nat) (s : string) :
  digit_string s -> digit_string (Str.take n s).
Proof.
  unfold digit_string. revert s. induction n as [| n IH]; intros [| d s]; simpl;
    try reflexivity.
  rewrite !andb_true_iff. intros [Hd Hs]. split; [exact Hd | apply IH, Hs].
Qed.

Lemma digit_string_drop (n : nat) (s : string) :
  digit_string s -> digit_string (Str.drop n s).
Proof.
  unfold digit_string. revert s. induction n as [| n IH]; intros [| d s]; simpl;
    try reflexivity; try (intros H; exact H).
  rewrite !andb_true_iff. intros [Hd Hs]. apply IH, Hs.
Qed.

Lemma digit_string_repeat (n : nat) : digit_string (Str.repeat "0" n).
Proof.
  unfold digit_string. induction n as [| n IH]; simpl; [reflexivity | exact IH].
Qed.

Lemma take_drop (n : nat) (s : string) : Str.take n s ++ Str.drop n s = s.
Proof.
  revert s. induction n as [| n IH]; intros [| d s]; simpl; try reflexivity.
  rewrite IH. reflexivity.
Qed.

Lemma uint_digit_string (d : Decimal.uint) : digit_string (NilEmpty.string_of_uint d).
Proof.
  unfold digit_string. induction d; simpl; try reflexivity; exact IHd.
Qed.

Lemma digits_digit_string (s : positive) : digit_string (Num.digits s).
Proof. apply uint_digit_string. Qed.

Lemma nat_string_digit_string (z : Z) : digit_string (Num.nat_string z).
Proof.
  unfold Num.nat_string, NilZero.string_of_uint.
  destruct (N.to_uint (Z.to_N z)); try apply uint_digit_string. reflexivity.
Qed.

Lemma nat_string_not_empty (z : Z) : Num.nat_string z <> EmptyString.
Proof.
  unfold Num.nat_string, NilZero.string_of_uint.
  destruct (N.to_uint (Z.to_N z)); simpl; discriminate.
Qed.


Lemma toString_numeral (x : number) :
  finite (Some x) = true ->
  exists negative int frac exp,
    Num.toString x = numeral negative int frac exp
    /\ digit_string int
    /\ (forall f, frac = Some f -> digit_string f)
    /\ (forall minus ds, exp = Some (minus, ds) -> digit_string ds /\ ds <> EmptyString).
Proof.
  destruct x as [negative | negative s e | negative]; [| | discriminate]; intros _.
  - exists false, "0", None, None. repeat split; try discriminate.
  - pose proof (digits_digit_string s) as Hds.
    unfold Num.toString, Num.positive_toString.
    set (ds := Num.digits s) in *. set (n := e + Str.length ds).
    destruct ((Str.length ds <=? n) && (n <=? 21)).
    { exists negative, (ds ++ Str.repeat "0" (Z.to_nat (n - Str.length ds))), None, None.
      unfold numeral. rewrite !append_empty.
      repeat split; try discriminate.
      apply digit_string_append; [exact Hds | apply digit_string_repeat]. }
    destruct ((0 <? n) && (n <=? 21)).
    { exists negative, (Str.take (Z.to_nat n) ds), (Some (Str.drop (Z.to_nat n) ds)), None.
      unfold numeral. rewrite !append_empty.
      repeat split; try discriminate.
      - apply digit_string_take, Hds.
      - intros f [= <-]. apply digit_string_drop, Hds. }
    destruct ((-6 <? n) && (n <=? 0)).
    { exists negative, "0", (Some (Str.repeat "0" (Z.to_nat (- n)) ++ ds)), None.
      unfold numeral. rewrite !append_empty.
      repeat split; try discriminate.
      intros f [= <-]. apply digit_string_append; [apply digit_string_repeat | exact Hds]. }
    assert (Hexp : forall minus ds',
               Some (n - 1 <? 0, Num.nat_string (Z.abs (n - 1))) = Some (minus, ds') ->
               digit_string ds' /\ ds' <> EmptyString).
    { intros minus ds' Heq. injection Heq as _ <-.
      split; [apply nat_string_digit_string | apply nat_string_not_empty]. }
    destruct (Str.length ds =? 1).
    + exists negative, ds, None, (Some (n - 1 <? 0, Num.nat_string (Z.abs (n - 1)))).
      unfold numeral.
      split; [reflexivity |]. split; [exact Hds |]. split; [discriminate | exact Hexp].
    + exists negative, (Str.take 1 ds), (Some (Str.drop 1 ds)),
        (Some (n - 1 <? 0, Num.nat_string (Z.abs (n - 1)))).
      unfold numeral. rewrite !append_assoc.
      split; [reflexivity |]. split; [apply digit_string_take, Hds |].
      split; [| exact Hexp].
      intros f Heq. injection Heq as <-. apply (digit_string_drop 1 ds Hds).
Qed.


(** The mantissa of a well-formed numeral holds no exponent mark, and its
    digits are what is left when the point and the sign are taken out. *)
Section Numerals.

Variables (negative : bool) (int : string) (frac : option string).
Hypothesis int_digits : digit_string int.
Hypothesis frac_digits : forall f, frac = Some f -> digit_string f.

Lemma sign_occurs (c : ascii) :
  Ascii.eqb "-" c = false -> occurs c (Num.sign negative) = false.
Proof.
  intros H. destruct negative; cbn [Num.sign occurs]; [rewrite H |]; reflexivity.
Qed.

Lemma mantissa_occurs (c : ascii) :
  Str.is_digit c = false -> Ascii.eqb "-" c = false -> Ascii.eqb "." c = false ->
  occurs c (numeral negative int frac None) = false.
Proof.
  intros Hdigit Hminus Hpoint. unfold numeral.
  rewrite !occurs_append, (sign_occurs c Hminus), (digit_string_occurs c int Hdigit int_digits).
  destruct frac as [f |]; cbn [occurs append orb]; [| reflexivity].
  rewrite Hpoint, (digit_string_occurs c f Hdigit (frac_digits f eq_refl)).
  reflexivity.
Qed.

Lemma mantissa_has_point :
  occurs "." (numeral negative int frac None)
  = match frac with Some _ => true | None => false end.
Proof.
  unfold numeral.
  rewrite !occurs_append, (sign_occurs "." eq_refl),
    (digit_string_occurs "." int eq_refl int_digits).
  destruct frac; reflexivity.
Qed.

Lemma mantissa_count_digits :
  Str.count_digits (numeral negative int frac None)
  = Str.length int + match frac with Some f => Str.length f | None => 0 end.
Proof.
  unfold numeral. rewrite !count_digits_append, (digit_string_count int int_digits).
  replace (Str.count_digits (Num.sign negative)) with 0 by (destruct negative; reflexivity).
  destruct frac as [f |]; cbn [Str.count_digits append]; [| lia].
  rewrite (digit_string_count f (frac_digits f eq_refl)).
  change (Str.is_digit ".") with false. cbv iota. lia.
Qed.

Lemma mantissa_bare_length :
  bare_length (numeral negative int frac None)
  = Str.length int + match frac with Some f => Str.length f | None => 0 end.
Proof.
  unfold bare_length, numeral. rewrite append_empty.
  assert (Hpoint : Str.replace "." EmptyString
                     (Num.sign negative ++ int
                      ++ match frac with Some f => "." ++ f | None => EmptyString end)
                   = Num.sign negative ++ int
                     ++ match frac with Some f => f | None => EmptyString end).
  { rewrite replace_append by (apply sign_occurs; reflexivity).
    rewrite replace_append
      by (apply digit_string_occurs; [reflexivity | exact int_digits]).
    destruct frac; reflexivity. }
  rewrite Hpoint.
  assert (Hrest : digit_string
                    (int ++ match frac with Some f => f | None => EmptyString end)).
  { apply digit_string_append; [exact int_digits |].
    destruct frac as [f |]; [apply frac_digits |]; reflexivity. }
  assert (Hminus : Str.replace "-" EmptyString
                     (Num.sign negative ++ int
                      ++ match frac with Some f => f | None => EmptyString end)
                   = int ++ match frac with Some f => f | None => EmptyString end).
  { destruct negative; simpl; [reflexivity |].
    apply replace_none, digit_string_occurs; [reflexivity | exact Hrest]. }
  rewrite Hminus, length_append. destruct frac; reflexivity.
Qed.

End Numerals.


(** Reading the exponent back. *)
Lemma is_digit_code (d : ascii) :
  Str.is_digit d = true -> 48 <= Z.of_N (Str.code d) <= 57.
Proof.
  unfold Str.is_digit. rewrite andb_true_iff, !N.leb_le. lia.
Qed.

Lemma digit_value_digit (d : ascii) :
  Str.is_digit d = true -> JS.digit_value 10 d = Some (Z.of_N (Str.code d) - 48).
Proof.
  intros Hd. apply is_digit_code in Hd. unfold JS.digit_value.
  replace ((48 <=? Z.of_N (Str.code d)) && (Z.of_N (Str.code d) <=? 57)) with true
    by (symmetry; apply andb_true_iff; split; apply Z.leb_le; lia).
  replace (Z.of_N (Str.code d) - 48 <? 10) with true
    by (symmetry; apply Z.ltb_lt; lia).
  reflexivity.
Qed.

Lemma read_digits_decimal (ds : string) :
  digit_string ds ->
  forall a, JS.read_digits 10 (Some a) ds = Some (decimal_value a ds).
Proof.
  unfold digit_string. induction ds as [| d ds IH]; simpl Str.forallb; [reflexivity |].
  rewrite andb_true_iff. intros [Hd Hds] a.
  cbn [JS.read_digits decimal_value]. rewrite (digit_value_digit d Hd), Hd.
  apply IH, Hds.
Qed.

Lemma read_digits_start (ds : string) :
  digit_string ds -> ds <> EmptyString ->
  JS.read_digits 10 None ds = Some (decimal_value 0 ds).
Proof.
  destruct ds as [| d ds]; [congruence |]. unfold digit_string. simpl Str.forallb.
  rewrite andb_true_iff. intros [Hd Hds] _.
  cbn [JS.read_digits decimal_value]. rewrite (digit_value_digit d Hd), Hd.
  apply read_digits_decimal, Hds.
Qed.

Lemma decimal_value_nonneg (s : string) (a : Z) : 0 <= a -> 0 <= decimal_value a s.
Proof.
  revert a. induction s as [| d s IH]; intros a Ha; [exact Ha |].
  cbn [decimal_value]. apply IH.
  destruct (Str.is_digit d) eqn:Hd; [| exact Ha].
  apply is_digit_code in Hd. lia.
Qed.

Lemma digit_string_no_hex (marker : ascii) (ds : string) :
  Str.is_digit marker = false -> digit_string ds ->
  Str.starts_with (String "0" (String marker EmptyString)) ds = false.
Proof.
  intros Hmarker. unfold digit_string.
  destruct ds as [| a [| b ds]]; cbn [Str.forallb Str.starts_with];
    try reflexivity.
  - intros _. apply andb_false_r.
  - rewrite !andb_true_iff. intros (_ & Hb & _).
    rewrite (digit_not marker b Hmarker Hb), andb_false_r. reflexivity.
Qed.

Lemma parseInt_exponent (minus : bool) (ds : string) :
  digit_string ds -> ds <> EmptyString ->
  JS.parseInt ((if minus then "-" else "+") ++ ds)
  = Some (if minus then - decimal_value 0 ds else decimal_value 0 ds).
Proof.
  intros Hds Hne. unfold JS.parseInt.
  assert (Hhex : Str.starts_with "0x" ds || Str.starts_with "0X" ds = false).
  { rewrite (digit_string_no_hex "x" ds eq_refl Hds),
      (digit_string_no_hex "X" ds eq_refl Hds). reflexivity. }
  destruct minus; cbn [append JS.skip_spaces];
    [change (Str.is_space "-") with false | change (Str.is_space "+") with false];
    cbv iota;
    [change (Ascii.eqb "-" "-") with true
    | change (Ascii.eqb "+" "-") with false; change (Ascii.eqb "+" "+") with true];
    cbv iota; rewrite Hhex, (read_digits_start ds Hds Hne); reflexivity.
Qed.

(** The decimal string of a finite number, read by the code and by the
    specification. *)
Lemma numeral_exponent (negative : bool) (int : string) (frac : option string)
    (minus : bool) (ds : string) :
  numeral negative int frac (Some (minus, ds))
  = numeral negative int frac None
    ++ String "e" ((if minus then "-" else "+") ++ ds).
Proof. unfold numeral. rewrite !append_assoc. reflexivity. Qed.

Lemma exponent_occurs (c : ascii) (minus : bool) (ds : string) :
  Str.is_digit c = false -> Ascii.eqb "-" c = false -> Ascii.eqb "+" c = false ->
  digit_string ds -> occurs c ((if minus then "-" else "+") ++ ds) = false.
Proof.
  intros Hc Hminus Hplus Hds.
  destruct minus; cbn [append occurs]; rewrite ?Hminus, ?Hplus;
    apply digit_string_occurs; assumption.
Qed.

(** ** Numeric strings *)

Lemma numeric_text_mantissa (negative : bool) (int : string) (frac : option string) :
  numeric_text negative int frac None = numeral negative int frac None.
Proof. reflexivity. Qed.

Lemma numeric_text_exponent (negative : bool) (int : string) (frac : option string)
    (mark : ascii) (sign ds : string) :
  numeric_text negative int frac (Some (mark, sign, ds))
  = numeral negative int frac None ++ String mark (sign ++ ds).
Proof. unfold numeric_text, numeral. rewrite !append_assoc. reflexivity. Qed.

(** The decimal string of a finite number is a numeric string. *)
Lemma toString_numeric (x : number) :
  finite (Some x) = true -> numeric_string (Num.toString x).
Proof.
  intros Hfin.
  destruct (toString_numeral x Hfin)
    as (negative & int & frac & exp & Hx & Hint & Hfrac & Hexp).
  destruct exp as [[minus ds] |].
  - exists negative, int, frac, (Some ("e"%char, if minus then "-" else "+", ds)).
    split; [rewrite Hx, numeral_exponent, numeric_text_exponent; reflexivity |].
    split; [exact Hint |]. split; [exact Hfrac |].
    intros mark sign ds' H. injection H as <- <- <-.
    destruct (Hexp minus ds eq_refl) as [Hds Hne].
    split; [reflexivity |]. split; [destruct minus; simpl; tauto |].
    split; assumption.
  - exists negative, int, frac, None.
    split; [exact Hx |]. split; [exact Hint |]. split; [exact Hfrac |].
    discriminate.
Qed.

Lemma bound_numeric (b : bound) : numeric b -> numeric_string (decimal_string b).
Proof. destruct b; [apply toString_numeric | exact (fun H => H)]. Qed.

Lemma exponent_of_append (a rest : string) (mark : ascii) :
  occurs "e" a = false -> occurs "E" a = false -> is_exponent_mark mark = true ->
  exponent_of (a ++ String mark rest) = Some rest
  /\ mantissa_of (a ++ String mark rest) = a.
Proof.
  intros He HE Hmark. induction a as [| c a IH]; cbn [append exponent_of mantissa_of].
  - rewrite Hmark. split; reflexivity.
  - cbn [occurs] in He, HE. apply orb_false_iff in He, HE.
    destruct He as [Hc He], HE as [HC HE].
    assert (Hcm : is_exponent_mark c = false)
      by (unfold is_exponent_mark; rewrite Hc, HC; reflexivity).
    rewrite Hcm. destruct (IH He HE) as [-> ->]. split; reflexivity.
Qed.

Lemma exponent_of_none (a : string) :
  occurs "e" a = false -> occurs "E" a = false -> exponent_of a = None.
Proof.
  induction a as [| c a IH]; [reflexivity |]. cbn [occurs exponent_of].
  rewrite !orb_false_iff. intros [Hc He] [HC HE].
  unfold is_exponent_mark. rewrite Hc, HC. apply IH; assumption.
Qed.

Lemma signed_digits_occurs (c : ascii) (sign ds : string) :
  Str.is_digit c = false -> Ascii.eqb "-" c = false -> Ascii.eqb "+" c = false ->
  In sign [EmptyString; "+"; "-"] -> digit_string ds ->
  occurs c (sign ++ ds) = false.
Proof.
  intros Hc Hminus Hplus Hsign Hds.
  pose proof (digit_string_occurs c ds Hc Hds) as Hnone.
  destruct Hsign as [<- | [<- | [<- | []]]]; cbn [append occurs];
    rewrite ?Hminus, ?Hplus; exact Hnone.
Qed.

Lemma parseInt_signed (sign ds : string) :
  In sign [EmptyString; "+"; "-"] -> digit_string ds -> ds <> EmptyString ->
  exists z, JS.parseInt (sign ++ ds) = Some z /\ Z.abs z = decimal_value 0 ds.
Proof.
  intros Hsign Hds Hne.
  pose proof (decimal_value_nonneg ds 0 (Z.le_refl 0)) as Hnonneg.
  destruct Hsign as [<- | [<- | [<- | []]]].
  - exists (decimal_value 0 ds). split; [| lia].
    cbn [append]. unfold JS.parseInt.
    assert (Hskip : JS.skip_spaces ds = ds).
    { destruct ds as [| d ds]; [reflexivity |]. cbn [JS.skip_spaces].
      unfold digit_string in Hds. cbn [Str.forallb] in Hds.
      apply andb_true_iff in Hds. destruct Hds as [Hd _].
      replace (Str.is_space d) with false; [reflexivity |].
      symmetry. apply not_true_is_false. intros Hspace.
      apply is_digit_code in Hd. unfold Str.is_space in Hspace.
      rewrite orb_true_iff, andb_true_iff, !N.leb_le, N.eqb_eq in Hspace. lia. }
    rewrite Hskip.
    destruct ds as [| d ds']; [congruence |].
    assert (Hd : Str.is_digit d = true).
    { unfold digit_string in Hds. cbn [Str.forallb] in Hds.
      apply andb_true_iff in Hds. apply Hds. }
    rewrite (digit_not "-" d eq_refl Hd), (digit_not "+" d eq_refl Hd).
    rewrite (digit_string_no_hex "x" _ eq_refl Hds),
      (digit_string_no_hex "X" _ eq_refl Hds). cbn [orb].
    rewrite (read_digits_start _ Hds Hne). reflexivity.
  - exists (decimal_value 0 ds). split; [| lia].
    apply (parseInt_exponent false ds Hds Hne).
  - exists (- decimal_value 0 ds). split; [| lia].
    apply (parseInt_exponent true ds Hds Hne).
Qed.

Lemma decimal_value_signed (sign ds : string) :
  In sign [EmptyString; "+"; "-"] ->
  decimal_value 0 (sign ++ ds) = decimal_value 0 ds.
Proof. intros [<- | [<- | [<- | []]]]; reflexivity. Qed.

(** The precision that the code computes is the digit count. *)
Lemma precision_text (t : string) :
  numeric_string t ->
  (let maxStr := Str.replace "E" "e" t in
   if Str.includes "e" maxStr then
     option_map
       (fun exp => Z.abs exp + bare_length (nth 0 (Str.split "e" maxStr) EmptyString))
       (JS.parseInt (nth 1 (Str.split "e" maxStr) EmptyString))
   else Some (bare_length maxStr))
  = Some (digits_in t).
Proof.
  intros (negative & int & frac & exp & -> & Hint & Hfrac & Hexp).
  pose proof (mantissa_occurs negative int frac Hint Hfrac) as Hmantissa.
  unfold digits_in. cbv zeta.
  destruct exp as [[[mark sign] ds] |].
  - destruct (Hexp mark sign ds eq_refl) as (Hmark & Hsign & Hds & Hne).
    rewrite numeric_text_exponent.
    set (mantissa := numeral negative int frac None) in *.
    assert (Hnormal : Str.replace "E" "e" (mantissa ++ String mark (sign ++ ds))
                      = mantissa ++ String "e" (sign ++ ds)).
    { rewrite replace_append by (apply Hmantissa; reflexivity).
      f_equal. unfold is_exponent_mark in Hmark. apply orb_true_iff in Hmark.
      destruct Hmark as [Hmark | Hmark]; apply Ascii.eqb_eq in Hmark; subst mark.
      - apply replace_none. cbn [occurs].
        change (Ascii.eqb "e" "E") with false.
        apply signed_digits_occurs; try reflexivity; assumption.
      - cbn [Str.replace]. change (Ascii.eqb "E" "E") with true. reflexivity. }
    rewrite Hnormal.
    destruct (exponent_of_append mantissa (sign ++ ds) mark
                (Hmantissa "e"%char eq_refl eq_refl eq_refl)
                (Hmantissa "E"%char eq_refl eq_refl eq_refl) Hmark) as [-> ->].
    rewrite includes_char, occurs_append. cbn [occurs].
    change (Ascii.eqb "e" "e") with true. rewrite orb_true_r.
    rewrite (split_append "e" _ _ (Hmantissa "e"%char eq_refl eq_refl eq_refl)).
    rewrite (split_none "e")
      by (apply signed_digits_occurs; try reflexivity; assumption).
    cbn [nth].
    destruct (parseInt_signed sign ds Hsign Hds Hne) as (z & -> & Hz).
    cbn [option_map]. rewrite Hz, (decimal_value_signed sign ds Hsign).
    unfold mantissa.
    rewrite (mantissa_bare_length negative int frac Hint Hfrac).
    rewrite (mantissa_count_digits negative int frac Hint Hfrac). reflexivity.
  - rewrite numeric_text_mantissa.
    rewrite replace_none by (apply Hmantissa; reflexivity).
    rewrite includes_char, (Hmantissa "e"%char eq_refl eq_refl eq_refl).
    rewrite (exponent_of_none _ (Hmantissa "e"%char eq_refl eq_refl eq_refl)
               (Hmantissa "E"%char eq_refl eq_refl eq_refl)).
    rewrite (mantissa_bare_length negative int frac Hint Hfrac).
    rewrite (mantissa_count_digits negative int frac Hint Hfrac). reflexivity.
Qed.

(** In plain notation the scale that the code computes is the count of
    digits after the point. *)
Lemma scale_text (t : string) :
  numeric_string t -> plain t = true -> fraction_in t = true ->
  fraction_length t = fraction_digits t.
Proof.
  intros (negative & int & frac & exp & -> & Hint & Hfrac & Hexp).
  pose proof (mantissa_occurs negative int frac Hint Hfrac) as Hmantissa.
  unfold plain, fraction_in, fraction_digits, fraction_length.
  destruct exp as [[[mark sign] ds] |].
  { destruct (Hexp mark sign ds eq_refl) as (Hmark & _).
    rewrite numeric_text_exponent.
    destruct (exponent_of_append (numeral negative int frac None) (sign ++ ds) mark
                (Hmantissa "e"%char eq_refl eq_refl eq_refl)
                (Hmantissa "E"%char eq_refl eq_refl eq_refl) Hmark) as [-> _].
    discriminate. }
  intros _. rewrite numeric_text_mantissa.
  rewrite (mantissa_has_point negative int frac Hint Hfrac).
  destruct frac as [f |]; [intros _ | discriminate].
  assert (Hshape : numeral negative int (Some f) None
                   = (Num.sign negative ++ int) ++ String "." f).
  { unfold numeral. rewrite append_empty, append_assoc. reflexivity. }
  assert (Hhead : occurs "." (Num.sign negative ++ int) = false).
  { rewrite occurs_append, (sign_occurs negative "." eq_refl).
    apply digit_string_occurs; [reflexivity | exact Hint]. }
  assert (Hf : digit_string f) by (apply Hfrac; reflexivity).
  rewrite Hshape, (split_append "." _ f Hhead), (text_after_append "." _ f Hhead).
  rewrite (split_none "." f) by (apply digit_string_occurs; [reflexivity | exact Hf]).
  cbn [nth_error].
  rewrite <- (append_empty f) at 2. rewrite (digit_string_leading f EmptyString Hf).
  simpl leading_digits. lia.
Qed.

(** ** Decimal resolution *)

Lemma bound_toString (M : bound) :
  JS.toString "maximum" (bound_json M) = Ok (decimal_string M).
Proof. destruct M; reflexivity. Qed.

Lemma bound_truthy (M : bound) : JS.truthy (Some (bound_json M)) = counts M.
Proof. destruct M; reflexivity. Qed.

Lemma fraction_counts (M : bound) :
  fraction_in (decimal_string M) = true -> counts M = true.
Proof.
  destruct M as [[] | []]; try reflexivity; discriminate.
Qed.

Lemma fraction_number (m : number) :
  fraction_in (Num.toString m) = true ->
  Num.truthy m = true /\ numeric_string (Num.toString m).
Proof.
  intros H. split.
  - destruct m; try reflexivity. discriminate.
  - apply toString_numeric. destruct m as [| | []]; try reflexivity; discriminate.
Qed.

(** The three steps of the block: the scale from [multipleOf], else from
    [maximum], then the precision. *)
Lemma number_type_bounds (multipleOf : option number) (maximum : option bound) :
  (forall M, maximum = Some M -> numeric M) ->
  (forall t, fraction_supplier multipleOf maximum = Some t -> plain t = true) ->
  number_type (option_map bound_json maximum) (option_map JNum multipleOf)
  = Ok (match fraction_supplier multipleOf maximum with
        | Some t => number_type_text (bound_precision maximum) (fraction_digits t)
        | None => "NUMBER"
        end).
Proof.
  intros Hnumeric Hplain.
  assert (Hprecision :
    forall s : Z,
      (precision <-
         match option_map bound_json maximum with
         | Some m =>
             if JS.truthy (option_map bound_json maximum) then
               s <- JS.toString "maximum" m ;;
               let maxStr := Str.replace "E" "e" s in
               if Str.includes "e" maxStr then
                 let pieces := Str.split "e" maxStr in
                 let mantissa := nth 0 pieces EmptyString in
                 let exponent := nth 1 pieces EmptyString in
                 Ok (option_map (fun exp => Z.abs exp + bare_length mantissa)
                                (JS.parseInt exponent))
               else Ok (Some (bare_length maxStr))
             else Ok (Some 38)
         | None => Ok (Some 38)
         end ;;
       let precision := option_map (fun p => Z.min p 38) precision in
       Ok ("NUMBER(" ++ JS.show precision ++ ", " ++ JS.show (Some s) ++ ")"))
      = Ok (number_type_text (bound_precision maximum) s)).
  { intros s. unfold bound_precision, number_type_text.
    destruct maximum as [M |]; [| reflexivity].
    cbn [option_map]. rewrite (bound_truthy M), (bound_toString M).
    destruct (counts M); [| reflexivity].
    cbn [bind].
    pose proof (precision_text (decimal_string M)
                  (bound_numeric M (Hnumeric M eq_refl))) as HM.
    cbv zeta in HM.
    destruct (Str.includes "e" (Str.replace "E" "e" (decimal_string M)));
      rewrite HM; reflexivity. }
  assert (Hscale : forall M, maximum = Some M ->
                     fraction_in (decimal_string M) = true ->
                     plain (decimal_string M) = true ->
                     fraction_length (decimal_string M)
                     = fraction_digits (decimal_string M)).
  { intros M HM Hfrac Hp. apply scale_text; [| exact Hp | exact Hfrac].
    apply bound_numeric, Hnumeric, HM. }
  unfold number_type, fraction_supplier in *. cbv zeta in Hplain.
  (* the scale from [multipleOf] *)
  match goal with
  | |- bind ?first _ = _ =>
      assert (Hfirst :
        first = Ok (match multipleOf with
                    | Some m =>
                        if fraction_in (Num.toString m)
                        then (true, fraction_digits (Num.toString m))
                        else (false, 0)
                    | None => (false, 0)
                    end))
  end.
  { destruct multipleOf as [m |]; [| reflexivity].
    cbn [option_map JS.truthy JS.toString JS.ToString].
    destruct (fraction_in (Num.toString m)) eqn:Hm.
    - destruct (fraction_number m Hm) as [-> Hnum]. cbn [bind].
      rewrite includes_char. fold (fraction_in (Num.toString m)). rewrite Hm.
      rewrite (scale_text _ Hnum (Hplain _ eq_refl) Hm). reflexivity.
    - destruct (Num.truthy m); [| reflexivity]. cbn [bind].
      rewrite includes_char. fold (fraction_in (Num.toString m)). rewrite Hm.
      reflexivity. }
  rewrite Hfirst. clear Hfirst. cbn [bind].
  destruct multipleOf as [m |];
    [destruct (fraction_in (Num.toString m)) eqn:Hm |].
  - (* the fraction of [multipleOf] *)
    cbn [negb andb].
    destruct maximum as [M |]; cbn [option_map bind] in *; apply Hprecision.
  - (* no fraction in [multipleOf]: the scale from [maximum] *)
    cbn [negb andb].
    destruct maximum as [M |]; cbn [option_map bind] in *; [| reflexivity].
    rewrite (bound_truthy M) in *. rewrite (bound_toString M) in *.
    destruct (fraction_in (decimal_string M)) eqn:Hfrac.
    + rewrite (fraction_counts M Hfrac) in *. cbn [bind] in *.
      rewrite includes_char. fold (fraction_in (decimal_string M)). rewrite Hfrac.
      cbn [bind]. rewrite (Hscale M eq_refl Hfrac (Hplain _ eq_refl)).
      exact (Hprecision (fraction_digits (decimal_string M))).
    + destruct (counts M); [| reflexivity]. cbn [bind].
      rewrite includes_char. fold (fraction_in (decimal_string M)). rewrite Hfrac.
      reflexivity.
  - (* no [multipleOf]: the scale from [maximum] *)
    cbn [negb andb].
    destruct maximum as [M |]; cbn [option_map bind] in *; [| reflexivity].
    rewrite (bound_truthy M) in *. rewrite (bound_toString M) in *.
    destruct (fraction_in (decimal_string M)) eqn:Hfrac.
    + rewrite (fraction_counts M Hfrac) in *. cbn [bind] in *.
      rewrite includes_char. fold (fraction_in (decimal_string M)). rewrite Hfrac.
      cbn [bind]. rewrite (Hscale M eq_refl Hfrac (Hplain _ eq_refl)).
      exact (Hprecision (fraction_digits (decimal_string M))).
    + destruct (counts M); [| reflexivity]. cbn [bind].
      rewrite includes_char. fold (fraction_in (decimal_string M)). rewrite Hfrac.
      reflexivity.
Qed.

(** C5, as amended: for a descriptor of type number (no date-time format,
    no epoch-millis hint) whose [multipleOf] is absent or a number and
    whose [maximum] is absent, a finite number or a numeric string: when
    the decimal string of neither field has a fractional part the type is
    plain [NUMBER]; otherwise, the string of the supplying field being in
    plain notation, it is [NUMBER(precision, scale)] with scale the count
    of digits after the decimal point of that field, and precision 38 when
    [maximum] is absent, zero or the empty string, else the digit count of
    the decimal string of [maximum] (in scientific notation, with the mark
    in either case, the magnitude of the exponent plus the digit count of
    the mantissa), at most 38. *)
Theorem decimal_resolution (d : json) (multipleOf : option number) (maximum : option bound) :
  JS.is_string (JS.field d "format") "date-time" = false ->
  JS.is_string (JS.field d "x-dateTimeFormat") "epoch-millis" = false ->
  JS.field d "type" = Some (JStr "number") ->
  JS.field d "multipleOf" = option_map JNum multipleOf ->
  JS.field d "maximum" = option_map bound_json maximum ->
  (forall M, maximum = Some M -> numeric M) ->
  (forall t, fraction_supplier multipleOf maximum = Some t -> plain t = true) ->
  mapM3TypeToSnowflake d
  = Ok (match fraction_supplier multipleOf maximum with
        | Some t => number_type_text (bound_precision maximum) (fraction_digits t)
        | None => "NUMBER"
        end).
Proof.
  intros Hformat Hepoch Htype Hmul Hmax Hnumeric Hplain.
  destruct d; try discriminate.
  unfold mapM3TypeToSnowflake. cbn [bind].
  rewrite Hformat, Hepoch, Htype, Hmul, Hmax. cbn [JS.is_string].
  change ("number" =? "boolean")%string with false.
  change ("number" =? "integer")%string with false.
  change ("number" =? "number")%string with true.
  cbv iota. apply number_type_bounds; assumption.
Qed.

(** The two examples of the specification, and two with a [maximum]
    given as a string: in plain notation, and with an exponent. *)
Lemma decimal_resolution_witness :
  mapM3TypeToSnowflake
    (number_descriptor (Some (Num.of_decimal 1 (-2))) (Some (Num.of_decimal 99999 (-2))))
  = Ok "NUMBER(5, 2)"
  /\ mapM3TypeToSnowflake (number_descriptor None (Some (Num.of_Z 500))) = Ok "NUMBER"
  /\ mapM3TypeToSnowflake (JObj [("type", JStr "number"); ("maximum", JStr "999.99")])
     = Ok "NUMBER(5, 2)"
  /\ mapM3TypeToSnowflake
       (JObj [("type", JStr "number"); ("multipleOf", JNum (Num.of_decimal 1 (-2)));
              ("maximum", JStr "1.5E3")])
     = Ok "NUMBER(5, 2)".
Proof.
  split; [| split; [| split]].
  - apply (decimal_resolution
             (number_descriptor (Some (Num.of_decimal 1 (-2)))
                                (Some (Num.of_decimal 99999 (-2))))
             (Some (Num.of_decimal 1 (-2))) (Some (Number (Num.of_decimal 99999 (-2)))));
      try reflexivity.
    + intros M H. injection H as <-. reflexivity.
    + intros t H. injection H as <-. reflexivity.
  - apply (decimal_resolution (number_descriptor None (Some (Num.of_Z 500)))
             None (Some (Number (Num.of_Z 500)))); try reflexivity.
    + intros M H. injection H as <-. reflexivity.
    + intros t H. discriminate H.
  - apply (decimal_resolution
             (JObj [("type", JStr "number"); ("maximum", JStr "999.99")])
             None (Some (Numeral "999.99"))); try reflexivity.
    + intros M H. injection H as <-.
      exists false, "999", (Some "99"), None.
      split; [reflexivity |]. split; [reflexivity |].
      split; [intros f Hf; injection Hf as <-; reflexivity | discriminate].
    + intros t H. injection H as <-. reflexivity.
  - apply (decimal_resolution
             (JObj [("type", JStr "number"); ("multipleOf", JNum (Num.of_decimal 1 (-2)));
                    ("maximum", JStr "1.5E3")])
             (Some (Num.of_decimal 1 (-2))) (Some (Numeral "1.5E3"))); try reflexivity.
    + intros M H. injection H as <-.
      exists false, "1", (Some "5"), (Some ("E"%char, EmptyString, "3")).
      split; [reflexivity |]. split; [reflexivity |].
      split; [intros f Hf; injection Hf as <-; reflexivity |].
      intros mark sign ds Hexp. injection Hexp as <- <- <-.
      repeat split; [simpl; tauto | discriminate].
    + intros t H. injection H as <-. reflexivity.
Defined.

(** C5 as stated fails when [maximum] is zero: the precision stays 38,
    where the digit count of the decimal string of [maximum] is 1. *)
Lemma zero_maximum_keeps_precision_38 :
  mapM3TypeToSnowflake
    (number_descriptor (Some (Num.of_decimal 5 (-1))) (Some (Zero false)))
  = Ok "NUMBER(38, 1)"
  /\ stated_number_type (Some (Num.of_decimal 5 (-1))) (Some (Number (Zero false)))
     = "NUMBER(1, 1)".
Proof. split; vm_compute; reflexivity. Qed.

(** Where the supplying field prints in scientific notation the scale is
    the length of everything after the point, exponent included: 1.5e-7
    has one digit after the point in its decimal string and gets scale 4. *)
Lemma scientific_scale_counts_exponent :
  Num.toString (Num.of_decimal 15 (-8)) = "1.5e-7"
  /\ fraction_digits (Num.toString (Num.of_decimal 15 (-8))) = 1
  /\ mapM3TypeToSnowflake (number_descriptor (Some (Num.of_decimal 15 (-8))) None)
     = Ok "NUMBER(38, 4)".
Proof. repeat split; vm_compute; reflexivity. Qed.

(** A plus sign before the digits of a string is counted with them: the
    decimal string +5.5 has two digits and gets precision 3. *)
Lemma plus_sign_counts_as_digit :
  digits_in "+5.5" = 2
  /\ mapM3TypeToSnowflake (JObj [("type", JStr "number"); ("maximum", JStr "+5.5")])
     = Ok "NUMBER(3, 1)".
Proof. split; vm_compute; reflexivity. Qed.

(** So are the letters of Infinity, the decimal string of a [maximum]
    too large for a double. *)
Lemma infinity_counts_its_letters :
  digits_in (Num.toString (Infinite false)) = 0
  /\ mapM3TypeToSnowflake
       (number_descriptor (Some (Num.of_decimal 1 (-2))) (Some (Infinite false)))
     = Ok "NUMBER(8, 2)".
Proof. split; vm_compute; reflexivity. Qed.

Lemma date_time_rules_come_first_witness :
  mapM3TypeToSnowflake
    (JObj [("type", JStr "integer"); ("format", JStr "date-time")])
  = Ok "DATETIME"
  /\ mapM3TypeToSnowflake
       (JObj [("type", JStr "number"); ("x-dateTimeFormat", JStr "epoch-millis")])
     = Ok "NUMBER".
Proof.
  split.
  - apply (proj1 (date_time_rules_come_first
                    (JObj [("type", JStr "integer"); ("format", JStr "date-time")]))).
    reflexivity.
  - apply (proj2 (date_time_rules_come_first
                    (JObj [("type", JStr "number");
                           ("x-dateTimeFormat", JStr "epoch-millis")])));
      reflexivity.
Defined.

Lemma mapM3TypeToSnowflake_total_witness :
  well_formed_descriptor (JObj [("type", JStr "array"); ("maximum", JStr "12.5")]) = true
  /\ mapM3TypeToSnowflake (JObj [("type", JStr "array"); ("maximum", JStr "12.5")])
     = Ok "STRING".
Proof.
  split; [reflexivity |].
  apply (mapM3TypeToSnowflake_total
           (JObj [("type", JStr "array"); ("maximum", JStr "12.5")]));
    try reflexivity.
  intros t Ht. simpl in Ht.
  repeat (destruct Ht as [<- | Ht]; [reflexivity |]). destruct Ht.
Defined.

(** ** The primary-key suggestion *)










(** * Further properties of the handlers *)

(** ** The whole conversion *)

(** X1: for a well-formed schema [convertToSnowflake] clears the error
    and writes the two comment lines, the CREATE OR ALTER TABLE header, one
    line per property in sorted order, the closing parenthesis, the table
    options when the description is not empty, and the primary-key
    suggestion; the other fields of the state stay as they are. *)
Theorem convertToSnowflake_well_formed
    (JSON_parse : string -> result json) (st : State) (schema : json) :
  JSON_parse (jsonInput st) = Ok schema ->
  well_formed_schema schema = true ->
  convertToSnowflake JSON_parse st
  = (Ok tt,
     mkState (jsonInput st)
             (ddl_text (tableName st) schema (columns schema))
             (tableName st) EmptyString (silverSql st)).
Proof.
  intros Hparse Hwf. apply (convertToSnowflake_parsed _ _ schema); [exact Hparse |].
  apply generateDdl_well_formed, Hwf.
Qed.

Lemma convertToSnowflake_well_formed_witness :
  convertToSnowflake loadExample_parse (snd (loadExample (example_state "{")))
  = (Ok tt,
     mkState loadExample_text (supplier_statement ++ supplier_suggestion)
             EmptyString EmptyString EmptyString).
Proof.
  rewrite (convertToSnowflake_well_formed loadExample_parse
             (snd (loadExample (example_state "{"))) supplier_schema eq_refl eq_refl).
  reflexivity.
Defined.

(** ** The table name *)

Lemma upper_char_not_lower (c : ascii) : is_lower (Str.upper_char c) = false.
Proof.
  destruct c as [[] [] [] [] [] [] [] []]; reflexivity.
Qed.

Lemma upper_char_space (c : ascii) : Str.is_space (Str.upper_char c) = Str.is_space c.
Proof.
  destruct c as [[] [] [] [] [] [] [] []]; reflexivity.
Qed.

Lemma forallb_append (p : ascii -> bool) (a b : string) :
  Str.forallb p (a ++ b) = Str.forallb p a && Str.forallb p b.
Proof.
  induction a as [| c a IH]; simpl; [reflexivity |].
  rewrite IH, andb_assoc. reflexivity.
Qed.

Lemma replace_spaces_upper (in_run : bool) (s : string) :
  Str.forallb table_character
    (Str.replace_spaces "_" in_run (Str.toUpperCase s)) = true.
Proof.
  revert in_run. induction s as [| c s IH]; intros in_run; [reflexivity |].
  cbn [Str.toUpperCase Str.map Str.replace_spaces].
  fold (Str.toUpperCase s).
  destruct (Str.is_space (Str.upper_char c)) eqn:Hspace.
  - rewrite forallb_append, IH. destruct in_run; reflexivity.
  - cbn [Str.forallb]. rewrite IH. unfold table_character.
    rewrite Hspace, upper_char_not_lower. reflexivity.
Qed.

(** X2: whenever the table name is resolved it is not empty; a name
    typed by the user is taken as it is; with no typed name the result,
    taken from the title or the default, holds no white space and no
    lower-case letter. *)
Theorem table_name_resolved (tableName : string) (schema : json) (table : string) :
  table_name tableName schema = Ok table ->
  table <> EmptyString
  /\ (tableName <> EmptyString -> table = tableName)
  /\ (tableName = EmptyString -> Str.forallb table_character table = true).
Proof.
  unfold table_name. destruct (String.eqb_spec tableName "") as [-> | Hne]; cbn [negb].
  - destruct (JS.get schema "title") as [title | |]; cbn [bind]; try discriminate.
    assert (Hderived : forall derived,
              Str.forallb table_character derived = true ->
              (if negb (derived =? "")%string then Ok derived else Ok "UNKNOWN_TABLE")
              = Ok table ->
              table <> "" /\ ("" <> "" -> table = "")
              /\ ("" = "" -> Str.forallb table_character table = true)).
    { intros derived Hchars.
      destruct (String.eqb_spec derived "") as [-> | Hd]; cbn [negb]; intros [= <-].
      - repeat split; [discriminate | congruence].
      - repeat split; [exact Hd | congruence | intros _; exact Hchars]. }
    destruct title as [[] |]; cbn [bind]; try discriminate;
      apply Hderived; try reflexivity.
    apply replace_spaces_upper.
  - intros [= <-]. repeat split; [exact Hne | congruence].
Qed.

Lemma table_name_resolved_witness :
  table_name EmptyString supplier_schema = Ok "SUPPLIER" /\ "SUPPLIER" <> EmptyString.
Proof.
  split; [reflexivity |].
  apply (table_name_resolved EmptyString supplier_schema "SUPPLIER"). reflexivity.
Defined.

(** ** The range of the type mapper *)

Lemma bind_Ok {A B : Type} (r : result A) (k : A -> result B) (b : B) :
  bind r k = Ok b -> exists a, r = Ok a /\ k a = Ok b.
Proof. destruct r as [a | |]; simpl; try discriminate. intros H. exists a. auto. Qed.

Lemma length_nonneg (s : string) : 0 <= Str.length s.
Proof. unfold Str.length. lia. Qed.

Lemma fraction_length_nonneg (s : string) : 0 <= fraction_length s.
Proof.
  unfold fraction_length. destruct (nth_error (Str.split "." s) 1); [| lia].
  apply length_nonneg.
Qed.

Lemma bare_length_nonneg (s : string) : 0 <= bare_length s.
Proof. apply length_nonneg. Qed.

Lemma number_type_range (maximum multipleOf : value) (t : string) :
  number_type maximum multipleOf = Ok t ->
  t = "NUMBER"
  \/ exists (precision : option Z) (scale : Z),
       t = "NUMBER(" ++ JS.show precision ++ ", " ++ JS.show (Some scale) ++ ")"
       /\ 0 <= scale
       /\ (forall p, precision = Some p -> 0 <= p <= 38).
Proof.
  unfold number_type. intros H.
  apply bind_Ok in H. destruct H as ([hasDecimals1 scale1] & Hfirst & H).
  assert (Hscale1 : 0 <= scale1).
  { destruct multipleOf as [m |]; [| injection Hfirst as _ <-; lia].
    destruct (JS.truthy (Some m)); [| injection Hfirst as _ <-; lia].
    apply bind_Ok in Hfirst. destruct Hfirst as (s & _ & Hfirst).
    destruct (Str.includes "." s); injection Hfirst as _ <-;
      [apply fraction_length_nonneg | lia]. }
  apply bind_Ok in H. destruct H as ([hasDecimals scale] & Hsecond & H).
  assert (Hscale : 0 <= scale).
  { destruct maximum as [m |]; [| injection Hsecond as _ <-; exact Hscale1].
    destruct (negb hasDecimals1 && JS.truthy (Some m));
      [| injection Hsecond as _ <-; exact Hscale1].
    apply bind_Ok in Hsecond. destruct Hsecond as (s & _ & Hsecond).
    destruct (Str.includes "." s); injection Hsecond as _ <-;
      [apply fraction_length_nonneg | exact Hscale1]. }
  destruct hasDecimals; [| injection H as <-; left; reflexivity].
  apply bind_Ok in H. destruct H as (precision & Hprecision & H).
  injection H as <-. right.
  exists (option_map (fun p => Z.min p 38) precision), scale.
  split; [reflexivity |]. split; [exact Hscale |].
  assert (Hp : forall p, precision = Some p -> 0 <= p).
  { destruct maximum as [m |]; [| injection Hprecision as <-; intros p [= <-]; lia].
    destruct (JS.truthy (Some m)); [| injection Hprecision as <-; intros p [= <-]; lia].
    apply bind_Ok in Hprecision. destruct Hprecision as (s & _ & Hprecision).
    cbv zeta in Hprecision.
    destruct (Str.includes "e" (Str.replace "E" "e" s)); injection Hprecision as <-.
    - destruct (JS.parseInt _) as [exp |]; cbn [option_map]; [| discriminate].
      intros p [= <-].
      pose proof (bare_length_nonneg (nth 0 (Str.split "e" (Str.replace "E" "e" s)) "")).
      lia.
    - intros p [= <-]. apply bare_length_nonneg. }
  intros p. destruct precision as [p0 |]; cbn [option_map]; [| discriminate].
  intros [= <-]. specialize (Hp p0 eq_refl). lia.
Qed.

(** X3: whatever the descriptor, a type that the mapper returns is one
    of DATETIME, NUMBER, BOOLEAN, INTEGER and STRING, or NUMBER(p, s) with
    a scale that is not negative and a precision that is NaN or lies
    between 0 and 38. *)
Theorem mapM3TypeToSnowflake_range (property : json) (t : string) :
  mapM3TypeToSnowflake property = Ok t ->
  In t ["DATETIME"; "NUMBER"; "BOOLEAN"; "INTEGER"; "STRING"]
  \/ exists (precision : option Z) (scale : Z),
       t = "NUMBER(" ++ JS.show precision ++ ", " ++ JS.show (Some scale) ++ ")"
       /\ 0 <= scale
       /\ (forall p, precision = Some p -> 0 <= p <= 38).
Proof.
  unfold mapM3TypeToSnowflake. intros H.
  apply bind_Ok in H. destruct H as (_ & _ & H).
  repeat match type of H with
         | (if ?c then _ else _) = Ok t => destruct c
         end;
    try (injection H as <-; left; simpl; tauto).
  apply number_type_range in H. destruct H as [-> | H]; [left; simpl; tauto | right; exact H].
Qed.

Lemma mapM3TypeToSnowflake_range_witness :
  In "NUMBER(5, 2)" ["DATETIME"; "NUMBER"; "BOOLEAN"; "INTEGER"; "STRING"]
  \/ exists (precision : option Z) (scale : Z),
       "NUMBER(5, 2)" = "NUMBER(" ++ JS.show precision ++ ", " ++ JS.show (Some scale) ++ ")"
       /\ 0 <= scale
       /\ (forall p, precision = Some p -> 0 <= p <= 38).
Proof.
  apply (mapM3TypeToSnowflake_range
           (number_descriptor (Some (Num.of_decimal 1 (-2)))
                              (Some (Num.of_decimal 99999 (-2))))).
  vm_compute. reflexivity.
Defined.

(** ** A maximum written as a string *)

Lemma append_not_empty (a : string) (c : ascii) (b : string) :
  a ++ String c b <> EmptyString.
Proof. destruct a; discriminate. Qed.

Lemma digits_not_empty (s : positive) : Num.digits s <> EmptyString.
Proof.
  unfold Num.digits. pose proof (Unsigned.to_uint_nonnil s) as H.
  destruct (Pos.to_uint s); simpl; congruence.
Qed.

Lemma toString_not_empty (x : number) : Num.toString x <> EmptyString.
Proof.
  destruct x as [negative | negative s e | negative]; simpl Num.toString.
  - discriminate.
  - unfold Num.positive_toString.
    pose proof (digits_not_empty s) as Hds.
    repeat match goal with
           | |- context [if ?c then _ else _] => destruct c
           end;
      destruct negative; cbn [Num.sign append]; try discriminate;
      try apply append_not_empty.
    destruct (Num.digits s); [congruence | discriminate].
  - destruct negative; discriminate.
Qed.

(** X4: a [maximum] written as the decimal string of a non-zero
    number gives the same type as that number: the code reads both through
    [toString]. *)
Theorem maximum_as_string (d1 d2 : json) (x : number) :
  Num.truthy x = true ->
  JS.field d1 "maximum" = Some (JNum x) ->
  JS.field d2 "maximum" = Some (JStr (Num.toString x)) ->
  JS.field d1 "type" = JS.field d2 "type" ->
  JS.field d1 "format" = JS.field d2 "format" ->
  JS.field d1 "multipleOf" = JS.field d2 "multipleOf" ->
  JS.field d1 "x-dateTimeFormat" = JS.field d2 "x-dateTimeFormat" ->
  mapM3TypeToSnowflake d1 = mapM3TypeToSnowflake d2.
Proof.
  intros Hx H1 H2 Htype Hformat Hmul Hepoch.
  destruct d1; try discriminate. destruct d2; try discriminate.
  unfold mapM3TypeToSnowflake. cbn [bind].
  rewrite Htype, Hformat, Hmul, Hepoch, H1, H2.
  assert (Hnumber : number_type (Some (JNum x)) (JS.field (JObj fields0) "multipleOf")
                    = number_type (Some (JStr (Num.toString x)))
                        (JS.field (JObj fields0) "multipleOf")).
  { unfold number_type. cbn [JS.truthy JS.toString JS.ToString].
    rewrite Hx.
    replace (negb (Num.toString x =? "")%string) with true; [reflexivity |].
    symmetry. apply negb_true_iff, String.eqb_neq, toString_not_empty. }
  rewrite Hnumber. reflexivity.
Qed.

Lemma maximum_as_string_witness :
  mapM3TypeToSnowflake
    (JObj [("type", JStr "number"); ("maximum", JNum (Num.of_decimal 99999 (-2)))])
  = mapM3TypeToSnowflake
      (JObj [("type", JStr "number"); ("maximum", JStr "999.99")]).
Proof.
  apply (maximum_as_string
           (JObj [("type", JStr "number"); ("maximum", JNum (Num.of_decimal 99999 (-2)))])
           (JObj [("type", JStr "number"); ("maximum", JStr "999.99")])
           (Num.of_decimal 99999 (-2))); reflexivity.
Defined.

(** ** What the handlers leave behind *)

Lemma generateDdl_starts (tableName : string) (schema : json) (sql : string) :
  generateDdl tableName schema = Ok sql -> exists rest, sql = "-- Table: " ++ rest.
Proof.
  unfold generateDdl. intros H.
  apply bind_Ok in H. destruct H as (table & _ & H).
  apply bind_Ok in H. destruct H as (properties & _ & H).
  apply bind_Ok in H. destruct H as (required & _ & H).
  apply bind_Ok in H. destruct H as (description & _ & H).
  apply bind_Ok in H. destruct H as (shown & _ & H).
  apply bind_Ok in H. destruct H as (sorted & _ & H).
  apply bind_Ok in H. destruct H as (lines & _ & H).
  apply bind_Ok in H. destruct H as (text & Htext & H).
  assert (Hstart : exists rest, text = "-- Table: " ++ rest).
  { cbv zeta in Htext.
    destruct description as [d |];
      [destruct (JS.truthy (Some d));
         [apply bind_Ok in Htext; destruct Htext as (comment & _ & Htext) | ] | ];
      injection Htext as <-; eexists; reflexivity. }
  destruct Hstart as (rest & ->).
  apply bind_Ok in H. destruct H as (pkCandidates & _ & H).
  destruct pkCandidates.
  - injection H as <-. eexists. reflexivity.
  - apply bind_Ok in H. destruct H as (names & _ & H).
    injection H as <-. eexists. reflexivity.
Qed.

(** X5: [convertToSnowflake] never ends by an exception.  When it
    ends, the input, the table name and the Silver text are untouched, and
    exactly one of two things holds: the error is empty and the output is a
    text that starts with "-- Table: ", or the output is empty and the
    error starts with "Error parsing JSON: ".  So the error box is on the
    page exactly when the download buttons are not. *)
Theorem convertToSnowflake_outcome (JSON_parse : string -> result json) (st : State) :
  (forall err, fst (convertToSnowflake JSON_parse st) <> Throw err)
  /\ (fst (convertToSnowflake JSON_parse st) = Ok tt ->
      jsonInput (snd (convertToSnowflake JSON_parse st)) = jsonInput st
      /\ tableName (snd (convertToSnowflake JSON_parse st)) = tableName st
      /\ silverSql (snd (convertToSnowflake JSON_parse st)) = silverSql st
      /\ ((error (snd (convertToSnowflake JSON_parse st)) = EmptyString
           /\ exists rest,
                sqlOutput (snd (convertToSnowflake JSON_parse st)) = "-- Table: " ++ rest)
          \/ (sqlOutput (snd (convertToSnowflake JSON_parse st)) = EmptyString
              /\ exists reported,
                   error (snd (convertToSnowflake JSON_parse st))
                   = "Error parsing JSON: " ++ reported))
      /\ shows_error (snd (convertToSnowflake JSON_parse st))
         = negb (offers_download (snd (convertToSnowflake JSON_parse st)))).
Proof.
  unfold convertToSnowflake, try_catch, and_then, lift, setError, setSqlOutput.
  cbn [jsonInput tableName].
  destruct (JSON_parse (jsonInput st)) as [schema | err |].
  - destruct (generateDdl (tableName st) schema) as [sql | err |] eqn:Hddl.
    + split; [discriminate |]. intros _. cbn [fst snd jsonInput tableName silverSql error sqlOutput].
      destruct (generateDdl_starts _ _ _ Hddl) as (rest & ->).
      repeat split. left. split; [reflexivity | eexists; reflexivity].
    + split; [discriminate |]. intros _. repeat split.
      right. split; [reflexivity | eexists; reflexivity].
    + split; [discriminate |]. discriminate.
  - split; [discriminate |]. intros _. repeat split.
    right. split; [reflexivity | eexists; reflexivity].
  - split; [discriminate |]. discriminate.
Qed.

Lemma convertToSnowflake_outcome_witness :
  shows_error (snd (convertToSnowflake example_parse (example_state "null")))
  = negb (offers_download (snd (convertToSnowflake example_parse (example_state "null")))).
Proof.
  apply (proj2 (convertToSnowflake_outcome example_parse (example_state "null"))).
  reflexivity.
Defined.

(** X6: a document that parses and then makes the generation throw
    (the literal null, for one) is caught like a parse error:
    [convertToSnowflake] empties the output and reports
    "Error parsing JSON: " with the message of the exception, and
    [generateSilverFromBronze] writes the message into the Silver text. *)
Theorem generation_errors_are_caught
    (JSON_parse : string -> result json) (st : State) (schema : json) (err : exn) :
  JSON_parse (jsonInput st) = Ok schema ->
  (generateDdl (tableName st) schema = Throw err ->
   convertToSnowflake JSON_parse st
   = (Ok tt,
      mkState (jsonInput st) EmptyString (tableName st)
              ("Error parsing JSON: " ++ message err) (silverSql st)))
  /\ (jsonInput st <> EmptyString ->
      generateSilver (tableName st) schema = Throw err ->
      generateSilverFromBronze JSON_parse st
      = (Ok tt,
         mkState (jsonInput st) (sqlOutput st) (tableName st) (error st)
                 ("-- Error generating silver query: " ++ message err))).
Proof.
  intros Hparse. split.
  - intros Hddl. apply (convertToSnowflake_failed _ _ schema); assumption.
  - intros Hinput Hsilver.
    unfold generateSilverFromBronze, try_catch, and_then, lift, setSilverSql.
    apply String.eqb_neq in Hinput. rewrite Hinput, Hparse, Hsilver. reflexivity.
Qed.

Lemma generation_errors_are_caught_witness :
  sqlOutput (snd (convertToSnowflake example_parse (example_state "null"))) = EmptyString
  /\ silverSql (snd (generateSilverFromBronze example_parse (example_state "null")))
     = "-- Error generating silver query: "
       ++ message (TypeError "Cannot read properties of null (reading 'properties')").
Proof.
  split.
  - rewrite (proj1 (generation_errors_are_caught example_parse (example_state "null")
                      JNull (TypeError "Cannot read properties of null (reading 'title')")
                      eq_refl)); reflexivity.
  - rewrite (proj2 (generation_errors_are_caught example_parse (example_state "null")
                      JNull (TypeError "Cannot read properties of null (reading 'properties')")
                      eq_refl)); [reflexivity | discriminate | reflexivity].
Defined.

Lemma generateSilver_not_empty (tableName : string) (schema : json) (silver : string) :
  generateSilver tableName schema = Ok silver -> silver <> EmptyString.
Proof.
  unfold generateSilver. intros H.
  apply bind_Ok in H. destruct H as (properties & _ & H).
  apply bind_Ok in H. destruct H as (sorted & _ & H).
  apply bind_Ok in H. destruct H as (table & _ & H).
  apply bind_Ok in H. destruct H as (lines & _ & H).
  injection H as <-. discriminate.
Qed.

(** X7: whenever [generateSilverFromBronze] ends, the Silver text is
    not empty (the query, or a line of comment that tells what went wrong),
    so the Silver panel is on the page; and the input, the DDL output, the
    table name and the error message are untouched. *)
Theorem generateSilverFromBronze_outcome
    (JSON_parse : string -> result json) (st : State) :
  fst (generateSilverFromBronze JSON_parse st) = Ok tt ->
  shows_silver (snd (generateSilverFromBronze JSON_parse st)) = true
  /\ jsonInput (snd (generateSilverFromBronze JSON_parse st)) = jsonInput st
  /\ sqlOutput (snd (generateSilverFromBronze JSON_parse st)) = sqlOutput st
  /\ tableName (snd (generateSilverFromBronze JSON_parse st)) = tableName st
  /\ error (snd (generateSilverFromBronze JSON_parse st)) = error st.
Proof.
  unfold generateSilverFromBronze, try_catch, and_then, lift, setSilverSql, shows_silver.
  destruct (jsonInput st =? "")%string; [intros _; repeat split |].
  destruct (JSON_parse (jsonInput st)) as [schema | err |]; try discriminate.
  - destruct (generateSilver (tableName st) schema) as [silver | err |] eqn:Hsilver;
      try discriminate; intros _; repeat split.
    cbn [snd silverSql]. apply negb_true_iff, String.eqb_neq.
    apply (generateSilver_not_empty _ _ _ Hsilver).
  - intros _. repeat split.
Qed.

Lemma generateSilverFromBronze_outcome_witness :
  shows_silver (snd (generateSilverFromBronze example_parse (example_state "{"))) = true.
Proof.
  apply (generateSilverFromBronze_outcome example_parse (example_state "{")).
  reflexivity.
Defined.

(** ** The handlers one after the other *)

Lemma ddl_text_not_empty (tableName : string) (s : json) (cols : list entry) :
  ddl_text tableName s cols <> EmptyString.
Proof.
  unfold ddl_text, ddl_statement. cbv zeta. rewrite !append_assoc. discriminate.
Qed.

(** X8: Convert, then Generate Silver.  On an input that parses to a
    well-formed schema, [convertToSnowflake] puts the Generate Silver button
    on the page, and [generateSilverFromBronze] after it leaves the DDL and
    the Silver query of the same table, over the same columns in the same
    order, with no error message. *)
Theorem convert_then_silver
    (JSON_parse : string -> result json) (st : State) (schema : json) :
  jsonInput st <> EmptyString ->
  JSON_parse (jsonInput st) = Ok schema ->
  well_formed_schema schema = true ->
  offers_download (snd (convertToSnowflake JSON_parse st)) = true
  /\ (convertToSnowflake JSON_parse ;;; generateSilverFromBronze JSON_parse)%action st
     = (Ok tt,
        mkState (jsonInput st)
                (ddl_text (tableName st) schema (columns schema))
                (tableName st)
                EmptyString
                (silver_query (tableName st) schema (columns schema))).
Proof.
  intros Hinput Hparse Hwf.
  pose proof (convertToSnowflake_parsed JSON_parse st schema _ Hparse
                (generateDdl_well_formed (tableName st) schema Hwf)) as Hconvert.
  unfold and_then. rewrite Hconvert. cbn [snd]. split.
  - unfold offers_download. cbn [sqlOutput].
    apply negb_true_iff, String.eqb_neq, ddl_text_not_empty.
  - unfold generateSilverFromBronze, try_catch, and_then, lift, setSilverSql.
    cbn [jsonInput tableName sqlOutput error].
    apply String.eqb_neq in Hinput. rewrite Hinput, Hparse.
    rewrite (generateSilver_well_formed _ _ Hwf). reflexivity.
Qed.

Lemma convert_then_silver_witness :
  (convertToSnowflake loadExample_parse
   ;;; generateSilverFromBronze loadExample_parse)%action
    (snd (loadExample (example_state "{")))
  = (Ok tt,
     mkState loadExample_text (supplier_statement ++ supplier_suggestion)
             EmptyString EmptyString supplier_silver).
Proof.
  rewrite (proj2 (convert_then_silver loadExample_parse
                    (snd (loadExample (example_state "{"))) supplier_schema
                    ltac:(discriminate) eq_refl eq_refl)).
  reflexivity.
Defined.

Lemma toUpperCase_not_empty (s : string) :
  s <> EmptyString -> Str.toUpperCase s <> EmptyString.
Proof.
  destruct s; [congruence | discriminate].
Qed.

(** X9: the downloaded file.  After a table name is typed and a
    well-formed schema converted, [downloadSQL] hands out the DDL of the
    table of that name, in upper case, in a file of that name with the
    extension .sql.  With no table name the file is schema.sql, whatever
    table the title of the schema names in the DDL. *)
Theorem download_named_after_table
    (JSON_parse : string -> result json) (st : State) (typed : string) (schema : json) :
  JSON_parse (jsonInput st) = Ok schema ->
  well_formed_schema schema = true ->
  (typed <> EmptyString ->
   resolved_table (Str.toUpperCase typed) schema = Str.toUpperCase typed
   /\ downloadSQL (snd ((onTableNameChange typed ;;; convertToSnowflake JSON_parse)%action st))
      = mkDownload (ddl_text (Str.toUpperCase typed) schema (columns schema))
                   "text/plain" (Str.toUpperCase typed ++ ".sql"))
  /\ (typed = EmptyString ->
      downloadSQL (snd ((onTableNameChange typed ;;; convertToSnowflake JSON_parse)%action st))
      = mkDownload (ddl_text EmptyString schema (columns schema))
                   "text/plain" "schema.sql").
Proof.
  intros Hparse Hwf.
  unfold and_then, onTableNameChange, setTableName.
  set (st1 := mkState (jsonInput st) (sqlOutput st) (Str.toUpperCase typed)
                      (error st) (silverSql st)).
  pose proof (convertToSnowflake_parsed JSON_parse st1 schema _ Hparse
                (generateDdl_well_formed (tableName st1) schema Hwf)) as Hconvert.
  rewrite Hconvert. unfold downloadSQL. cbn [snd sqlOutput tableName st1].
  split.
  - intros Htyped. apply toUpperCase_not_empty, String.eqb_neq in Htyped.
    unfold resolved_table. rewrite Htyped. split; reflexivity.
  - intros ->. reflexivity.
Qed.

Lemma download_named_after_table_witness :
  download (downloadSQL
              (snd ((onTableNameChange "m3.cidmas" ;;; convertToSnowflake example_parse)%action
                      (example_state "{}"))))
  = "M3.CIDMAS.sql".
Proof.
  rewrite (proj2 (proj1 (download_named_after_table example_parse (example_state "{}")
                           "m3.cidmas" (JObj []) eq_refl eq_refl) ltac:(discriminate))).
  reflexivity.
Defined.

(** X10: the mapper reads five properties of a descriptor and no
    other: type, format, maximum, multipleOf and x-dateTimeFormat.  Two
    descriptors that agree on them get the same type, whatever maxLength,
    minimum, title or description they carry. *)
Theorem mapM3TypeToSnowflake_reads_five (d1 d2 : json) :
  d1 <> JNull -> d2 <> JNull ->
  (forall key, In key ["type"; "format"; "maximum"; "multipleOf"; "x-dateTimeFormat"] ->
               JS.field d1 key = JS.field d2 key) ->
  mapM3TypeToSnowflake d1 = mapM3TypeToSnowflake d2.
Proof.
  intros H1 H2 Hsame. unfold mapM3TypeToSnowflake.
  rewrite (Hsame "type"), (Hsame "format"), (Hsame "maximum"),
          (Hsame "multipleOf"), (Hsame "x-dateTimeFormat") by (simpl; tauto).
  destruct d1; try congruence; destruct d2; try congruence; reflexivity.
Qed.

Lemma mapM3TypeToSnowflake_reads_five_witness :
  mapM3TypeToSnowflake
    (JObj [("type", JStr "string"); ("maxLength", integer 10)])
  = mapM3TypeToSnowflake
      (JObj [("title", JStr "supplier"); ("type", JStr "string")]).
Proof.
  apply mapM3TypeToSnowflake_reads_five; try discriminate.
  intros key Hkey. simpl in Hkey.
  destruct Hkey as [<- | [<- | [<- | [<- | [<- | []]]]]]; reflexivity.
Defined.

(** * The version before App.js *)

Lemma decimal_length_fraction_length (s : string) :
  Previous.decimal_length s = fraction_length s.
Proof.
  unfold Previous.decimal_length, fraction_length.
  destruct (nth_error (Str.split "." s) 1) as [decimalPart |]; [| reflexivity].
  destruct decimalPart; reflexivity.
Qed.

Lemma previous_number_type (maximum multipleOf : value) :
  Previous.number_type maximum multipleOf = number_type maximum multipleOf.
Proof.
  unfold Previous.number_type, number_type.
  destruct multipleOf as [m |];
    [destruct (JS.truthy (Some m));
       [destruct (JS.toString "multipleOf" m) as [s | |]; try reflexivity;
        cbn [bind]; rewrite decimal_length_fraction_length;
        destruct (Str.includes "." s); cbn [bind] | cbn [bind]] | cbn [bind]];
    (destruct maximum as [x |]; [| reflexivity]);
    cbn [negb andb];
    try reflexivity;
    (destruct (JS.truthy (Some x)); [| reflexivity]);
    (destruct (JS.toString "maximum" x) as [t | |]; try reflexivity);
    cbn [bind]; rewrite decimal_length_fraction_length; reflexivity.
Qed.

Lemma previous_mapper (property : json) (propName : string) :
  Previous.mapM3TypeToSnowflake property propName = mapM3TypeToSnowflake property.
Proof.
  unfold Previous.mapM3TypeToSnowflake, mapM3TypeToSnowflake.
  rewrite previous_number_type. reflexivity.
Qed.

(** X11: the mapper of the version before App.js, which names the
    digits after the point before it counts them, gives every descriptor
    the type, or the exception, that the mapper of App.js gives it. *)
Theorem previous_mapper_unchanged (property : json) (propName : string) :
  Previous.mapM3TypeToSnowflake property propName = mapM3TypeToSnowflake property.
Proof.
  apply previous_mapper.
Qed.

Lemma previous_column_line (required : json) :
  forall prop, Previous.column_line required prop = column_line required prop.
Proof.
  intros [propName propDef]. unfold Previous.column_line, column_line.
  rewrite previous_mapper. reflexivity.
Qed.

Lemma for_each_ext {A B : Type} (f g : A -> result B) (l : list A) :
  (forall a, f a = g a) -> for_each f l = for_each g l.
Proof.
  intros Hfg. induction l as [| a l IH]; [reflexivity |].
  simpl. rewrite Hfg, IH. reflexivity.
Qed.

Lemma previous_generateDdl_well_formed (tableName : string) (s : json) :
  well_formed_schema s = true ->
  Previous.generateDdl tableName s = Ok (Previous.ddl_text tableName s (columns s)).
Proof.
  intros Hwf. unfold Previous.generateDdl.
  rewrite (table_name_well_formed _ _ Hwf). cbn [bind].
  destruct (properties_or_else s Hwf) as [Hprops Hdescs].
  pose proof (required_or_else s Hwf) as Hreq.
  destruct (well_formed_schema_fields s Hwf) as ([fields Hs] & _ & Hdesc & _).
  assert (Hget : forall key, JS.get s key = Ok (JS.field s key))
    by (intros key; rewrite Hs; reflexivity).
  rewrite !Hget. cbn [bind]. rewrite Hprops, Hreq.
  rewrite (sortedProps_well_formed _ Hdescs). cbn [bind]. fold (columns s).
  rewrite (for_each_ext _ _ _ (previous_column_line _)).
  rewrite (for_each_map _ (column_text (schema_required s)))
    by (intros p Hp; apply column_line_well_formed,
          (columns_well_formed s p Hwf Hp)).
  rewrite pk_candidates_names.
  unfold Previous.ddl_text, Previous.ddl_statement, schema_description,
    Previous.primary_key_comment, sql_comment.
  destruct (JS.field s "description") as [[] |]; try discriminate;
    cbn [text bind JS.truthy JS.ToString].
  - destruct (s0 =? "")%string; cbn [negb bind];
      destruct (filter pk_rule (schema_required s)) as [| c cs] eqn:Ec;
      cbn [List.map bind]; rewrite <- ?(map_cons JStr), ?Array_join_names;
      cbn [bind]; rewrite ?append_assoc, ?append_empty; reflexivity.
  - destruct (filter pk_rule (schema_required s)) as [| c cs] eqn:Ec;
      cbn [List.map bind]; rewrite <- ?(map_cons JStr), ?Array_join_names;
      cbn [bind]; rewrite ?append_assoc, ?append_empty; reflexivity.
Qed.

(** X12: what the version before App.js made of a well-formed schema:
    the table name, the column lines and their order are those of App.js;
    the statement is CREATE OR REPLACE TABLE, carries the description as
    its comment without CHANGE_TRACKING, and ends in a semicolon and a line
    break, before the suggested primary key. *)
Theorem previous_convertToSnowflake_well_formed
    (JSON_parse : string -> result json) (st : State) (schema : json) :
  JSON_parse (jsonInput st) = Ok schema ->
  well_formed_schema schema = true ->
  Previous.convertToSnowflake JSON_parse st
  = (Ok tt,
     mkState (jsonInput st)
             (Previous.ddl_text (tableName st) schema (columns schema))
             (tableName st) EmptyString (silverSql st)).
Proof.
  intros Hparse Hwf.
  unfold Previous.convertToSnowflake, try_catch, and_then, lift, setError, setSqlOutput.
  cbn [jsonInput tableName]. rewrite Hparse.
  rewrite (previous_generateDdl_well_formed _ _ Hwf). reflexivity.
Qed.

Lemma previous_convertToSnowflake_well_formed_witness :
  Previous.convertToSnowflake loadExample_parse (snd (loadExample (example_state "{")))
  = (Ok tt,
     mkState loadExample_text previous_supplier_ddl EmptyString EmptyString EmptyString).
Proof.
  rewrite (previous_convertToSnowflake_well_formed loadExample_parse
             (snd (loadExample (example_state "{"))) supplier_schema eq_refl eq_refl).
  reflexivity.
Defined.

(** X13: the two versions end alike on every parsed document, well
    formed or not: where the statements of App.js produce a text, so did
    those of the version before, and where they throw, the earlier ones
    threw the same exception. *)
Theorem previous_generateDdl_outcome (tableName : string) (schema : json) :
  outcome (Previous.generateDdl tableName schema) = outcome (generateDdl tableName schema).
Proof.
  unfold Previous.generateDdl, generateDdl.
  destruct (table_name tableName schema) as [table | |]; try reflexivity. cbn [bind].
  destruct (JS.get schema "properties") as [properties | |]; try reflexivity. cbn [bind].
  destruct (JS.get schema "required") as [required | |]; try reflexivity. cbn [bind].
  destruct (JS.get schema "description") as [description | |]; try reflexivity. cbn [bind].
  destruct description as [d |]; cbn [bind];
    [destruct (JS.truthy (Some d));
       [destruct (JS.ToString d) as [shown | |]; try reflexivity |] |];
    cbn [bind];
    (destruct (sortedProps _) as [sorted | |]; try reflexivity);
    cbn [bind]; rewrite (for_each_ext _ _ _ (previous_column_line _));
    (destruct (for_each _ sorted) as [lines | |]; try reflexivity);
    cbn [bind];
    (destruct (pk_candidates _) as [[| c cs] | |]; try reflexivity);
    cbn [bind];
    destruct (JS.Array_join _ _); reflexivity.
Qed.

(** * The first version *)

Lemma starts_with_shorter (a b s : string) :
  Str.starts_with (a ++ b) s = true -> Str.starts_with a s = true.
Proof.
  revert s. induction a as [| c a IH]; intros s H; [reflexivity |].
  destruct s as [| d s]; [discriminate |].
  cbn [append Str.starts_with] in *.
  apply andb_true_iff in H. destruct H as [-> H]. exact (IH _ H).
Qed.

Lemma includes_shorter (a b s : string) :
  Str.includes a s = false -> Str.includes (a ++ b) s = false.
Proof.
  induction s as [| d s IH]; intros H.
  - destruct a; [discriminate |]. reflexivity.
  - cbn [Str.includes] in *. apply orb_false_iff in H. destruct H as [Hstart Hrest].
    rewrite (IH Hrest), orb_false_r.
    destruct (Str.starts_with (a ++ b) (String d s)) eqn:E; [| reflexivity].
    apply starts_with_shorter in E. congruence.
Qed.

(** X14: the first version of the mapper knows six types: whatever
    descriptor it is given, a type it returns is one of DATETIME, DATE, TIME,
    NUMBER, BOOLEAN and STRING, never INTEGER and never a NUMBER with a
    precision and a scale. *)
Theorem first_mapper_range (property : json) (propName t : string) :
  First.mapM3TypeToSnowflake property propName = Ok t ->
  In t ["DATETIME"; "DATE"; "TIME"; "NUMBER"; "BOOLEAN"; "STRING"].
Proof.
  unfold First.mapM3TypeToSnowflake. intros H.
  apply bind_Ok in H. destruct H as (_ & _ & H).
  apply bind_Ok in H. destruct H as (description & _ & H).
  apply bind_Ok in H. destruct H as (titleLower & _ & H).
  repeat match type of H with
         | (if ?c then _ else _) = _ => destruct c
         | match ?v with Some _ => _ | None => _ end = _ => destruct v
         | (_ <- ?r ;; _) = _ => destruct r; try discriminate; cbn [bind] in H
         end;
    injection H as <-; simpl; tauto.
Qed.

Lemma first_mapper_range_witness :
  In "DATE" ["DATETIME"; "DATE"; "TIME"; "NUMBER"; "BOOLEAN"; "STRING"].
Proof.
  apply (first_mapper_range order_date "ORDT"). reflexivity.
Defined.

(** X15: where the two mappers part.  On a descriptor whose title
    and description, if any, are strings that hold neither "date" nor
    "time" in any case, the first version gives the type of App.js unless
    the type is integer or number; an integer, INTEGER in App.js, and a
    number, with or without decimals, are both NUMBER when the format is
    not date-time. *)
Theorem first_mapper_without_hints (property : json) (propName : string) :
  property <> JNull ->
  optional is_str (JS.field property "title") = true ->
  optional is_str (JS.field property "description") = true ->
  (forall hint, In hint ["date"; "time"] ->
     Str.includes hint (Str.toLowerCase (text (JS.field property "title"))) = false
     /\ Str.includes hint (Str.toLowerCase (text (JS.field property "description"))) = false) ->
  (JS.is_string (JS.field property "type") "integer" = false ->
   JS.is_string (JS.field property "type") "number" = false ->
   First.mapM3TypeToSnowflake property propName = mapM3TypeToSnowflake property)
  /\ (JS.is_string (JS.field property "format") "date-time" = false ->
      JS.is_string (JS.field property "type") "integer" = true
      \/ JS.is_string (JS.field property "type") "number" = true ->
      First.mapM3TypeToSnowflake property propName = Ok "NUMBER").
Proof.
  intros Hnull Htitle Hdescription Hhints.
  destruct (Hhints "date" ltac:(simpl; tauto)) as [Hdate_t Hdate_d].
  destruct (Hhints "time" ltac:(simpl; tauto)) as [Htime_t Htime_d].
  pose proof (includes_shorter "date" "time" _ Hdate_t) as Hdt_t.
  pose proof (includes_shorter "date" "time" _ Hdate_d) as Hdt_d.
  cbn [append] in Hdt_t, Hdt_d.
  assert (Hlow : forall shown v, optional is_str v = true ->
                   First.lower_or_empty shown v = Ok (Str.toLowerCase (text v))).
  { intros shown [[] |] Hv; try discriminate; reflexivity. }
  unfold First.mapM3TypeToSnowflake, mapM3TypeToSnowflake.
  rewrite (Hlow _ _ Htitle), (Hlow _ _ Hdescription).
  destruct property; try congruence; cbn [bind];
    rewrite ?Hdt_t, ?Hdt_d, ?Hdate_t, ?Hdate_d, ?Htime_t, ?Htime_d, ?orb_false_r; cbn [orb];
    (split;
      [intros Hint Hnum; rewrite Hint, Hnum; reflexivity
      | intros Hformat Htype; rewrite Hformat;
        destruct (JS.is_string (JS.field _ "x-dateTimeFormat") _); [reflexivity |];
        destruct (JS.field _ "type") as [[| | | t | |] |];
          try (destruct Htype; discriminate);
        cbn [JS.is_string] in *;
        destruct Htype as [Htype | Htype]; apply String.eqb_eq in Htype; subst t;
        reflexivity]).
Qed.

Lemma first_mapper_without_hints_witness :
  First.mapM3TypeToSnowflake (JObj [("type", JStr "integer")]) "CONO" = Ok "NUMBER"
  /\ mapM3TypeToSnowflake (JObj [("type", JStr "integer")]) = Ok "INTEGER".
Proof.
  split; [| reflexivity].
  apply (proj2 (first_mapper_without_hints (JObj [("type", JStr "integer")]) "CONO"
                  ltac:(discriminate) eq_refl eq_refl
                  ltac:(intros hint [<- | [<- | []]]; split; reflexivity)));
    [reflexivity | left; reflexivity].
Defined.

(** * The sort, beyond the data model *)

Lemma position_keyed (d : json) :
  keyed d = true -> position d = Ok (position_key d).
Proof.
  unfold keyed, position, position_key.
  destruct d; try discriminate; cbn [JS.get bind];
    (destruct (JS.field _ "x-position") as [[| flag | pos | t | |] |];
       try discriminate; try reflexivity;
       [destruct flag; reflexivity
       | cbn [JS.truthy]; destruct (Num.truthy pos); reflexivity
       | destruct t as [| c rest]; [reflexivity |];
         intros Hdigits; cbn [JS.truthy String.eqb negb]; unfold digits_number;
         rewrite Hdigits; apply andb_true_iff in Hdigits;
         rewrite (read_digits_start (String c rest) (proj1 Hdigits))
           by discriminate;
         reflexivity]).
Qed.

Lemma by_position_key_antisym (a b : entry) :
  by_position_key b a = CompOpp (by_position_key a b).
Proof. apply sign_of_difference_antisym. Qed.

Lemma by_position_key_trans (a b c : entry) :
  by_position_key a b <> Gt -> by_position_key b c <> Gt -> by_position_key a c <> Gt.
Proof. apply sign_of_difference_trans. Qed.

(** X16: the sort beyond the data model.  On descriptors of any shape
    but [null], whose [x-position] is absent, null, a boolean, a number or
    a string of at most fifteen digits, the sort succeeds, and the sorted
    entries are those that [Object.entries] enumerates, each once, in
    ascending order of the number that [x-position || 999] stands for
    (a string of digits counts as the integer it denotes, [true] as 1, and
    null, false, zero and the empty string as 999); entries of equal
    position keep the order of the enumeration. *)
Theorem sortedProps_stable_sort (props : list entry) :
  (forall p, In p props -> keyed (snd p) = true) ->
  exists sorted,
    sortedProps (JObj props) = Ok sorted
    /\ stable_sort by_position_key (Obj.own_entries props) sorted.
Proof.
  intros Hkeyed.
  assert (Hentries : forall p, In p (Obj.own_entries props) -> keyed (snd p) = true).
  { intros p Hp. apply Hkeyed.
    eapply Permutation_in; [apply Permutation_sym, own_entries_permutation | exact Hp]. }
  exists (Array_sort by_position_key (Obj.own_entries props)). split.
  - unfold sortedProps. cbn [Obj.entries bind]. unfold sort_by_position.
    assert (Hcheck : check_positions (Obj.own_entries props) = Ok tt).
    { apply check_positions_Ok. intros p Hp. eexists.
      apply position_keyed, Hentries, Hp. }
    rewrite Hcheck. cbn [bind].
    rewrite (Array_sort_ext by_position_key by_position).
    + destruct (Obj.own_entries props) as [| a [| b l]]; reflexivity.
    + intros a b Ha Hb. unfold by_position, by_position_key, sort_key.
      rewrite !position_keyed by (apply Hentries; assumption). reflexivity.
  - apply (Array_sort_stable_sort by_position_key
             by_position_key_antisym by_position_key_trans).
Qed.

Lemma sortedProps_stable_sort_witness :
  sortedProps (JObj string_positions)
  = Ok [column "b" [("x-position", integer 1)];
        column "a" [("x-position", JStr "2")];
        column "c" [("x-position", JStr "10")]]
  /\ exists sorted,
       sortedProps (JObj string_positions) = Ok sorted
       /\ stable_sort by_position_key (Obj.own_entries string_positions) sorted.
Proof.
  split; [reflexivity |].
  apply (sortedProps_stable_sort string_positions).
  intros p Hp. simpl in Hp. destruct Hp as [<- | [<- | [<- | []]]]; reflexivity.
Defined.
